(** * Security Containers / vasum: the containers manager

    A shallow embedding of [server/containers-manager.cpp]: the map of
    containers (zones), foreground selection, start and stop of all
    containers, notifications to the active container, the file move and the
    proxy-call router, together with the properties the specification states
    about them.

    Conventions of the embedding.
    - [std::map<std::string, std::unique_ptr<Container>>] is an association
      list kept in strictly increasing key order, so that iterating the list
      is iterating the map.
    - Every call that leaves the manager (a call on a container object, a
      proxy call on the host connection, a file move, a reply put into the
      [MethodResultBuilder], a warning or error line of the log) is an
      [Event]; a handler yields the list of its events in program order.
      [LOGI] and [LOGD] lines are not recorded.
    - A C++ exception is the outcome [Throw]; dereferencing a null pointer or
      a past-the-end iterator is the outcome [Crash].
    - What the manager gets from code that is not among the sources is part
      of the [World]: whether a call on a container fails, the class of the
      exception of a notification that fails, the files of the host, and the
      paths [boost::filesystem::absolute] computes.  The properties hold
      for every behaviour of these. *)

From Stdlib Require Import List String Ascii ZArith Bool Lia Sorted
  OrderedTypeEx.
Import ListNotations.
Local Open Scope string_scope.
Local Open Scope Z_scope.

Set Implicit Arguments.

(* ===================================================================== *)
(** ** Regular expressions: [boost::regex] and [boost::regex_match] *)
(* ===================================================================== *)

Module Regex.

(** [boost::regex] is an external library; a compiled expression is
    represented by its abstract syntax. *)
Inductive regex : Type :=
| Empty : regex
| Eps : regex
| Chr : ascii -> regex
| Any : regex
| Cat : regex -> regex -> regex
| Alt : regex -> regex -> regex
| Star : regex -> regex.

(** The strings an expression denotes. *)
Inductive matches : regex -> string -> Prop :=
| MEps : matches Eps ""
| MChr : forall c, matches (Chr c) (String c "")
| MAny : forall c, matches Any (String c "")
| MCat : forall r1 r2 s1 s2,
    matches r1 s1 -> matches r2 s2 -> matches (Cat r1 r2) (s1 ++ s2)
| MAltL : forall r1 r2 s, matches r1 s -> matches (Alt r1 r2) s
| MAltR : forall r1 r2 s, matches r2 s -> matches (Alt r1 r2) s
| MStarNil : forall r, matches (Star r) ""
| MStarCons : forall r c s1 s2,
    matches r (String c s1) -> matches (Star r) s2 ->
    matches (Star r) (String c s1 ++ s2).

Fixpoint nullable (r : regex) : bool :=
  match r with
  | Empty => false
  | Eps => true
  | Chr _ => false
  | Any => false
  | Cat r1 r2 => nullable r1 && nullable r2
  | Alt r1 r2 => nullable r1 || nullable r2
  | Star _ => true
  end.

Fixpoint deriv (c : ascii) (r : regex) : regex :=
  match r with
  | Empty => Empty
  | Eps => Empty
  | Chr d => if Ascii.eqb c d then Eps else Empty
  | Any => Eps
  | Cat r1 r2 =>
      if nullable r1 then Alt (Cat (deriv c r1) r2) (deriv c r2)
      else Cat (deriv c r1) r2
  | Alt r1 r2 => Alt (deriv c r1) (deriv c r2)
  | Star r1 => Cat (deriv c r1) (Star r1)
  end.

(** [boost::regex_match(str, e)]: true when the WHOLE of [str] is matched. *)
Fixpoint regex_match (str : string) (e : regex) : bool :=
  match str with
  | EmptyString => nullable e
  | String c rest => regex_match rest (deriv c e)
  end.

(** The literal string [s] as an expression. *)
Fixpoint Lit (s : string) : regex :=
  match s with
  | EmptyString => Eps
  | String c rest => Cat (Chr c) (Lit rest)
  end.

End Regex.

Import Regex.

(* ===================================================================== *)
(** ** Shell-style patterns of the proxy-call rules *)
(* ===================================================================== *)

(** Modelled from the spec: the pattern matcher of [ProxyCallPolicy]
    (proxy-call-policy.cpp is not among the sources).  Patterns are
    shell-style: [*] stands for any run of characters, [?] for one
    character, every other character for itself. *)
Fixpoint globMatch (pattern str : string) : bool :=
  match pattern with
  | EmptyString =>
      match str with EmptyString => true | _ => false end
  | String p rest =>
      if Ascii.eqb p "*"%char then
        (fix star (s : string) : bool :=
           globMatch rest s ||
           match s with
           | EmptyString => false
           | String _ s' => star s'
           end) str
      else
        match str with
        | EmptyString => false
        | String c s' =>
            (Ascii.eqb p "?"%char || Ascii.eqb p c) && globMatch rest s'
        end
  end.

(** Modelled from the spec: "empty pattern means match anything". *)
Definition patternMatch (pattern str : string) : bool :=
  match pattern with
  | EmptyString => true
  | _ => globMatch pattern str
  end.

(* ===================================================================== *)
(** ** Data model *)
(* ===================================================================== *)

(** [GVariant] values, as far as the manager builds and passes them. *)
#[warnings="-register-all"]
Inductive GVariant : Type :=
| GString : string -> GVariant                 (* "s" *)
| GBoxed : GVariant -> GVariant                (* "v" *)
| GTuple : list GVariant -> GVariant           (* "(...)" *)
| GDictEntry : GVariant -> GVariant -> GVariant (* "{..}" *)
| GArray : list GVariant -> GVariant.          (* "a.." *)

(** [g_variant_new("(s)", str)] and [g_variant_new("(v)", value)]. *)
Definition g_variant_new_s (str : string) : GVariant := GTuple [GString str].
Definition g_variant_new_v (value : GVariant) : GVariant := GTuple [GBoxed value].

(** Modelled from the spec: the life-cycle states of a zone (container.hpp
    is not among the sources). *)
Inductive State : Type :=
| STOPPED | STARTING | RUNNING | STOPPING | LOCKED | FROZEN | ABORTING.

Definition State_eqb (a b : State) : bool :=
  match a, b with
  | STOPPED, STOPPED | STARTING, STARTING | RUNNING, RUNNING
  | STOPPING, STOPPING | LOCKED, LOCKED | FROZEN, FROZEN
  | ABORTING, ABORTING => true
  | _, _ => false
  end.

(** Modelled from the spec: the [Container] object (container.cpp is not
    among the sources).  The fields named after getters are what the getter
    returns; [state] and [foreground] are the run-time state the life-cycle
    table of the specification speaks about. *)
Record Container : Type := mkContainer {
  getId : string;
  getPrivilege : Z;
  getPermittedToSend : list regex;
  getPermittedToRecv : list regex;
  isSwitchToDefaultAfterTimeoutAllowed : bool;
  getDbusAddress : string;
  state : State;
  foreground : bool;
  detachOnExit : bool
}.

(** Modelled from the spec: "is_running() returns true iff state is RUNNING
    or LOCKED". *)
Definition isRunning (c : Container) : bool :=
  match state c with
  | RUNNING | LOCKED => true
  | _ => false
  end.

(** Modelled from the spec: a zone is stopped in state STOPPED. *)
Definition isStopped (c : Container) : bool := State_eqb (state c) STOPPED.

Definition setState (s : State) (c : Container) : Container :=
  mkContainer (getId c) (getPrivilege c) (getPermittedToSend c)
    (getPermittedToRecv c) (isSwitchToDefaultAfterTimeoutAllowed c)
    (getDbusAddress c) s (foreground c) (detachOnExit c).

Definition setForeground (b : bool) (c : Container) : Container :=
  mkContainer (getId c) (getPrivilege c) (getPermittedToSend c)
    (getPermittedToRecv c) (isSwitchToDefaultAfterTimeoutAllowed c)
    (getDbusAddress c) (state c) b (detachOnExit c).

Definition setContainerDetach (c : Container) : Container :=
  mkContainer (getId c) (getPrivilege c) (getPermittedToSend c)
    (getPermittedToRecv c) (isSwitchToDefaultAfterTimeoutAllowed c)
    (getDbusAddress c) (state c) (foreground c) true.

(** The calls the manager makes on a container object. *)
Inductive ZoneOp : Type :=
| Start
| Stop
| GoForeground
| GoBackground
| SetDetachOnExit
| SendNotification (container application message : string)
| ProxyCallAsync (busName objectPath interface method : string)
                 (parameters : GVariant).

(** Modelled from the spec: the effect of a call that succeeds, after the
    transition table of the zone.  [start] takes STOPPED to RUNNING, [stop]
    takes RUNNING to STOPPED, going to the foreground or background sets the
    foreground flag and keeps the state; a call in a state the table has no
    row for leaves the zone as it is. *)
Definition applyOp (op : ZoneOp) (c : Container) : Container :=
  match op with
  | Start => match state c with STOPPED => setState RUNNING c | _ => c end
  | Stop => match state c with RUNNING => setState STOPPED c | _ => c end
  | GoForeground => setForeground true c
  | GoBackground => setForeground false c
  | SetDetachOnExit => setContainerDetach c
  | SendNotification _ _ _ => c
  | ProxyCallAsync _ _ _ _ _ => c
  end.

(** *** The map of containers *)

(** Modelled from the spec: [ContainerMap], whose typedef is in
    containers-manager.hpp, which is not among the sources.  The source uses
    it with [find], [at], [insert] of a [value_type], [operator[]] and
    iterators over pairs, and the spec iterates the zones "in map order" and
    breaks ties "by id order": a [std::map] from id to the owned container,
    in key order. *)
Definition ContainerMap : Type := list (string * Container).

Definition keys (m : ContainerMap) : list string := map fst m.

(** [mContainers.find(id)]: [None] is [end()]. *)
Fixpoint mapFind (id : string) (m : ContainerMap) : option Container :=
  match m with
  | [] => None
  | (k, c) :: rest => if String.eqb id k then Some c else mapFind id rest
  end.

(** [mContainers.insert(value_type(id, c))]: keeps the keys ordered and
    does nothing when the key is already there. *)
Fixpoint mapInsert (id : string) (c : Container) (m : ContainerMap)
  : ContainerMap :=
  match m with
  | [] => [(id, c)]
  | (k, c') :: rest =>
      if String.eqb id k then m
      else if String.ltb id k then (id, c) :: m
      else (k, c') :: mapInsert id c rest
  end.

(** A call through the stored pointer changes the object in place. *)
Fixpoint mapModify (id : string) (f : Container -> Container)
  (m : ContainerMap) : ContainerMap :=
  match m with
  | [] => []
  | (k, c) :: rest =>
      if String.eqb id k then (k, f c) :: rest
      else (k, c) :: mapModify id f rest
  end.

(** [std::min_element(first, last, comp)] with
    [comp(c1, c2) = c1.second->getPrivilege() < c2.second->getPrivilege()]:
    the running minimum is replaced only by a strictly smaller element. *)
Fixpoint min_element_from (smallest : string * Container) (m : ContainerMap)
  : string * Container :=
  match m with
  | [] => smallest
  | x :: rest =>
      if getPrivilege (snd x) <? getPrivilege (snd smallest)
      then min_element_from x rest
      else min_element_from smallest rest
  end.

(** [None] is the past-the-end iterator returned for an empty range. *)
Definition min_element (m : ContainerMap) : option (string * Container) :=
  match m with
  | [] => None
  | x :: rest => Some (min_element_from x rest)
  end.

(** *** Proxy-call rules *)

(** Modelled from the spec: the effect of a rule. *)
Inductive Effect : Type := ALLOW | DENY.

(** Modelled from the spec: a proxy-call rule, six patterns and an effect
    (proxy-call-config.hpp is not among the sources). *)
Record ProxyCallRule : Type := mkRule {
  ruleCaller : string;
  ruleTarget : string;
  ruleTargetBusName : string;
  ruleTargetObjectPath : string;
  ruleTargetInterface : string;
  ruleTargetMethod : string;
  ruleEffect : Effect
}.

(** Modelled from the spec: a rule matches a call when each of its six
    patterns matches the corresponding part of the call. *)
Definition ruleMatches (rule : ProxyCallRule)
  (caller target targetBusName targetObjectPath targetInterface
   targetMethod : string) : bool :=
  patternMatch (ruleCaller rule) caller
  && patternMatch (ruleTarget rule) target
  && patternMatch (ruleTargetBusName rule) targetBusName
  && patternMatch (ruleTargetObjectPath rule) targetObjectPath
  && patternMatch (ruleTargetInterface rule) targetInterface
  && patternMatch (ruleTargetMethod rule) targetMethod.

(** Modelled from the spec: [ProxyCallPolicy::isProxyCallAllowed]
    (proxy-call-policy.cpp is not among the sources).  The rules are tried
    in order, the first one that matches decides, and a call no rule matches
    is denied. *)
Fixpoint isProxyCallAllowed (rules : list ProxyCallRule)
  (caller target targetBusName targetObjectPath targetInterface
   targetMethod : string) : bool :=
  match rules with
  | [] => false
  | rule :: rest =>
      if ruleMatches rule caller target targetBusName targetObjectPath
           targetInterface targetMethod
      then match ruleEffect rule with ALLOW => true | DENY => false end
      else isProxyCallAllowed rest caller target targetBusName
             targetObjectPath targetInterface targetMethod
  end.

(** *** Constants *)

Definition HOST_ID : string := "host".

(** Modelled from the spec: the error names and file-move codes are
    declared in the *-dbus-definitions.hpp headers, which are not among the
    sources; each constant stands for itself. *)
Definition ERROR_FORBIDDEN : string := "ERROR_FORBIDDEN".
Definition ERROR_FORWARDED : string := "ERROR_FORWARDED".
Definition ERROR_UNKNOWN_ID : string := "ERROR_UNKNOWN_ID".
Definition ERROR_CONTAINER_STOPPED : string := "ERROR_CONTAINER_STOPPED".

Definition FILE_MOVE_DESTINATION_NOT_FOUND : string :=
  "FILE_MOVE_DESTINATION_NOT_FOUND".
Definition FILE_MOVE_WRONG_DESTINATION : string :=
  "FILE_MOVE_WRONG_DESTINATION".
Definition FILE_MOVE_NO_PERMISSIONS_SEND : string :=
  "FILE_MOVE_NO_PERMISSIONS_SEND".
Definition FILE_MOVE_NO_PERMISSIONS_RECEIVE : string :=
  "FILE_MOVE_NO_PERMISSIONS_RECEIVE".
Definition FILE_MOVE_FAILED : string := "FILE_MOVE_FAILED".
Definition FILE_MOVE_SUCCEEDED : string := "FILE_MOVE_SUCCEEDED".

(* ===================================================================== *)
(** ** The manager, its environment and the monad of its methods *)
(* ===================================================================== *)

(** [ContainersManagerConfig], the fields the manager reads. *)
Record ContainersManagerConfig : Type := mkConfig {
  defaultId : string;
  foregroundId : string;
  containersPath : string;
  proxyCallRules : list ProxyCallRule
}.

(** The manager object and what surrounds it.  [mConfig], [mContainers] and
    [mDetachOnExit] are the members of [ContainersManager]
    ([mProxyCallPolicy] is built from [mConfig.proxyCallRules] and never
    changes).  The rest is the process and the host, which no method of the
    manager changes but for the files.  [hostFiles] is the set of files on
    the host.  [runtimeFaults id op] tells whether the call [op] on the
    container under key [id] fails: the container runtime reports a failure
    by an exception.  [outsideServerException id] tells, for a
    [sendNotification] on the container under [id] that fails, whether the
    exception is a [SecurityContainersException] that is no
    [ServerException]: the source catches the first class around one
    [sendNotification] and the second around the other.  [fsAbsolute p base]
    is what [boost::filesystem::absolute(p, base).string()] returns in this
    process; it depends on the current directory, and Boost is not among the
    sources, so the model fixes nothing about it. *)
Record World : Type := mkWorld {
  mConfig : ContainersManagerConfig;
  mContainers : ContainerMap;
  mDetachOnExit : bool;
  hostFiles : list string;
  runtimeFaults : string -> ZoneOp -> bool;
  outsideServerException : string -> bool;
  fsAbsolute : string -> string -> string
}.

Definition withContainers (m : ContainerMap) (w : World) : World :=
  mkWorld (mConfig w) m (mDetachOnExit w) (hostFiles w) (runtimeFaults w)
    (outsideServerException w) (fsAbsolute w).

Definition withForegroundId (id : string) (w : World) : World :=
  mkWorld (mkConfig (defaultId (mConfig w)) id (containersPath (mConfig w))
             (proxyCallRules (mConfig w)))
    (mContainers w) (mDetachOnExit w) (hostFiles w) (runtimeFaults w)
    (outsideServerException w) (fsAbsolute w).

Definition withDetachOnExit (b : bool) (w : World) : World :=
  mkWorld (mConfig w) (mContainers w) b (hostFiles w) (runtimeFaults w)
    (outsideServerException w) (fsAbsolute w).

Definition withHostFiles (files : list string) (w : World) : World :=
  mkWorld (mConfig w) (mContainers w) (mDetachOnExit w) files
    (runtimeFaults w) (outsideServerException w) (fsAbsolute w).

(** What is put into a [dbus::MethodResultBuilder]. *)
Inductive MethodResult : Type :=
| ResultSet (value : GVariant)
| ResultSetVoid
| ResultSetError (name message : string).

Inductive LogLevel : Type := LogError | LogWarn.

Inductive Event : Type :=
| ZoneCall (id : string) (op : ZoneOp)
| HostProxyCallAsync (busName objectPath interface method : string)
                     (parameters : GVariant)
| HostSignalContainerDbusState (containerId dbusAddress : string)
| MoveFile (src dst : string)
| Reply (r : MethodResult)
| Log (level : LogLevel) (message : string).

(** Modelled from the spec: the exceptions (exception.hpp is not among the
    sources).  A failure of the container runtime is a typed error.  The
    source names two classes of it in its catch clauses: [ServerException]
    and [SecurityContainersException], the root class, of which a
    [ServerException] is one; the constructor [SecurityContainersException]
    stands for an exception of the root class that is no [ServerException].
    [OutOfRange] is the [std::out_of_range] of [std::map::at]. *)
Inductive Exn : Type :=
| OutOfRange
| ServerException (what : string)
| SecurityContainersException (what : string).

Inductive Outcome (A : Type) : Type :=
| Ret (a : A)
| Throw (e : Exn)
| Crash.

Arguments Ret {A} a.
Arguments Throw {A} e.
Arguments Crash {A}.

(** One run of a method: how it ended, the world it left and the events it
    produced, in order. *)
Record Run (A : Type) : Type := mkRun {
  outcome : Outcome A;
  final : World;
  trace : list Event
}.

Definition M (A : Type) : Type := World -> Run A.

Definition ret {A} (a : A) : M A := fun w => mkRun (Ret a) w [].

Definition bind {A B} (m : M A) (f : A -> M B) : M B := fun w =>
  let r := m w in
  match outcome r with
  | Ret a => let r' := f a (final r) in
             mkRun (outcome r') (final r') (trace r ++ trace r')
  | Throw e => mkRun (Throw e) (final r) (trace r)
  | Crash => mkRun Crash (final r) (trace r)
  end.

Declare Scope manager_scope.
Delimit Scope manager_scope with manager.

Notation "x <- m ;; k" := (bind m (fun x => k))
  (at level 61, m at next level, right associativity) : manager_scope.
Notation "m ;; k" := (bind m (fun _ => k))
  (at level 61, right associativity) : manager_scope.

Local Open Scope manager_scope.

Definition throw {A} (e : Exn) : M A := fun w => mkRun (Throw e) w [].
Definition crash {A} : M A := fun w => mkRun Crash w [].
Definition emit (e : Event) : M unit := fun w => mkRun (Ret tt) w [e].
Definition getWorld : M World := fun w => mkRun (Ret w) w [].
Definition putWorld (w' : World) : M unit := fun _ => mkRun (Ret tt) w' [].

(** [try { body } catch (E&) { handler }], where [caught] tells which
    exceptions the clause catches. *)
Definition tryCatch {A} (body : M A) (caught : Exn -> bool)
  (handler : Exn -> M A) : M A := fun w =>
  let r := body w in
  match outcome r with
  | Throw e =>
      if caught e then
        let r' := handler e (final r) in
        mkRun (outcome r') (final r') (trace r ++ trace r')
      else r
  | _ => r
  end.

(** [catch (ServerException&)]. *)
Definition isServerException (e : Exn) : bool :=
  match e with ServerException _ => true | _ => false end.

(** [catch (const SecurityContainersException&)]: the root class takes a
    [ServerException] too. *)
Definition isSecurityContainersException (e : Exn) : bool :=
  match e with
  | ServerException _ | SecurityContainersException _ => true
  | OutOfRange => false
  end.

Definition LOGE (message : string) : M unit := emit (Log LogError message).
Definition LOGW (message : string) : M unit := emit (Log LogWarn message).

Definition resultSet (value : GVariant) : M unit :=
  emit (Reply (ResultSet value)).
Definition resultSetVoid : M unit := emit (Reply ResultSetVoid).
Definition resultSetError (name message : string) : M unit :=
  emit (Reply (ResultSetError name message)).

(** A range-based [for] over a snapshot of the keys: no loop body of the
    manager inserts into or erases from the map. *)
Fixpoint forEach (ids : list string) (body : string -> M unit) : M unit :=
  match ids with
  | [] => ret tt
  | id :: rest => body id ;; forEach rest body
  end.

(** What a container operation throws when it fails: a [ServerException],
    the class the destructor catches around [stopAll]; and a notification
    that fails, either that or an exception of the root class that is no
    [ServerException], as the runtime has it. *)
Definition failure : Exn := ServerException "container operation failed".

Definition notificationFailure : Exn :=
  SecurityContainersException "notification failed".

Definition zoneFailure (w : World) (id : string) (op : ZoneOp) : Exn :=
  match op with
  | SendNotification _ _ _ =>
      if outsideServerException w id then notificationFailure else failure
  | _ => failure
  end.

(** Modelled from the spec: a call through the pointer stored under [id].
    The call is an event; the runtime either reports a failure ("failures
    raise a typed error") and leaves the zone as it was, or the zone changes
    as [applyOp] says.  A key without an entry is a null pointer. *)
Definition zoneCall (id : string) (op : ZoneOp) : M unit := fun w =>
  match mapFind id (mContainers w) with
  | None => mkRun Crash w []
  | Some _ =>
      if runtimeFaults w id op
      then mkRun (Throw (zoneFailure w id op)) w [ZoneCall id op]
      else mkRun (Ret tt)
             (withContainers (mapModify id (applyOp op) (mContainers w)) w)
             [ZoneCall id op]
  end.

(** Reading through the pointer stored under [id]. *)
Definition zoneGet {A} (id : string) (getter : Container -> A) : M A :=
  fun w =>
  match mapFind id (mContainers w) with
  | None => mkRun Crash w []
  | Some c => mkRun (Ret (getter c)) w []
  end.

(** [mContainers.at(id)]: the key stands for the reference into the map. *)
Definition mapAt (id : string) : M string := fun w =>
  match mapFind id (mContainers w) with
  | None => mkRun (Throw OutOfRange) w []
  | Some _ => mkRun (Ret id) w []
  end.

(* ===================================================================== *)
(** ** containers-manager.cpp *)
(* ===================================================================== *)

Fixpoint regexMatchVector (str : string) (v : list regex) : bool :=
  match v with
  | [] => false
  | toMatch :: rest =>
      if regex_match str toMatch then true else regexMatchVector str rest
  end.

(** The loop of the constructor over the containers created from the
    configured files, in the order of [mConfig.containerConfigs].
    [ContainerOperationException] is a [ServerException]. *)
Fixpoint insertContainers (created : list Container) (m : ContainerMap)
  : Exn + ContainerMap :=
  match created with
  | [] => inr m
  | c :: rest =>
      let id := getId c in
      if String.eqb id HOST_ID
      then inl (ServerException "Cannot use reserved container ID")
      else insertContainers rest (mapInsert id c m)
  end.

(** [ContainersManager::ContainersManager], after the configuration and the
    containers have been read from their files; [files], [faults],
    [outside] and [absolute] are the host and the process the manager is
    created in. *)
Definition ContainersManager (config : ContainersManagerConfig)
  (created : list Container) (files : list string)
  (faults : string -> ZoneOp -> bool) (outside : string -> bool)
  (absolute : string -> string -> string) : Exn + World :=
  match insertContainers created [] with
  | inl e => inl e
  | inr m =>
      match mapFind (defaultId config) m with
      | None =>
          inl (ServerException ("Provided default container ID "
                                ++ defaultId config ++ " is invalid."))
      | Some _ =>
          inr (mkWorld config m false files faults outside absolute)
      end
  end.

Definition focus (containerId : string) : M unit :=
  foregroundContainer <- mapAt containerId ;;
  w <- getWorld ;;
  forEach (keys (mContainers w)) (fun id => zoneCall id GoBackground) ;;
  id <- zoneGet foregroundContainer getId ;;
  w' <- getWorld ;;
  putWorld (withForegroundId id w') ;;
  zoneCall foregroundContainer GoForeground.

(** The loop of [startAll]; the result is [isForegroundFound]. *)
Fixpoint startAllLoop (ids : list string) (isForegroundFound : bool)
  : M bool :=
  match ids with
  | [] => ret isForegroundFound
  | id :: rest =>
      zoneCall id Start ;;
      w <- getWorld ;;
      if String.eqb id (foregroundId (mConfig w)) then
        zoneCall id GoForeground ;;
        startAllLoop rest true
      else startAllLoop rest isForegroundFound
  end.

Definition startAll : M unit :=
  w <- getWorld ;;
  isForegroundFound <- startAllLoop (keys (mContainers w)) false ;;
  if negb isForegroundFound then
    w' <- getWorld ;;
    match min_element (mContainers w') with
    | None => crash
    | Some (k, c) =>
        putWorld (withForegroundId (getId c) w') ;;
        zoneCall k GoForeground
    end
  else ret tt.

Definition stopAll : M unit :=
  w <- getWorld ;;
  forEach (keys (mContainers w)) (fun id => zoneCall id Stop).

(** [ContainersManager::~ContainersManager]. *)
Definition destroyContainersManager : M unit :=
  w <- getWorld ;;
  if negb (mDetachOnExit w) then
    tryCatch stopAll isServerException
      (fun _ => LOGE "Failed to stop all of the containers")
  else ret tt.

Fixpoint findRunningForeground (m : ContainerMap) (fgId : string) : string :=
  match m with
  | [] => ""
  | (k, c) :: rest =>
      if String.eqb k fgId && isRunning c then k
      else findRunningForeground rest fgId
  end.

Definition getRunningForegroundContainerId : M string :=
  w <- getWorld ;;
  ret (findRunningForeground (mContainers w) (foregroundId (mConfig w))).

(** The body of [switchingSequenceMonitorNotify] is one [LOGI] line. *)
Definition switchingSequenceMonitorNotify : M unit := ret tt.

Definition setContainersDetachOnExit : M unit :=
  w <- getWorld ;;
  putWorld (withDetachOnExit true w) ;;
  forEach (keys (mContainers w)) (fun id => zoneCall id SetDetachOnExit).

Definition isEmpty (s : string) : bool :=
  match s with EmptyString => true | _ => false end.

(** [mContainers[activeContainer]->sendNotification(...)]: [operator[]]
    puts a null pointer under a key that is not there, and the call goes
    through that pointer; this is the [Crash] of [zoneCall]. *)
Definition notifyActiveContainerHandler (caller application message : string)
  : M unit :=
  tryCatch
    (activeContainer <- getRunningForegroundContainerId ;;
     if negb (isEmpty activeContainer)
        && negb (String.eqb caller activeContainer)
     then zoneCall activeContainer
            (SendNotification caller application message)
     else ret tt)
    isSecurityContainersException
    (fun _ => LOGE ("Notification from " ++ caller ++ " hasn't been sent")).

Definition displayOffHandler (caller : string) : M unit :=
  activeContainerName <- getRunningForegroundContainerId ;;
  w <- getWorld ;;
  match mapFind activeContainerName (mContainers w) with
  | Some activeContainer =>
      if isSwitchToDefaultAfterTimeoutAllowed activeContainer
      then focus (defaultId (mConfig w))
      else ret tt
  | None => ret tt
  end.

(** Modelled from the spec: [utils::moveFile] (utils/fs.cpp is not among
    the sources).  The move is atomic: it succeeds when the source file is
    there, and the file is then at the destination and no longer at the
    source; a failed move changes nothing and returns false. *)
Definition moveFile (src dst : string) : M bool := fun w =>
  if existsb (String.eqb src) (hostFiles w)
  then mkRun (Ret true)
         (withHostFiles
            (dst :: filter (fun f => negb (String.eqb f src)) (hostFiles w)) w)
         [MoveFile src dst]
  else mkRun (Ret false) w [MoveFile src dst].

Definition handleContainerMoveFileRequest
  (srcContainerId dstContainerId path : string) : M unit :=
  w <- getWorld ;;
  match mapFind srcContainerId (mContainers w) with
  | None => LOGE ("Source container '" ++ srcContainerId ++ "' not found")
  | Some srcContainer =>
  match mapFind dstContainerId (mContainers w) with
  | None =>
      LOGE ("Destination container '" ++ dstContainerId ++ "' not found") ;;
      resultSet (g_variant_new_s FILE_MOVE_DESTINATION_NOT_FOUND)
  | Some dstContanier =>
      if String.eqb srcContainerId dstContainerId then
        LOGE "Cannot send a file to yourself" ;;
        resultSet (g_variant_new_s FILE_MOVE_WRONG_DESTINATION)
      else if negb (regexMatchVector path (getPermittedToSend srcContainer))
      then
        LOGE ("Source container has no permissions to send the file: "
              ++ path) ;;
        resultSet (g_variant_new_s FILE_MOVE_NO_PERMISSIONS_SEND)
      else if negb (regexMatchVector path (getPermittedToRecv dstContanier))
      then
        LOGE ("Destination container has no permissions to receive the file: "
              ++ path) ;;
        resultSet (g_variant_new_s FILE_MOVE_NO_PERMISSIONS_RECEIVE)
      else
        let srcPath :=
          fsAbsolute w srcContainerId (containersPath (mConfig w)) ++ path in
        let dstPath :=
          fsAbsolute w dstContainerId (containersPath (mConfig w)) ++ path in
        moved <- moveFile srcPath dstPath ;;
        if negb moved then
          LOGE ("Failed to move the file: " ++ path) ;;
          resultSet (g_variant_new_s FILE_MOVE_FAILED)
        else
          resultSet (g_variant_new_s FILE_MOVE_SUCCEEDED) ;;
          tryCatch
            (zoneCall dstContainerId
               (SendNotification srcContainerId path FILE_MOVE_SUCCEEDED))
            isServerException
            (fun _ => LOGE ("Notification to '" ++ dstContainerId
                            ++ "' has not been sent"))
  end
  end.

(** What [dbus::AsyncMethodCallResult::get] gives: the value of the target,
    or a [dbus::DbusException] with its [what()]. *)
Inductive AsyncMethodCallResult : Type :=
| AsyncValue (targetResult : GVariant)
| AsyncException (what : string).

(** The lambda [asyncResultCallback] of [handleProxyCall]; it runs when the
    target has answered. *)
Definition asyncResultCallback (asyncMethodCallResult : AsyncMethodCallResult)
  : M unit :=
  match asyncMethodCallResult with
  | AsyncValue targetResult => resultSet (g_variant_new_v targetResult)
  | AsyncException what => resultSetError ERROR_FORWARDED what
  end.

Definition proxyCallLine (caller target targetBusName targetObjectPath
  targetInterface targetMethod : string) : string :=
  caller ++ " -> " ++ target ++ "; " ++ targetBusName ++ "; "
  ++ targetObjectPath ++ "; " ++ targetInterface ++ "; " ++ targetMethod.

Definition handleProxyCall (caller target targetBusName targetObjectPath
  targetInterface targetMethod : string) (parameters : GVariant) : M unit :=
  w <- getWorld ;;
  if negb (isProxyCallAllowed (proxyCallRules (mConfig w)) caller target
             targetBusName targetObjectPath targetInterface targetMethod)
  then
    LOGW ("Forbidden proxy call; "
          ++ proxyCallLine caller target targetBusName targetObjectPath
               targetInterface targetMethod) ;;
    resultSetError ERROR_FORBIDDEN "Proxy call forbidden"
  else if String.eqb target HOST_ID then
    emit (HostProxyCallAsync targetBusName targetObjectPath targetInterface
            targetMethod parameters)
  else
    match mapFind target (mContainers w) with
    | None =>
        LOGE ("Target container '" ++ target ++ "' not found") ;;
        resultSetError ERROR_UNKNOWN_ID "Unknown proxy call target"
    | Some _ =>
        zoneCall target
          (ProxyCallAsync targetBusName targetObjectPath targetInterface
             targetMethod parameters)
    end.

Definition handleGetContainerDbuses : M unit :=
  w <- getWorld ;;
  resultSet
    (GTuple [GArray (map (fun kc => GDictEntry (GString (fst kc))
                                      (GString (getDbusAddress (snd kc))))
                       (mContainers w))]).

Definition handleDbusStateChanged (containerId dbusAddress : string)
  : M unit :=
  emit (HostSignalContainerDbusState containerId dbusAddress).

Definition handleGetContainerIdsCall : M unit :=
  w <- getWorld ;;
  resultSet (GTuple [GArray (map (fun kc => GString (fst kc))
                               (mContainers w))]).

(** [mContainers[mConfig.foregroundId]->isRunning()]: [operator[]] puts a
    null pointer under a key that is not there and [->] dereferences it;
    this is the [Crash] of [zoneGet]. *)
Definition handleGetActiveContainerIdCall : M unit :=
  w <- getWorld ;;
  running <- zoneGet (foregroundId (mConfig w)) isRunning ;;
  if running
  then resultSet (g_variant_new_s (foregroundId (mConfig w)))
  else resultSet (g_variant_new_s "").

Definition handleSetActiveContainerCall (id : string) : M unit :=
  w <- getWorld ;;
  match mapFind id (mContainers w) with
  | None =>
      LOGE ("No container with id=" ++ id) ;;
      resultSetError ERROR_UNKNOWN_ID "No such container id"
  | Some container =>
      if isStopped container then
        LOGE "Could not activate a stopped container" ;;
        resultSetError ERROR_CONTAINER_STOPPED
          "Could not activate a stopped container"
      else
        focus id ;;
        resultSetVoid
  end.

Unset Implicit Arguments.

(* ===================================================================== *)
(** ** Vocabulary of the properties *)
(* ===================================================================== *)

(** *** Events and replies *)

(** An event that hands a proxy call on to a target. *)
Definition isForwarding (e : Event) : bool :=
  match e with
  | HostProxyCallAsync _ _ _ _ _ => true
  | ZoneCall _ (ProxyCallAsync _ _ _ _ _) => true
  | _ => false
  end.

Definition isZoneCall (e : Event) : bool :=
  match e with ZoneCall _ _ => true | _ => false end.

Definition isMoveFile (e : Event) : bool :=
  match e with MoveFile _ _ => true | _ => false end.

Definition isStart (e : Event) : bool :=
  match e with ZoneCall _ Start => true | _ => false end.

Definition isGoForeground (e : Event) : bool :=
  match e with ZoneCall _ GoForeground => true | _ => false end.

Definition goBackgroundEvent (id : string) : Event := ZoneCall id GoBackground.

Definition stopEvent (id : string) : Event := ZoneCall id Stop.

(** What a handler put into its result builder, in order. *)
Fixpoint replies (t : list Event) : list MethodResult :=
  match t with
  | [] => []
  | Reply r :: rest => r :: replies rest
  | _ :: rest => replies rest
  end.

Definition fileMoveReply (code : string) : MethodResult :=
  ResultSet (g_variant_new_s code).

(** The four codes of a request that is refused before the move. *)
Definition refusalCodes : list string :=
  [ FILE_MOVE_DESTINATION_NOT_FOUND; FILE_MOVE_WRONG_DESTINATION;
    FILE_MOVE_NO_PERMISSIONS_SEND; FILE_MOVE_NO_PERMISSIONS_RECEIVE ].

(** The events of the loop of [startAll]: every zone is started, and the
    zone under the configured foreground id is sent to the foreground right
    after its start. *)
Definition startEvents (fg : string) (ids : list string) : list Event :=
  flat_map (fun id => ZoneCall id Start
                      :: (if String.eqb id fg
                          then [ZoneCall id GoForeground] else []))
    ids.

(** *** Loops, and the state of the containers along a run *)

(** The ids the loop [for id in ids: id->op()] reaches: all of them up to
    and including the first one whose call fails. *)
Fixpoint attempted (faults : string -> ZoneOp -> bool) (op : ZoneOp)
  (ids : list string) : list string :=
  match ids with
  | [] => []
  | id :: rest =>
      if faults id op then [id] else id :: attempted faults op rest
  end.

(** The ids whose call has succeeded: those before the first failure. *)
Fixpoint completed (faults : string -> ZoneOp -> bool) (op : ZoneOp)
  (ids : list string) : list string :=
  match ids with
  | [] => []
  | id :: rest =>
      if faults id op then [] else id :: completed faults op rest
  end.

Definition anyFault (faults : string -> ZoneOp -> bool) (op : ZoneOp)
  (ids : list string) : bool :=
  existsb (fun id => faults id op) ids.

Fixpoint modifyAll (ids : list string) (f : Container -> Container)
  (m : ContainerMap) : ContainerMap :=
  match ids with
  | [] => m
  | id :: rest => modifyAll rest f (mapModify id f m)
  end.

(** The effect of one event on the containers, and of a list of events in
    order: the state of the containers at each moment of a run is the replay
    of the events so far. *)
Definition applyEvent (faults : string -> ZoneOp -> bool) (e : Event)
  (m : ContainerMap) : ContainerMap :=
  match e with
  | ZoneCall id op => if faults id op then m else mapModify id (applyOp op) m
  | _ => m
  end.

Fixpoint replay (faults : string -> ZoneOp -> bool) (t : list Event)
  (m : ContainerMap) : ContainerMap :=
  match t with
  | [] => m
  | e :: rest => replay faults rest (applyEvent faults e m)
  end.

(** *** States of the zones *)

(** A zone that is running and holds the foreground. *)
Definition holdsForeground (c : Container) : bool :=
  foreground c && isRunning c.

Definition foregroundCount (m : ContainerMap) : nat :=
  List.length (filter (fun kc => holdsForeground (snd kc)) m).

Definition atMostOneForeground (m : ContainerMap) : Prop :=
  (foregroundCount m <= 1)%nat.

Definition allBackground (m : ContainerMap) : Prop :=
  forall k c, In (k, c) m -> foreground c = false.

(** There is a zone under the foreground id, and it is running. *)
Definition runningForegroundExists (w : World) : Prop :=
  exists c, In (foregroundId (mConfig w), c) (mContainers w)
            /\ isRunning c = true.

(** A zone at rest: stopped or running. *)
Definition settled (c : Container) : Prop :=
  state c = STOPPED \/ state c = RUNNING.

Definition allStopped (m : ContainerMap) : Prop :=
  forall k c, In (k, c) m -> state c = STOPPED.

(** *** The map as the constructor leaves it *)

Definition keyLt (a b : string) : Prop := String.ltb a b = true.

(** What [min_element] looks at, and what no call on a container changes. *)
Definition summary (kc : string * Container) : string * string * Z :=
  (fst kc, getId (snd kc), getPrivilege (snd kc)).

(** The invariants of a manager: the map is ordered by key, every zone is
    under its own id, ["host"] is not the id of a zone, and the default zone
    is there. *)
Record wellFormed (w : World) : Prop := mkWellFormed {
  wfOrdered : StronglySorted keyLt (keys (mContainers w));
  wfIds : forall k c, In (k, c) (mContainers w) -> getId c = k;
  wfHost : ~ In HOST_ID (keys (mContainers w));
  wfDefault : In (defaultId (mConfig w)) (keys (mContainers w))
}.

(** What the invariants of a manager depend on, and the methods that
    leave it as it is. *)
Definition shape (w : World) : list (string * string * Z) * string :=
  (map summary (mContainers w), defaultId (mConfig w)).

Definition keepsShape {A : Type} (m : M A) : Prop :=
  forall w, shape (final (m w)) = shape w.

(** *** Further vocabulary *)

(** The method [m] leaves the part [proj] of the world as it finds it,
    however it ends. *)
Definition preserves {T A : Type} (proj : World -> T) (m : M A) : Prop :=
  forall w, proj (final (m w)) = proj w.

(** What no call on a zone can change: the configuration, the files of the
    host and the detach flag; and the part of it that choosing a foreground
    zone cannot change either. *)
Definition managerFrame (w : World)
  : ContainersManagerConfig * list string * bool :=
  (mConfig w, hostFiles w, mDetachOnExit w).

Definition settingsFrame (w : World)
  : string * string * list ProxyCallRule * list string * bool :=
  (defaultId (mConfig w), containersPath (mConfig w),
   proxyCallRules (mConfig w), hostFiles w, mDetachOnExit w).

(** The foreground id is the key of a zone. *)
Definition fgValid (w : World) : Prop :=
  In (foregroundId (mConfig w)) (keys (mContainers w)).

(** The first of the created containers with the id [id]. *)
Definition firstWithId (id : string) (created : list Container)
  : option Container :=
  find (fun c => String.eqb id (getId c)) created.

(** The containers after [focus(id)] has gone through: the zone under
    [id] has the foreground flag, no other zone has it, and nothing else of
    any zone has changed. *)
Definition focused (id : string) (m : ContainerMap) : ContainerMap :=
  map (fun kc => (fst kc, setForeground (String.eqb (fst kc) id) (snd kc))) m.

(** The zone under [id] holds the foreground flag and no other zone does. *)
Definition onlyForeground (id : string) (m : ContainerMap) : Prop :=
  forall k c, In (k, c) m -> foreground c = String.eqb k id.

(** The ids a listing of [GetContainerIds] names, and the ids of the
    entries of a dictionary of [GetContainerDbuses]. *)
Definition listedIds (v : GVariant) : list string :=
  match v with
  | GTuple [GArray items] =>
      flat_map (fun item =>
                  match item with
                  | GString id => [id]
                  | GDictEntry (GString id) _ => [id]
                  | _ => []
                  end) items
  | _ => []
  end.

(** The call of the event [e] fails. *)
Definition eventFails (faults : string -> ZoneOp -> bool) (e : Event) : bool :=
  match e with ZoneCall id op => faults id op | _ => false end.

(** Of the calls [t] a method is to make one after the other with no catch
    clause around them, those it makes: all of them up to and including the
    first that fails. *)
Fixpoint upToFailure (faults : string -> ZoneOp -> bool) (t : list Event)
  : list Event :=
  match t with
  | [] => []
  | e :: rest =>
      if eventFails faults e then [e] else e :: upToFailure faults rest
  end.

Definition isStopCall (e : Event) : bool :=
  match e with ZoneCall _ Stop => true | _ => false end.

(** Only the zone under the foreground id can hold the foreground flag. *)
Definition flagsFollowId (w : World) : Prop :=
  forall k c, In (k, c) (mContainers w) -> foreground c = true ->
              k = foregroundId (mConfig w).

(** The method [m] keeps the invariant [I], however it ends. *)
Definition keeps {A : Type} (I : World -> Prop) (m : M A) : Prop :=
  forall w, I w -> I (final (m w)).

(* ===================================================================== *)
(** ** Sample configurations *)
(* ===================================================================== *)

Module Samples.

(** The expression [/tmp/.*]. *)
Definition tmpFiles : regex := Cat (Lit "/tmp/") (Star Any).

Definition zone (id : string) (privilege : Z) (st : State) (fg : bool)
  : Container :=
  mkContainer id privilege [tmpFiles] [tmpFiles] false "" st fg false.

Definition noFaults : string -> ZoneOp -> bool := fun _ _ => false.

(** Every notification that fails throws a [ServerException]. *)
Definition serverFaults : string -> bool := fun _ => false.

Fixpoint endsWithSlash (s : string) : bool :=
  match s with
  | EmptyString => false
  | String c EmptyString => Ascii.eqb c "/"%char
  | String _ rest => endsWithSlash rest
  end.

(** The paths of the scenarios: under an absolute [base], a [p] that
    begins with a slash is returned as it is and any other [p] is appended
    to [base] with one separator between them. *)
Definition posixAbsolute (p base : string) : string :=
  match p with
  | EmptyString => base
  | String c _ =>
      if Ascii.eqb c "/"%char then p
      else if endsWithSlash base then base ++ p
      else base ++ "/" ++ p
  end.

(** A manager in a process where a notification that fails throws a
    [ServerException] and paths are made absolute as above. *)
Definition world (config : ContainersManagerConfig) (m : ContainerMap)
  (detach : bool) (files : list string) (faults : string -> ZoneOp -> bool)
  : World :=
  mkWorld config m detach files faults serverFaults posixAbsolute.

(** The call [op] fails on the container [id], every other call succeeds. *)
Definition faultAt (id : string) (op : ZoneOp -> bool)
  : string -> ZoneOp -> bool :=
  fun k o => String.eqb k id && op o.

Definition isStop (op : ZoneOp) : bool :=
  match op with Stop => true | _ => false end.

Definition isStartOp (op : ZoneOp) : bool :=
  match op with Start => true | _ => false end.

Definition isSendNotification (op : ZoneOp) : bool :=
  match op with SendNotification _ _ _ => true | _ => false end.

(** [z1] may call anything on the host and on [z2]; every other call is
    denied. *)
Definition rules : list ProxyCallRule :=
  [ mkRule "z1" "host" "" "" "" "" ALLOW;
    mkRule "z1" "z2" "org.*" "" "" "" ALLOW;
    mkRule "*" "*" "*" "*" "*" "*" DENY ].

Definition config (fg : string) : ContainersManagerConfig :=
  mkConfig "z1" fg "/var/zones" rules.

(** Two zones: [z1] is running in the foreground, [z2] is in state [st2]. *)
Definition twoZones (st2 : State) (faults : string -> ZoneOp -> bool)
  : World :=
  world (config "z1")
    [("z1", zone "z1" 1 RUNNING true); ("z2", zone "z2" 2 st2 false)]
    false ["/var/zones/z1/tmp/a"] faults.

(** The zones of the foreground scenario: no foreground id is configured,
    [zA] has privilege 5, [zB] privilege 1 and [zC] privilege 3; nothing has
    been started yet. *)
Definition threeZones : World :=
  world (mkConfig "zA" "" "/var/zones" [])
    [("zA", zone "zA" 5 STOPPED false);
     ("zB", zone "zB" 1 STOPPED false);
     ("zC", zone "zC" 3 STOPPED false)]
    false [] noFaults.

End Samples.

(* ===================================================================== *)
(** ** Proof steps *)
(* ===================================================================== *)

(** [freeze r as E] turns the local definition [r := body] into a variable
    [r] with the equation [E : r = body], so that the body can be rewritten
    in one place. *)
Tactic Notation "freeze" ident(r) "as" ident(E) :=
  let body := eval unfold r in r in
  assert (E : r = body) by reflexivity;
  clearbody r.

(* ===================================================================== *)
(** ** Facts about the matchers *)
(* ===================================================================== *)

Module RegexFacts.

Lemma append_empty (s1 s2 : string) :
  (s1 ++ s2)%string = "" -> s1 = "" /\ s2 = "".
Proof.
  destruct s1; simpl; intros H; [auto | discriminate].
Qed.

Lemma nullable_sound (r : regex) : nullable r = true -> matches r "".
Proof.
  induction r; simpl; intros H; try discriminate.
  - constructor.
  - apply andb_true_iff in H as [H1 H2].
    change "" with ("" ++ "")%string. constructor; auto.
  - apply orb_true_iff in H as [H | H].
    + apply MAltL; auto.
    + apply MAltR; auto.
  - constructor.
Qed.

Lemma nullable_complete (r : regex) (s : string) :
  matches r s -> s = "" -> nullable r = true.
Proof.
  induction 1; simpl; intros E; try discriminate; auto.
  - apply append_empty in E as [E1 E2].
    rewrite IHmatches1, IHmatches2; auto.
  - rewrite IHmatches; auto.
  - rewrite IHmatches; auto using orb_true_r.
Qed.

Lemma nullable_spec (r : regex) : nullable r = true <-> matches r "".
Proof.
  split; [apply nullable_sound | intros H; eapply nullable_complete; eauto].
Qed.

Lemma deriv_sound (c : ascii) (r : regex) :
  forall s, matches (deriv c r) s -> matches r (String c s).
Proof.
  induction r; simpl; intros s H.
  - inversion H.
  - inversion H.
  - destruct (Ascii.eqb c a) eqn:E.
    + apply Ascii.eqb_eq in E; subst. inversion H; subst. constructor.
    + inversion H.
  - inversion H; subst. constructor.
  - destruct (nullable r1) eqn:N.
    + inversion H; subst.
      * match goal with Hc : matches (Cat _ _) _ |- _ => inversion Hc; subst end.
        change (String c (s1 ++ s2)) with (String c s1 ++ s2)%string.
        constructor; auto.
      * change (String c s) with ("" ++ String c s)%string.
        constructor; auto using nullable_sound.
    + inversion H; subst.
      change (String c (s1 ++ s2)) with (String c s1 ++ s2)%string.
      constructor; auto.
  - inversion H; subst.
    + apply MAltL; auto.
    + apply MAltR; auto.
  - inversion H; subst.
    change (String c (s1 ++ s2)) with (String c s1 ++ s2)%string.
    constructor; auto.
Qed.

Lemma deriv_complete (r : regex) (s0 : string) :
  matches r s0 ->
  forall c t, s0 = String c t -> matches (deriv c r) t.
Proof.
  induction 1; intros c0 t E; simpl.
  - discriminate.
  - inversion E; subst. rewrite Ascii.eqb_refl. constructor.
  - inversion E; subst. constructor.
  - destruct s1 as [| c1 s1'].
    + simpl in E. subst s2.
      rewrite (nullable_complete _ _ H eq_refl).
      apply MAltR. eapply IHmatches2; eauto.
    + simpl in E. inversion E; subst.
      destruct (nullable r1).
      * apply MAltL. constructor; auto.
      * constructor; auto.
  - apply MAltL. eauto.
  - apply MAltR. eauto.
  - discriminate.
  - simpl in E. inversion E; subst.
    constructor; auto.
Qed.

Lemma deriv_spec (c : ascii) (r : regex) (s : string) :
  matches (deriv c r) s <-> matches r (String c s).
Proof.
  split; [apply deriv_sound | intros H; eapply deriv_complete; eauto].
Qed.

(** [regex_match] accepts exactly the strings the expression denotes as a
    whole. *)
Theorem regex_match_spec (str : string) :
  forall e, regex_match str e = true <-> matches e str.
Proof.
  induction str as [| c rest IH]; intros e; simpl.
  - apply nullable_spec.
  - rewrite IH. apply deriv_spec.
Qed.

End RegexFacts.

Lemma regexMatchVector_true (str : string) (v : list regex) :
  regexMatchVector str v = true <->
  exists toMatch, In toMatch v /\ regex_match str toMatch = true.
Proof.
  induction v as [| e v IH]; simpl.
  - split; [discriminate | intros [? [[] _]]].
  - destruct (regex_match str e) eqn:E.
    + split; [intros _; exists e; auto | auto].
    + rewrite IH. split.
      * intros [x [Hin Hx]]. exists x; auto.
      * intros [x [[-> | Hin] Hx]]; [congruence | exists x; auto].
Qed.

Lemma regexMatchVector_false (str : string) (v : list regex) :
  regexMatchVector str v = false <->
  forall toMatch, In toMatch v -> ~ matches toMatch str.
Proof.
  split.
  - intros H e Hin Hm.
    apply RegexFacts.regex_match_spec in Hm.
    assert (regexMatchVector str v = true)
      by (apply regexMatchVector_true; eauto).
    congruence.
  - intros H. destruct (regexMatchVector str v) eqn:E; auto.
    apply regexMatchVector_true in E as [e [Hin Hm]].
    apply RegexFacts.regex_match_spec in Hm. exfalso; eapply H; eauto.
Qed.

(* ===================================================================== *)
(** ** Facts about the map of containers *)
(* ===================================================================== *)

Lemma mapFind_In_keys (id : string) (m : ContainerMap) :
  mapFind id m <> None <-> In id (keys m).
Proof.
  induction m as [| [k c] m IH]; simpl.
  - split; [congruence | tauto].
  - destruct (String.eqb id k) eqn:E.
    + apply String.eqb_eq in E; subst. split; [auto | intros _; discriminate].
    + apply String.eqb_neq in E. rewrite IH.
      split; [auto | intros [H | H]; [congruence | auto]].
Qed.

Lemma mapFind_Some_In_keys (id : string) (m : ContainerMap) (c : Container) :
  mapFind id m = Some c -> In id (keys m).
Proof.
  intros H. apply mapFind_In_keys. congruence.
Qed.

Lemma mapFind_None_not_In (id : string) (m : ContainerMap) :
  mapFind id m = None <-> ~ In id (keys m).
Proof.
  rewrite <- mapFind_In_keys. destruct (mapFind id m); split; intros H.
  - discriminate.
  - exfalso. apply H. discriminate.
  - intros N. apply N. reflexivity.
  - reflexivity.
Qed.

Lemma keys_mapModify (id : string) (f : Container -> Container)
  (m : ContainerMap) : keys (mapModify id f m) = keys m.
Proof.
  induction m as [| [k c] m IH]; simpl; auto.
  destruct (String.eqb id k); simpl; [auto | f_equal; auto].
Qed.

Lemma mapFind_mapModify_same (id : string) (f : Container -> Container)
  (m : ContainerMap) :
  mapFind id (mapModify id f m) = option_map f (mapFind id m).
Proof.
  induction m as [| [k c] m IH]; simpl; auto.
  destruct (String.eqb id k) eqn:E; simpl; rewrite E; auto.
Qed.

Lemma mapFind_mapModify_other (id id' : string) (f : Container -> Container)
  (m : ContainerMap) :
  id <> id' -> mapFind id' (mapModify id f m) = mapFind id' m.
Proof.
  intros N. induction m as [| [k c] m IH]; simpl; auto.
  destruct (String.eqb id k) eqn:E; simpl.
  - apply String.eqb_eq in E; subst.
    destruct (String.eqb id' k) eqn:E'; auto.
    apply String.eqb_eq in E'; congruence.
  - destruct (String.eqb id' k); auto.
Qed.

(* ===================================================================== *)
(** ** Proxy calls: the policy decides, a denied call is not forwarded *)
(* ===================================================================== *)

Lemma isProxyCallAllowed_first_match (pre post : list ProxyCallRule)
  (rule : ProxyCallRule) (caller target bus path iface method : string) :
  (forall x, In x pre ->
     ruleMatches x caller target bus path iface method = false) ->
  ruleMatches rule caller target bus path iface method = true ->
  isProxyCallAllowed (pre ++ rule :: post)%list caller target bus path iface method
  = match ruleEffect rule with ALLOW => true | DENY => false end.
Proof.
  intros Hpre Hrule. induction pre as [| x pre IH]; simpl.
  - rewrite Hrule. reflexivity.
  - rewrite (Hpre x) by (left; reflexivity).
    apply IH. intros y Hy. apply Hpre. right; assumption.
Qed.

Lemma isProxyCallAllowed_no_match (rules : list ProxyCallRule)
  (caller target bus path iface method : string) :
  (forall x, In x rules ->
     ruleMatches x caller target bus path iface method = false) ->
  isProxyCallAllowed rules caller target bus path iface method = false.
Proof.
  induction rules as [| x rules IH]; simpl; intros H; auto.
  rewrite (H x) by (left; reflexivity).
  apply IH. intros y Hy. apply H. right; assumption.
Qed.

(** C1.  The decision on a proxy call [(caller, target, bus, path, iface,
    method)] is the effect of the first rule of the ordered rule list that
    matches it, and deny when no rule matches.  When the decision is deny,
    [handleProxyCall] returns normally, leaves the manager as it was, logs
    one warning and replies [ERROR_FORBIDDEN]; none of its events forwards
    the call.  A call that is allowed never gets the [ERROR_FORBIDDEN]
    reply. *)
Theorem C1_policy_first_match_and_forbidden
  (w : World) (caller target bus path iface method : string)
  (parameters : GVariant) :
  let rules := proxyCallRules (mConfig w) in
  let allowed :=
    isProxyCallAllowed rules caller target bus path iface method in
  let r := handleProxyCall caller target bus path iface method parameters w in
  (forall pre rule post,
     rules = (pre ++ rule :: post)%list ->
     (forall x, In x pre ->
        ruleMatches x caller target bus path iface method = false) ->
     ruleMatches rule caller target bus path iface method = true ->
     allowed = match ruleEffect rule with ALLOW => true | DENY => false end)
  /\ ((forall x, In x rules ->
         ruleMatches x caller target bus path iface method = false) ->
      allowed = false)
  /\ (allowed = false ->
      outcome r = Ret tt /\ final r = w
      /\ trace r =
         [Log LogWarn ("Forbidden proxy call; "
                       ++ proxyCallLine caller target bus path iface method);
          Reply (ResultSetError ERROR_FORBIDDEN "Proxy call forbidden")]
      /\ forall e, In e (trace r) -> isForwarding e = false)
  /\ (allowed = true ->
      forall message,
        ~ In (Reply (ResultSetError ERROR_FORBIDDEN message)) (trace r)).
Proof.
  intros rules allowed r. repeat split.
  - intros pre rule post E Hpre Hrule. subst allowed. rewrite E.
    apply isProxyCallAllowed_first_match; assumption.
  - intros H. apply isProxyCallAllowed_no_match; assumption.
  - subst r. unfold handleProxyCall, bind; simpl.
    fold rules. fold allowed. rewrite H. reflexivity.
  - subst r. unfold handleProxyCall, bind; simpl.
    fold rules. fold allowed. rewrite H. reflexivity.
  - subst r. unfold handleProxyCall, bind; simpl.
    fold rules. fold allowed. rewrite H. reflexivity.
  - subst r. unfold handleProxyCall, bind; simpl.
    fold rules. fold allowed. rewrite H. simpl.
    intros e [<- | [<- | []]]; reflexivity.
  - intros H message. subst r. unfold handleProxyCall, bind; simpl.
    fold rules. fold allowed. rewrite H. simpl.
    destruct (String.eqb target HOST_ID); simpl.
    + intros [E | []]; discriminate.
    + destruct (mapFind target (mContainers w)) eqn:F; simpl.
      * unfold zoneCall. rewrite F.
        destruct (runtimeFaults w target _); simpl;
          intros [E | []]; discriminate.
      * intros [E | [E | []]]; [discriminate | inversion E].
Qed.

(** [z2] calls the host: the first rule that matches is the last one, its
    effect is deny, and the only reply is [ERROR_FORBIDDEN]. *)
Lemma C1_policy_first_match_and_forbidden_witness :
  trace (handleProxyCall "z2" "host" "org.foo" "/" "org.foo" "Ping"
           (GTuple []) (Samples.twoZones RUNNING Samples.noFaults))
  = [Log LogWarn ("Forbidden proxy call; "
                  ++ proxyCallLine "z2" "host" "org.foo" "/" "org.foo" "Ping");
     Reply (ResultSetError ERROR_FORBIDDEN "Proxy call forbidden")].
Proof.
  pose proof (C1_policy_first_match_and_forbidden
                (Samples.twoZones RUNNING Samples.noFaults)
                "z2" "host" "org.foo" "/" "org.foo" "Ping" (GTuple []))
    as (Hfirst & _ & Hdeny & _).
  apply Hdeny.
  apply (Hfirst [mkRule "z1" "host" "" "" "" "" ALLOW;
                 mkRule "z1" "z2" "org.*" "" "" "" ALLOW]
           (mkRule "*" "*" "*" "*" "*" "*" DENY) []).
  - reflexivity.
  - intros x [<- | [<- | []]]; reflexivity.
  - reflexivity.
Defined.

(* ===================================================================== *)
(** ** Proxy calls: where an allowed call goes *)
(* ===================================================================== *)

(** C2 as stated does not hold.  [z1] may call [z2], which is in the
    map but stopped: C2 has the reply [ERROR_UNKNOWN_ID] for every
    target that is not a running zone, while [handleProxyCall] hands the call
    to the container object and replies nothing. *)
Lemma C2_stopped_target_is_not_unknown :
  let w := Samples.twoZones STOPPED Samples.noFaults in
  let r := handleProxyCall "z1" "z2" "org.foo" "/" "org.foo" "Ping"
             (GTuple []) w in
  isProxyCallAllowed (proxyCallRules (mConfig w))
    "z1" "z2" "org.foo" "/" "org.foo" "Ping" = true
  /\ "z2" <> HOST_ID
  /\ option_map isRunning (mapFind "z2" (mContainers w)) = Some false
  /\ trace r = [ZoneCall "z2" (ProxyCallAsync "org.foo" "/" "org.foo" "Ping"
                                 (GTuple []))]
  /\ ~ (exists message,
          In (Reply (ResultSetError ERROR_UNKNOWN_ID message)) (trace r)).
Proof.
  repeat split.
  - discriminate.
  - intros [message [H | []]]. discriminate.
Qed.

(** C2, amended.  For every allowed proxy call: if the target is ["host"]
    the call is forwarded on the host connection; else if the map of zones
    contains the target, the call is handed to that zone's connection,
    whether the zone is running or not, and the manager replies nothing
    itself; else, and only then, the reply is [ERROR_UNKNOWN_ID].  When the
    target has answered, its value is passed on, and an error of the target
    is passed on as [ERROR_FORWARDED] with the reason of the target. *)
Theorem C2_forwarding
  (w : World) (caller target bus path iface method : string)
  (parameters : GVariant)
  (Hallowed : isProxyCallAllowed (proxyCallRules (mConfig w))
                caller target bus path iface method = true) :
  let r := handleProxyCall caller target bus path iface method parameters w in
  (target = HOST_ID ->
     outcome r = Ret tt /\ final r = w
     /\ trace r = [HostProxyCallAsync bus path iface method parameters])
  /\ (target <> HOST_ID -> In target (keys (mContainers w)) ->
      trace r = [ZoneCall target
                   (ProxyCallAsync bus path iface method parameters)])
  /\ (target <> HOST_ID -> ~ In target (keys (mContainers w)) ->
      outcome r = Ret tt /\ final r = w
      /\ trace r =
         [Log LogError ("Target container '" ++ target ++ "' not found");
          Reply (ResultSetError ERROR_UNKNOWN_ID
                   "Unknown proxy call target")])
  /\ ((exists message,
         In (Reply (ResultSetError ERROR_UNKNOWN_ID message)) (trace r))
      <-> target <> HOST_ID /\ ~ In target (keys (mContainers w)))
  /\ (forall what w',
        let r' := asyncResultCallback (AsyncException what) w' in
        outcome r' = Ret tt /\ final r' = w'
        /\ trace r' = [Reply (ResultSetError ERROR_FORWARDED what)])
  /\ (forall targetResult w',
        trace (asyncResultCallback (AsyncValue targetResult) w')
        = [Reply (ResultSet (g_variant_new_v targetResult))]).
Proof.
  intros r.
  assert (Hhost : target = HOST_ID ->
            r = mkRun (Ret tt) w
                  [HostProxyCallAsync bus path iface method parameters]).
  { intros ->. subst r. unfold handleProxyCall, bind; simpl.
    simpl in Hallowed. rewrite Hallowed. reflexivity. }
  assert (Hzone : target <> HOST_ID -> In target (keys (mContainers w)) ->
            trace r = [ZoneCall target
                         (ProxyCallAsync bus path iface method parameters)]).
  { intros N Hin. subst r. unfold handleProxyCall, bind; simpl.
    rewrite Hallowed; simpl.
    apply String.eqb_neq in N. rewrite N; simpl.
    apply mapFind_In_keys in Hin.
    destruct (mapFind target (mContainers w)) eqn:F; [| congruence].
    simpl. unfold zoneCall. rewrite F.
    destruct (runtimeFaults w target _); reflexivity. }
  assert (Hnone : target <> HOST_ID -> ~ In target (keys (mContainers w)) ->
            r = mkRun (Ret tt) w
                  [Log LogError
                     ("Target container '" ++ target ++ "' not found");
                   Reply (ResultSetError ERROR_UNKNOWN_ID
                            "Unknown proxy call target")]).
  { intros N Hin. subst r. unfold handleProxyCall, bind; simpl.
    rewrite Hallowed; simpl.
    apply String.eqb_neq in N. rewrite N; simpl.
    apply mapFind_None_not_In in Hin. rewrite Hin. reflexivity. }
  split; [intros E; rewrite (Hhost E); auto |].
  split; [assumption |].
  split; [intros N Hin; rewrite (Hnone N Hin); auto |].
  split; [| split; [intros; repeat split | reflexivity]].
  split.
  - intros [message Hin].
    destruct (String.eqb target HOST_ID) eqn:E.
    + apply String.eqb_eq in E. rewrite (Hhost E) in Hin.
      destruct Hin as [H | []]; discriminate.
    + apply String.eqb_neq in E. split; [assumption |].
      intros Hkeys. rewrite (Hzone E Hkeys) in Hin.
      destruct Hin as [H | []]; discriminate.
  - intros [N Hin]. rewrite (Hnone N Hin).
    exists "Unknown proxy call target". simpl. auto.
Qed.

(** [z1] calls the host: the hypothesis of [C2_forwarding] holds and the
    call goes out on the host connection. *)
Lemma C2_forwarding_witness :
  trace (handleProxyCall "z1" "host" "org.foo" "/" "org.foo" "Ping"
           (GTuple []) (Samples.twoZones RUNNING Samples.noFaults))
  = [HostProxyCallAsync "org.foo" "/" "org.foo" "Ping" (GTuple [])].
Proof.
  apply (C2_forwarding (Samples.twoZones RUNNING Samples.noFaults)
           "z1" "host" "org.foo" "/" "org.foo" "Ping" (GTuple [])
           eq_refl).
  reflexivity.
Defined.

(* ===================================================================== *)
(** ** The file move between containers *)
(* ===================================================================== *)

Lemma replies_app (t1 t2 : list Event) :
  replies (t1 ++ t2) = (replies t1 ++ replies t2)%list.
Proof.
  induction t1 as [| e t1 IH]; simpl; auto.
  destruct e; simpl; auto. rewrite IH. reflexivity.
Qed.

Lemma regexMatchVector_matches (str : string) (v : list regex) :
  regexMatchVector str v = true <->
  exists toMatch, In toMatch v /\ matches toMatch str.
Proof.
  rewrite regexMatchVector_true. split; intros [e [Hin Hm]]; exists e;
    (split; [assumption | apply RegexFacts.regex_match_spec; assumption]).
Qed.

(** The notification after a move that succeeded adds no reply, whether it
    is delivered or not. *)
Lemma notification_no_reply (dst src path : string) (w : World) :
  let r := tryCatch
             (zoneCall dst (SendNotification src path FILE_MOVE_SUCCEEDED))
             isServerException
             (fun _ => LOGE ("Notification to '" ++ dst
                             ++ "' has not been sent")) w in
  replies (trace r) = [] /\ hostFiles (final r) = hostFiles w
  /\ forall e, In e (trace r) -> isMoveFile e = false.
Proof.
  unfold tryCatch, zoneCall.
  destruct (mapFind dst (mContainers w)); simpl.
  - destruct (runtimeFaults w dst _);
      [destruct (outsideServerException w dst) |];
      simpl; repeat split; auto;
      intros e H; repeat (destruct H as [<- | H]; [reflexivity |]);
      destruct H.
  - repeat split; auto. intros e [].
Qed.

(** C3.  A [FileMoveRequest(dst, path)] of the caller zone [src] is
    answered with the code of the first check that fails, in this order:
    [dst] is not in the map of zones; [src] and [dst] are the same; no
    expression of [src]'s [permittedToSend] matches the whole of [path]; no
    expression of [dst]'s [permittedToRecv] matches the whole of [path]; the
    move of the file fails.  When every check passes and the file is moved
    the answer is [FILE_MOVE_SUCCEEDED].  The handler replies exactly
    once. *)
Theorem C3_file_move_checks_in_order
  (w : World) (src dst path : string) (srcContainer : Container)
  (Hsrc : mapFind src (mContainers w) = Some srcContainer) :
  let r := handleContainerMoveFileRequest src dst path w in
  let srcPath :=
    (fsAbsolute w src (containersPath (mConfig w)) ++ path)%string in
  let dstPath :=
    (fsAbsolute w dst (containersPath (mConfig w)) ++ path)%string in
  (mapFind dst (mContainers w) = None ->
     replies (trace r) = [fileMoveReply FILE_MOVE_DESTINATION_NOT_FOUND])
  /\ (forall dstContainer,
        mapFind dst (mContainers w) = Some dstContainer ->
        (src = dst ->
           replies (trace r) = [fileMoveReply FILE_MOVE_WRONG_DESTINATION])
        /\ (src <> dst ->
            (forall e, In e (getPermittedToSend srcContainer) ->
                       ~ matches e path) ->
            replies (trace r) = [fileMoveReply FILE_MOVE_NO_PERMISSIONS_SEND])
        /\ (src <> dst ->
            (exists e, In e (getPermittedToSend srcContainer)
                       /\ matches e path) ->
            (forall e, In e (getPermittedToRecv dstContainer) ->
                       ~ matches e path) ->
            replies (trace r)
            = [fileMoveReply FILE_MOVE_NO_PERMISSIONS_RECEIVE])
        /\ (src <> dst ->
            (exists e, In e (getPermittedToSend srcContainer)
                       /\ matches e path) ->
            (exists e, In e (getPermittedToRecv dstContainer)
                       /\ matches e path) ->
            (outcome (moveFile srcPath dstPath w) = Ret false ->
               replies (trace r) = [fileMoveReply FILE_MOVE_FAILED])
            /\ (outcome (moveFile srcPath dstPath w) = Ret true ->
                replies (trace r) = [fileMoveReply FILE_MOVE_SUCCEEDED]))).
Proof.
  intros r srcPath dstPath. split.
  - intros Hdst. subst r. unfold handleContainerMoveFileRequest, bind; simpl.
    rewrite Hsrc, Hdst. reflexivity.
  - intros dstContainer Hdst.
    freeze r as Er.
    unfold handleContainerMoveFileRequest, bind in Er; simpl in Er.
    rewrite Hsrc, Hdst in Er.
    split; [| split; [| split]].
    + intros E. apply String.eqb_eq in E. rewrite E in Er.
      rewrite Er. reflexivity.
    + intros N Hsend. apply String.eqb_neq in N. rewrite N in Er.
      apply regexMatchVector_false in Hsend. rewrite Hsend in Er.
      rewrite Er. reflexivity.
    + intros N Hsend Hrecv. apply String.eqb_neq in N. rewrite N in Er.
      apply regexMatchVector_matches in Hsend. rewrite Hsend in Er.
      apply regexMatchVector_false in Hrecv. rewrite Hrecv in Er.
      rewrite Er. reflexivity.
    + intros N Hsend Hrecv. apply String.eqb_neq in N. rewrite N in Er.
      apply regexMatchVector_matches in Hsend. rewrite Hsend in Er.
      apply regexMatchVector_matches in Hrecv. rewrite Hrecv in Er.
      simpl in Er. fold srcPath dstPath in Er.
      unfold moveFile in *.
      destruct (existsb (String.eqb srcPath) (hostFiles w)); simpl in *.
      * split; [discriminate | intros _].
        rewrite Er; simpl.
        match goal with
        | |- context [tryCatch ?b ?c ?h ?w'] =>
            pose proof (notification_no_reply dst src path w') as [Hn _]
        end.
        simpl in Hn. rewrite Hn. reflexivity.
      * split; [intros _ | discriminate].
        rewrite Er. reflexivity.
Qed.

(** [z1] sends [/tmp/a] to [z2]: the hypotheses of
    [C3_file_move_checks_in_order] hold along the path of a move that
    succeeds. *)
Lemma C3_file_move_checks_in_order_witness :
  replies (trace (handleContainerMoveFileRequest "z1" "z2" "/tmp/a"
                    (Samples.twoZones RUNNING Samples.noFaults)))
  = [fileMoveReply FILE_MOVE_SUCCEEDED].
Proof.
  pose proof (C3_file_move_checks_in_order
                (Samples.twoZones RUNNING Samples.noFaults)
                "z1" "z2" "/tmp/a" _ eq_refl) as [_ H].
  destruct (H _ eq_refl) as (_ & _ & _ & H4).
  apply H4.
  - discriminate.
  - exists Samples.tmpFiles. split; [left; reflexivity |].
    apply RegexFacts.regex_match_spec. reflexivity.
  - exists Samples.tmpFiles. split; [left; reflexivity |].
    apply RegexFacts.regex_match_spec. reflexivity.
  - reflexivity.
Defined.

Lemma In_Reply_replies (x : MethodResult) (t : list Event) :
  In (Reply x) t -> In x (replies t).
Proof.
  induction t as [| e t IH]; simpl; [auto |].
  intros [E | H].
  - subst e. left; reflexivity.
  - destruct e; simpl; auto.
Qed.

(** C10.  When the reply to a [FileMoveRequest] is one of
    [FILE_MOVE_DESTINATION_NOT_FOUND], [FILE_MOVE_WRONG_DESTINATION],
    [FILE_MOVE_NO_PERMISSIONS_SEND] and [FILE_MOVE_NO_PERMISSIONS_RECEIVE],
    the handler has not called [moveFile] at all, and the files of the host
    (so the file trees of both zones), like the rest of the manager, are as
    they were. *)
Theorem C10_refused_move_touches_no_file
  (w : World) (src dst path code : string) :
  let r := handleContainerMoveFileRequest src dst path w in
  In (Reply (fileMoveReply code)) (trace r) ->
  In code refusalCodes ->
  (forall e, In e (trace r) -> isMoveFile e = false)
  /\ hostFiles (final r) = hostFiles w
  /\ final r = w.
Proof.
  intros r Hreply Hcode.
  assert (Hnot : code <> FILE_MOVE_FAILED /\ code <> FILE_MOVE_SUCCEEDED).
  { simpl in Hcode.
    destruct Hcode as [<- | [<- | [<- | [<- | []]]]]; split; discriminate. }
  destruct Hnot as [NF NS].
  freeze r as Er.
  unfold handleContainerMoveFileRequest, bind in Er; simpl in Er.
  assert (Hsmall : forall l m,
            r = mkRun (Ret tt) w [Log LogError l; Reply m] ->
            (forall e, In e (trace r) -> isMoveFile e = false)
            /\ hostFiles (final r) = hostFiles w /\ final r = w).
  { intros l m ->. simpl. repeat split.
    intros e [<- | [<- | []]]; reflexivity. }
  destruct (mapFind src (mContainers w)) as [srcContainer |].
  2: { rewrite Er in Hreply. simpl in Hreply.
       destruct Hreply as [H | []]; discriminate. }
  destruct (mapFind dst (mContainers w)) as [dstContainer |].
  2: { eapply Hsmall; eassumption. }
  destruct (String.eqb src dst).
  { eapply Hsmall; eassumption. }
  destruct (regexMatchVector path (getPermittedToSend srcContainer));
    simpl in Er.
  2: { eapply Hsmall; eassumption. }
  destruct (regexMatchVector path (getPermittedToRecv dstContainer));
    simpl in Er.
  2: { eapply Hsmall; eassumption. }
  exfalso. unfold moveFile in Er.
  destruct (existsb _ (hostFiles w)); simpl in Er;
    rewrite Er in Hreply; simpl in Hreply.
  - destruct Hreply as [H | [H | H]]; [discriminate | |].
    + inversion H. congruence.
    + apply In_Reply_replies in H.
      match type of H with
      | context [tryCatch ?b ?c ?h ?w'] =>
          pose proof (notification_no_reply dst src path w') as [Hn _]
      end.
      simpl in Hn. rewrite Hn in H. destruct H.
  - destruct Hreply as [H | [H | [H | []]]]; try discriminate.
    inversion H. congruence.
Qed.

(** [z1] asks to send a file to itself: the hypotheses of
    [C10_refused_move_touches_no_file] hold, and no file has moved. *)
Lemma C10_refused_move_touches_no_file_witness :
  hostFiles (final (handleContainerMoveFileRequest "z1" "z1" "/tmp/a"
                      (Samples.twoZones RUNNING Samples.noFaults)))
  = ["/var/zones/z1/tmp/a"].
Proof.
  apply (C10_refused_move_touches_no_file
           (Samples.twoZones RUNNING Samples.noFaults)
           "z1" "z1" "/tmp/a" FILE_MOVE_WRONG_DESTINATION).
  - simpl. right; left; reflexivity.
  - simpl. right; left; reflexivity.
Defined.

(* ===================================================================== *)
(** ** Loops over the containers *)
(* ===================================================================== *)

Lemma keys_modifyAll (ids : list string) (f : Container -> Container) :
  forall m, keys (modifyAll ids f m) = keys m.
Proof.
  induction ids as [| id ids IH]; simpl; intros m; auto.
  rewrite IH. apply keys_mapModify.
Qed.

Lemma attempted_no_fault faults op ids :
  anyFault faults op ids = false -> attempted faults op ids = ids.
Proof.
  induction ids as [| id ids IH]; simpl; auto.
  intros H. apply orb_false_iff in H as [H1 H2].
  rewrite H1. f_equal. auto.
Qed.

Lemma completed_no_fault faults op ids :
  anyFault faults op ids = false -> completed faults op ids = ids.
Proof.
  induction ids as [| id ids IH]; simpl; auto.
  intros H. apply orb_false_iff in H as [H1 H2].
  rewrite H1. f_equal. auto.
Qed.

Lemma anyFault_false faults op ids :
  (forall id, In id ids -> faults id op = false) ->
  anyFault faults op ids = false.
Proof.
  induction ids as [| id ids IH]; simpl; intros H; auto.
  rewrite (H id) by auto. simpl. auto.
Qed.

Lemma run_eta {A : Type} (r : Run A) :
  mkRun (outcome r) (final r) (trace r) = r.
Proof. destruct r; reflexivity. Qed.

Lemma bind_getWorld {A : Type} (f : World -> M A) (w : World) :
  (x <- getWorld ;; f x) w = f w w.
Proof. unfold bind; simpl. apply run_eta. Qed.

Lemma withContainers_same (w : World) : withContainers (mContainers w) w = w.
Proof. destruct w; reflexivity. Qed.

Lemma runtimeFaults_withContainers (m : ContainerMap) (w : World) :
  runtimeFaults (withContainers m w) = runtimeFaults w.
Proof. reflexivity. Qed.

Lemma mConfig_withContainers (m : ContainerMap) (w : World) :
  mConfig (withContainers m w) = mConfig w.
Proof. reflexivity. Qed.

Lemma mContainers_withContainers (m : ContainerMap) (w : World) :
  mContainers (withContainers m w) = m.
Proof. reflexivity. Qed.

Lemma withContainers_twice (m m' : ContainerMap) (w : World) :
  withContainers m (withContainers m' w) = withContainers m w.
Proof. reflexivity. Qed.

Create Rewrite HintDb world.

#[export] Hint Rewrite runtimeFaults_withContainers mConfig_withContainers
  mContainers_withContainers withContainers_twice : world.

Lemma zoneCall_run (w : World) (id : string) (op : ZoneOp) :
  In id (keys (mContainers w)) ->
  zoneCall id op w
  = if runtimeFaults w id op
    then mkRun (Throw (zoneFailure w id op)) w [ZoneCall id op]
    else mkRun (Ret tt)
           (withContainers (mapModify id (applyOp op) (mContainers w)) w)
           [ZoneCall id op].
Proof.
  intros Hin. apply mapFind_In_keys in Hin. unfold zoneCall.
  destruct (mapFind id (mContainers w)); [reflexivity | congruence].
Qed.

(** A loop of calls of [op] over ids of the map: it reaches the ids up to
    the first failure, the calls before the failure have taken effect, and
    the failure leaves the loop as an exception. *)
Lemma forEach_zoneCall (op : ZoneOp) (ids : list string) :
  (forall w id, zoneFailure w id op = failure) ->
  forall w,
    (forall id, In id ids -> In id (keys (mContainers w))) ->
    forEach ids (fun id => zoneCall id op) w
    = mkRun (if anyFault (runtimeFaults w) op ids
             then Throw failure else Ret tt)
        (withContainers
           (modifyAll (completed (runtimeFaults w) op ids) (applyOp op)
              (mContainers w)) w)
        (map (fun id => ZoneCall id op)
           (attempted (runtimeFaults w) op ids)).
Proof.
  intros Hclass.
  induction ids as [| id ids IH]; intros w Hin.
  - simpl. rewrite withContainers_same. reflexivity.
  - simpl. unfold bind.
    rewrite zoneCall_run by (apply Hin; left; reflexivity).
    rewrite Hclass.
    destruct (runtimeFaults w id op) eqn:Ef; simpl.
    + rewrite withContainers_same. reflexivity.
    + rewrite IH.
      * simpl. reflexivity.
      * intros k Hk. simpl. rewrite keys_mapModify. apply Hin. right; auto.
Qed.

Lemma replay_app faults (t1 t2 : list Event) :
  forall m, replay faults (t1 ++ t2) m = replay faults t2 (replay faults t1 m).
Proof.
  induction t1 as [| e t1 IH]; simpl; auto.
Qed.

Lemma replay_attempted faults (op : ZoneOp) (ids : list string) :
  forall m,
    replay faults (map (fun id => ZoneCall id op) (attempted faults op ids)) m
    = modifyAll (completed faults op ids) (applyOp op) m.
Proof.
  induction ids as [| id ids IH]; simpl; intros m; auto.
  destruct (faults id op) eqn:E; simpl; rewrite E; auto.
Qed.

(* ===================================================================== *)
(** ** [focus] *)
(* ===================================================================== *)

Lemma applyOp_getId (op : ZoneOp) (c : Container) :
  getId (applyOp op c) = getId c.
Proof.
  destruct op; simpl; auto; destruct (state c); reflexivity.
Qed.

Lemma mapFind_mapModify_getId (id k : string) (f : Container -> Container)
  (m : ContainerMap) :
  (forall c, getId (f c) = getId c) ->
  option_map getId (mapFind id (mapModify k f m))
  = option_map getId (mapFind id m).
Proof.
  intros Hf. destruct (String.eqb k id) eqn:E.
  - apply String.eqb_eq in E; subst.
    rewrite mapFind_mapModify_same.
    destruct (mapFind id m); simpl; [rewrite Hf |]; reflexivity.
  - apply String.eqb_neq in E.
    rewrite mapFind_mapModify_other by assumption. reflexivity.
Qed.

Lemma mapFind_modifyAll_getId (id : string) (f : Container -> Container)
  (ids : list string) :
  (forall c, getId (f c) = getId c) ->
  forall m,
    option_map getId (mapFind id (modifyAll ids f m))
    = option_map getId (mapFind id m).
Proof.
  intros Hf. induction ids as [| k ids IH]; simpl; intros m; auto.
  rewrite IH. apply mapFind_mapModify_getId. assumption.
Qed.

(** The whole of a run of [focus] on a zone of the map. *)
Lemma focus_run (w : World) (id : string) (c : Container) :
  mapFind id (mContainers w) = Some c ->
  let ks := keys (mContainers w) in
  let faults := runtimeFaults w in
  let m1 := modifyAll (completed faults GoBackground ks)
              (applyOp GoBackground) (mContainers w) in
  let sent := map (fun k => ZoneCall k GoBackground)
                (attempted faults GoBackground ks) in
  focus id w
  = if anyFault faults GoBackground ks
    then mkRun (Throw failure) (withContainers m1 w) sent
    else if faults id GoForeground
    then mkRun (Throw failure)
           (withForegroundId (getId c) (withContainers m1 w))
           (sent ++ [ZoneCall id GoForeground])
    else mkRun (Ret tt)
           (withContainers (mapModify id (applyOp GoForeground) m1)
              (withForegroundId (getId c) (withContainers m1 w)))
           (sent ++ [ZoneCall id GoForeground]).
Proof.
  intros Hid ks faults m1 sent.
  unfold focus, bind, mapAt. rewrite Hid. simpl.
  rewrite forEach_zoneCall by (reflexivity || auto).
  fold ks faults m1 sent. simpl.
  destruct (anyFault faults GoBackground ks); simpl; [reflexivity |].
  pose proof (mapFind_modifyAll_getId id (applyOp GoBackground)
                (completed faults GoBackground ks)
                (applyOp_getId GoBackground) (mContainers w)) as Hg.
  fold m1 in Hg. rewrite Hid in Hg. simpl in Hg.
  unfold zoneGet. simpl.
  destruct (mapFind id m1) as [c1 |] eqn:F1; [| discriminate].
  simpl in Hg. inversion Hg as [Hg']. simpl.
  unfold zoneCall. simpl. rewrite F1.
  fold faults. destruct (faults id GoForeground); reflexivity.
Qed.

(** [focus] on an id that is not in the map throws at once. *)
Lemma focus_unknown (w : World) (id : string) :
  mapFind id (mContainers w) = None ->
  focus id w = mkRun (Throw OutOfRange) w [].
Proof.
  intros Hid. unfold focus, bind, mapAt. rewrite Hid. reflexivity.
Qed.

(* ===================================================================== *)
(** ** [SetActiveContainer] *)
(* ===================================================================== *)



(* ===================================================================== *)
(** ** At most one running zone in the foreground *)
(* ===================================================================== *)

Lemma foregroundCount_cons (k : string) (c : Container) (m : ContainerMap) :
  foregroundCount ((k, c) :: m)
  = ((if holdsForeground c then 1 else 0) + foregroundCount m)%nat.
Proof.
  unfold foregroundCount. simpl. destruct (holdsForeground c); reflexivity.
Qed.

Lemma foregroundCount_background (id : string) (m : ContainerMap) :
  (foregroundCount (mapModify id (applyOp GoBackground) m)
   <= foregroundCount m)%nat.
Proof.
  induction m as [| [k c] m IH]; simpl; [lia |].
  destruct (String.eqb id k).
  - rewrite !foregroundCount_cons.
    change (holdsForeground (setForeground false c)) with false.
    destruct (holdsForeground c); simpl; lia.
  - rewrite !foregroundCount_cons.
    destruct (holdsForeground c); simpl; lia.
Qed.

Lemma foregroundCount_allBackground (m : ContainerMap) :
  allBackground m -> foregroundCount m = 0%nat.
Proof.
  induction m as [| [k c] m IH]; intros H; [reflexivity |].
  rewrite foregroundCount_cons, IH.
  - unfold holdsForeground. rewrite (H k c) by (left; reflexivity).
    reflexivity.
  - intros k' c' Hin. apply (H k' c'). right; assumption.
Qed.

Lemma foregroundCount_foreground (id : string) (m : ContainerMap) :
  allBackground m ->
  (foregroundCount (mapModify id (applyOp GoForeground) m) <= 1)%nat.
Proof.
  induction m as [| [k c] m IH]; intros H; simpl; [auto |].
  assert (Hm : allBackground m)
    by (intros k' c' Hin; apply (H k' c'); right; assumption).
  destruct (String.eqb id k).
  - rewrite foregroundCount_cons, (foregroundCount_allBackground m Hm).
    destruct (holdsForeground _); lia.
  - rewrite foregroundCount_cons. specialize (IH Hm).
    unfold holdsForeground. rewrite (H k c) by (left; reflexivity).
    simpl. assumption.
Qed.

(** A call on every key of a map reaches every entry of the map. *)
Lemma modifyAll_cons_other (ids : list string) (f : Container -> Container)
  (k : string) (c : Container) :
  forall m, ~ In k ids ->
    modifyAll ids f ((k, c) :: m) = (k, c) :: modifyAll ids f m.
Proof.
  induction ids as [| id ids IH]; simpl; intros m Hnot; [reflexivity |].
  destruct (String.eqb id k) eqn:E.
  - apply String.eqb_eq in E. exfalso. apply Hnot. left; assumption.
  - apply IH. intros Hin. apply Hnot. right; assumption.
Qed.

Lemma modifyAll_keys (f : Container -> Container) (m : ContainerMap) :
  NoDup (keys m) ->
  modifyAll (keys m) f m = map (fun kc => (fst kc, f (snd kc))) m.
Proof.
  induction m as [| [k c] m IH]; simpl; intros Hnd; [reflexivity |].
  inversion Hnd; subst.
  rewrite String.eqb_refl, modifyAll_cons_other by assumption.
  rewrite IH by assumption. reflexivity.
Qed.

Lemma allBackground_after_all (m : ContainerMap) :
  NoDup (keys m) ->
  allBackground (modifyAll (keys m) (applyOp GoBackground) m).
Proof.
  intros Hnd. rewrite modifyAll_keys by assumption.
  intros k c Hin. apply in_map_iff in Hin as [[k' c'] [E _]].
  inversion E; subst. reflexivity.
Qed.

(** Sending zones to the background never adds a zone to the foreground. *)
Lemma replay_background_le faults (ids : list string) :
  forall m,
    (foregroundCount (replay faults (map goBackgroundEvent ids) m)
     <= foregroundCount m)%nat.
Proof.
  induction ids as [| id ids IH]; simpl; intros m; [lia |].
  etransitivity; [apply IH |].
  destruct (faults id GoBackground); [lia |].
  apply foregroundCount_background.
Qed.

Lemma firstn_map {A B : Type} (f : A -> B) (n : nat) (l : list A) :
  firstn n (map f l) = map f (firstn n l).
Proof.
  revert l. induction n as [| n IH]; intros [| x l]; simpl; auto.
  rewrite IH. reflexivity.
Qed.

Lemma last_occurrence {A : Type} (x : A) (l pre post : list A) :
  ~ In x l -> (l ++ [x] = pre ++ x :: post)%list -> pre = l /\ post = [].
Proof.
  revert pre. induction l as [| a l IH]; intros pre Hnot E.
  - destruct pre as [| p pre]; simpl in E.
    + inversion E; auto.
    + inversion E as [[E1 E2]]. destruct pre; discriminate.
  - destruct pre as [| p pre]; simpl in E.
    + inversion E; subst. exfalso. apply Hnot. left; reflexivity.
    + inversion E as [[E1 E2]]. subst p.
      destruct (IH pre) as [-> ->]; auto.
      intros Hin. apply Hnot. right; assumption.
Qed.

Lemma goForeground_not_sent (id : string) (ids : list string) :
  ~ In (ZoneCall id GoForeground) (map goBackgroundEvent ids).
Proof.
  intros Hin. apply in_map_iff in Hin as [k [E _]]. discriminate.
Qed.

(** C5.  [focus(id)] on a zone of the map sends [goBackground] to every
    zone of the map, the target among them, in map order, and only then
    records the id of the target as foreground id and sends [goForeground]
    to the target: whatever the runtime does, a [goForeground] in the trace
    has the [goBackground] of every zone before it and nothing after it.
    The state of the containers at each moment is the replay of the events
    so far; if at most one running zone held the foreground before the
    call, then at most one does at every moment of the call. *)
Theorem C5_focus_background_first
  (w : World) (id : string) (c : Container)
  (Hid : mapFind id (mContainers w) = Some c) :
  let r := focus id w in
  let ks := keys (mContainers w) in
  let faults := runtimeFaults w in
  In id ks
  /\ (forall pre post,
        trace r = (pre ++ ZoneCall id GoForeground :: post)%list ->
        pre = map goBackgroundEvent ks /\ post = []
        /\ foregroundId (mConfig (final r)) = getId c)
  /\ (anyFault faults GoBackground ks = false ->
      trace r = (map goBackgroundEvent ks ++ [ZoneCall id GoForeground])%list
      /\ foregroundId (mConfig (final r)) = getId c)
  /\ (anyFault faults GoBackground ks = false ->
      faults id GoForeground = false ->
      outcome r = Ret tt
      /\ option_map foreground (mapFind id (mContainers (final r)))
         = Some true)
  /\ mContainers (final r) = replay faults (trace r) (mContainers w)
  /\ (NoDup ks -> atMostOneForeground (mContainers w) ->
      forall n,
        atMostOneForeground
          (replay faults (firstn n (trace r)) (mContainers w))).
Proof.
  intros r ks faults.
  freeze r as Er.
  rewrite (focus_run w id c Hid) in Er. fold ks faults in Er.
  change (fun k => ZoneCall k GoBackground) with goBackgroundEvent in Er.
  pose proof (replay_attempted faults GoBackground ks (mContainers w))
    as Hreplay.
  change (fun k => ZoneCall k GoBackground) with goBackgroundEvent in Hreplay.
  split; [eapply mapFind_Some_In_keys; eassumption |].
  destruct (anyFault faults GoBackground ks) eqn:Ef.
  - (* a goBackground has failed *)
    subst r; simpl.
    split; [| split; [discriminate | split; [discriminate | split]]].
    + intros pre post E. exfalso.
      apply (goForeground_not_sent id (attempted faults GoBackground ks)).
      rewrite E. apply in_elt.
    + symmetry. apply Hreplay.
    + intros Hnd Hone n. unfold atMostOneForeground in *.
      rewrite firstn_map.
      etransitivity; [apply replay_background_le | assumption].
  - rewrite (attempted_no_fault _ _ _ Ef) in *.
    rewrite (completed_no_fault _ _ _ Ef) in *.
    assert (Htrace : trace r
              = (map goBackgroundEvent ks ++ [ZoneCall id GoForeground])%list)
      by (subst r; destruct (faults id GoForeground); reflexivity).
    assert (Hfg : foregroundId (mConfig (final r)) = getId c)
      by (subst r; destruct (faults id GoForeground); reflexivity).
    split; [| split; [auto | split; [| split]]].
    + intros pre post E. rewrite Htrace in E.
      apply last_occurrence in E; [| apply goForeground_not_sent].
      destruct E as [-> ->]. auto.
    + intros _ Hnf. subst r. rewrite Hnf. simpl. split; [reflexivity |].
      rewrite mapFind_mapModify_same.
      destruct (mapFind id (modifyAll ks (applyOp GoBackground)
                              (mContainers w))) eqn:F; [reflexivity |].
      apply mapFind_None_not_In in F. rewrite keys_modifyAll in F.
      exfalso. apply F. eapply mapFind_Some_In_keys; eassumption.
    + rewrite Htrace, replay_app, Hreplay. simpl. fold faults.
      subst r. destruct (faults id GoForeground); reflexivity.
    + intros Hnd Hone n. unfold atMostOneForeground in *.
      rewrite Htrace, firstn_app, replay_app, firstn_map.
      destruct (n - List.length (map goBackgroundEvent ks))%nat
        as [| n'] eqn:En; simpl.
      * etransitivity; [apply replay_background_le | assumption].
      * rewrite firstn_nil. simpl.
        rewrite firstn_all2 by (rewrite length_map in En; lia).
        rewrite Hreplay.
        destruct (faults id GoForeground).
        -- rewrite foregroundCount_allBackground; [lia |].
           apply allBackground_after_all; assumption.
        -- apply foregroundCount_foreground.
           apply allBackground_after_all; assumption.
Qed.

(** [focus("z2")] with two running zones, [z1] in the foreground: the
    hypotheses of [C5_focus_background_first] hold, and after the first two
    events no zone is in the foreground. *)
Lemma C5_focus_background_first_witness :
  atMostOneForeground
    (replay Samples.noFaults
       (firstn 2 (trace (focus "z2"
                           (Samples.twoZones RUNNING Samples.noFaults))))
       (mContainers (Samples.twoZones RUNNING Samples.noFaults))).
Proof.
  pose proof (C5_focus_background_first
                (Samples.twoZones RUNNING Samples.noFaults) "z2" _ eq_refl)
    as (_ & _ & _ & _ & _ & H).
  apply H.
  - simpl. repeat constructor; simpl; intuition discriminate.
  - unfold atMostOneForeground, foregroundCount. simpl. lia.
Defined.

(* ===================================================================== *)
(** ** [startAll] *)
(* ===================================================================== *)

Lemma applyOp_getPrivilege (op : ZoneOp) (c : Container) :
  getPrivilege (applyOp op c) = getPrivilege c.
Proof.
  destruct op; simpl; auto; destruct (state c); reflexivity.
Qed.

Lemma summary_mapModify (id : string) (op : ZoneOp) (m : ContainerMap) :
  map summary (mapModify id (applyOp op) m) = map summary m.
Proof.
  induction m as [| [k c] m IH]; simpl; auto.
  destruct (String.eqb id k); simpl.
  - unfold summary at 1 3. simpl.
    rewrite applyOp_getId, applyOp_getPrivilege. reflexivity.
  - rewrite IH. reflexivity.
Qed.

Lemma summary_replay faults (t : list Event) :
  forall m, map summary (replay faults t m) = map summary m.
Proof.
  induction t as [| e t IH]; simpl; intros m; auto.
  rewrite IH. destruct e; simpl; auto.
  destruct (faults id op); auto using summary_mapModify.
Qed.

Lemma keys_summary (m : ContainerMap) :
  keys m = map (fun s => fst (fst s)) (map summary m).
Proof.
  unfold keys. rewrite map_map. reflexivity.
Qed.

Lemma keys_replay faults (t : list Event) (m : ContainerMap) :
  keys (replay faults t m) = keys m.
Proof.
  rewrite !keys_summary, summary_replay. reflexivity.
Qed.

Lemma min_element_from_summary (m m' : ContainerMap) :
  map summary m = map summary m' ->
  forall x x', summary x = summary x' ->
    summary (min_element_from x m) = summary (min_element_from x' m').
Proof.
  revert m'. induction m as [| y m IH]; intros [| y' m'] E x x' Ex;
    simpl in *; try discriminate; auto.
  assert (Ey : summary y = summary y') by congruence.
  assert (Em : map summary m = map summary m') by congruence.
  assert (Hy : getPrivilege (snd y) = getPrivilege (snd y'))
    by (unfold summary in Ey; congruence).
  assert (Hx : getPrivilege (snd x) = getPrivilege (snd x'))
    by (unfold summary in Ex; congruence).
  rewrite Hy, Hx.
  destruct (getPrivilege (snd y') <? getPrivilege (snd x'));
    apply IH; assumption.
Qed.

Lemma min_element_summary (m m' : ContainerMap) :
  map summary m = map summary m' ->
  option_map summary (min_element m) = option_map summary (min_element m').
Proof.
  destruct m as [| x m], m' as [| x' m']; simpl; try discriminate; auto.
  intros E. f_equal.
  apply min_element_from_summary; congruence.
Qed.

(** [min_element] returns the first of the entries of least privilege. *)
Lemma min_element_from_spec (m : ContainerMap) :
  forall x,
    exists pre post,
      (x :: m = pre ++ min_element_from x m :: post)%list
      /\ (forall z, In z pre ->
            getPrivilege (snd (min_element_from x m)) < getPrivilege (snd z))
      /\ (forall z, In z post ->
            getPrivilege (snd (min_element_from x m))
            <= getPrivilege (snd z)).
Proof.
  induction m as [| z m IH]; intros x; simpl.
  - exists [], []. simpl. intuition.
  - destruct (getPrivilege (snd z) <? getPrivilege (snd x)) eqn:E.
    + apply Z.ltb_lt in E.
      destruct (IH z) as (pre & post & Eq & Hpre & Hpost).
      exists (x :: pre), post. simpl. rewrite <- Eq.
      split; [reflexivity |]. split; [| assumption].
      intros y [<- | Hy]; [| auto].
      destruct pre as [| p pre]; simpl in Eq.
      * injection Eq as E1 E2. rewrite <- E1. assumption.
      * injection Eq as E1 E2. subst p.
        specialize (Hpre z (or_introl eq_refl)). lia.
    + apply Z.ltb_ge in E.
      destruct (IH x) as (pre & post & Eq & Hpre & Hpost).
      destruct pre as [| p pre]; simpl in Eq.
      * injection Eq as E1 E2.
        exists [], (z :: post). simpl.
        split; [congruence |]. split; [intros ? [] |].
        intros y [<- | Hy]; [rewrite <- E1; assumption |].
        apply Hpost. assumption.
      * injection Eq as E1 E2. subst p.
        exists (x :: z :: pre), post. simpl.
        split; [congruence |]. split; [| assumption].
        intros y [<- | [<- | Hy]].
        -- apply Hpre. left; reflexivity.
        -- specialize (Hpre x (or_introl eq_refl)). lia.
        -- apply Hpre. right; assumption.
Qed.

Lemma upToFailure_no_fault faults (t : list Event) :
  existsb (eventFails faults) t = false -> upToFailure faults t = t.
Proof.
  induction t as [| e t IH]; simpl; [reflexivity |].
  destruct (eventFails faults e); simpl; [discriminate |].
  intros H. rewrite IH by assumption. reflexivity.
Qed.

Lemma upToFailure_split faults (t : list Event) :
  existsb (eventFails faults) t = true ->
  exists pre e rest,
    upToFailure faults t = (pre ++ [e])%list
    /\ t = (pre ++ e :: rest)%list
    /\ eventFails faults e = true
    /\ existsb (eventFails faults) pre = false.
Proof.
  induction t as [| e t IH]; simpl; [discriminate |].
  destruct (eventFails faults e) eqn:E; simpl.
  - intros _. exists [], e, t. auto.
  - intros H. destruct (IH H) as (pre & e' & rest & E1 & E2 & E3 & E4).
    exists (e :: pre), e', rest. simpl. rewrite E1, E, E4. subst t. auto.
Qed.

Lemma upToFailure_incl faults (t : list Event) (e : Event) :
  In e (upToFailure faults t) -> In e t.
Proof.
  induction t as [| e0 t IH]; simpl; [auto |].
  destruct (eventFails faults e0); simpl; intuition.
Qed.

(** The loop of [startAll], whatever the runtime does: it makes the calls of
    [startEvents] up to the first that fails, and the failure leaves it as
    an exception. *)
Lemma startAllLoop_run (ids : list string) :
  forall (isForegroundFound : bool) (w : World),
    (forall id, In id ids -> In id (keys (mContainers w))) ->
    let faults := runtimeFaults w in
    let calls := startEvents (foregroundId (mConfig w)) ids in
    startAllLoop ids isForegroundFound w
    = mkRun
        (if existsb (eventFails faults) calls
         then Throw failure
         else Ret (isForegroundFound
                   || existsb
                        (fun id => String.eqb id (foregroundId (mConfig w)))
                        ids))
        (withContainers
           (replay faults (upToFailure faults calls) (mContainers w)) w)
        (upToFailure faults calls).
Proof.
  induction ids as [| id ids IH]; intros found w Hin faults calls;
    subst faults calls.
  - simpl. rewrite orb_false_r, withContainers_same. reflexivity.
  - assert (Hid : In id (keys (mContainers w)))
      by (apply Hin; left; reflexivity).
    simpl startAllLoop. unfold bind at 1.
    rewrite zoneCall_run by assumption. cbn [zoneFailure].
    destruct (runtimeFaults w id Start) eqn:Es; cbn [outcome final trace].
    + simpl. rewrite Es. simpl. rewrite Es, withContainers_same.
      reflexivity.
    + rewrite !bind_getWorld. autorewrite with world.
      destruct (String.eqb id (foregroundId (mConfig w))) eqn:E.
      * unfold bind.
        rewrite zoneCall_run
          by (autorewrite with world; rewrite keys_mapModify; assumption).
        autorewrite with world. cbn [zoneFailure].
        destruct (runtimeFaults w id GoForeground) eqn:Eg;
          cbn [outcome final trace].
        -- simpl. rewrite E. simpl. rewrite Es, Eg. simpl.
           rewrite Es, Eg. reflexivity.
        -- rewrite IH; autorewrite with world.
           ++ simpl. rewrite E. simpl. rewrite Es, Eg. simpl.
              rewrite Es, Eg, orb_true_r.
              destruct (existsb _ _); reflexivity.
           ++ intros k Hk. rewrite !keys_mapModify.
              apply Hin. right; assumption.
      * rewrite IH; autorewrite with world.
        -- simpl. rewrite E. simpl. rewrite Es. simpl. rewrite Es.
           destruct (existsb _ _); reflexivity.
        -- intros k Hk. rewrite keys_mapModify.
           apply Hin. right; assumption.
Qed.

Lemma startEvents_starts (fg : string) (ids : list string) :
  filter isStart (startEvents fg ids) = map (fun id => ZoneCall id Start) ids.
Proof.
  induction ids as [| id ids IH]; simpl; auto.
  destruct (String.eqb id fg); simpl; rewrite IH; reflexivity.
Qed.

Lemma startEvents_not_configured (fg : string) (ids : list string) :
  ~ In fg ids ->
  startEvents fg ids = map (fun id => ZoneCall id Start) ids.
Proof.
  induction ids as [| id ids IH]; simpl; intros Hnot; auto.
  destruct (String.eqb id fg) eqn:E.
  - apply String.eqb_eq in E. exfalso. apply Hnot. left; assumption.
  - simpl. f_equal. apply IH. intros H. apply Hnot. right; assumption.
Qed.

Lemma startEvents_goForeground (fg : string) (ids : list string) :
  NoDup ids -> In fg ids ->
  filter isGoForeground (startEvents fg ids) = [ZoneCall fg GoForeground].
Proof.
  induction ids as [| id ids IH]; simpl; intros Hnd Hin; [contradiction |].
  inversion Hnd as [| ? ? Hnot Hnd']; subst.
  destruct (String.eqb id fg) eqn:E; simpl.
  - apply String.eqb_eq in E; subst id.
    rewrite startEvents_not_configured by assumption.
    f_equal. clear. induction ids; simpl; auto.
  - apply String.eqb_neq in E. destruct Hin as [-> | Hin]; [congruence |].
    apply IH; assumption.
Qed.

Lemma startEvents_split (fg : string) (ids : list string) :
  In fg ids ->
  exists pre post,
    startEvents fg ids
    = (pre ++ ZoneCall fg Start :: ZoneCall fg GoForeground :: post)%list.
Proof.
  induction ids as [| id ids IH]; simpl; intros Hin; [contradiction |].
  destruct (String.eqb id fg) eqn:E.
  - apply String.eqb_eq in E. subst id.
    exists [], (startEvents fg ids). reflexivity.
  - destruct Hin as [-> | Hin]; [rewrite String.eqb_refl in E; discriminate |].
    destruct (IH Hin) as (pre & post & Eq).
    exists (ZoneCall id Start :: pre), post. simpl. rewrite Eq. reflexivity.
Qed.

Lemma existsb_eqb_In (fg : string) (ids : list string) :
  existsb (fun id => String.eqb id fg) ids = true <-> In fg ids.
Proof.
  rewrite existsb_exists. split.
  - intros [x [Hin E]]. apply String.eqb_eq in E. subst. assumption.
  - intros Hin. exists fg. split; [assumption | apply String.eqb_refl].
Qed.

(** The whole of a run of [startAll], whatever the runtime does. *)
Lemma startAll_run (w : World) :
  let fg := foregroundId (mConfig w) in
  let ks := keys (mContainers w) in
  let faults := runtimeFaults w in
  let calls := startEvents fg ks in
  let started := replay faults calls (mContainers w) in
  startAll w
  = if existsb (eventFails faults) calls
    then mkRun (Throw failure)
           (withContainers
              (replay faults (upToFailure faults calls) (mContainers w)) w)
           (upToFailure faults calls)
    else if existsb (fun id => String.eqb id fg) ks
    then mkRun (Ret tt) (withContainers started w) calls
    else match min_element started with
         | None => mkRun Crash (withContainers started w) calls
         | Some (k, c) =>
             mkRun (if faults k GoForeground then Throw failure else Ret tt)
               (withContainers
                  (replay faults [ZoneCall k GoForeground] started)
                  (withForegroundId (getId c) w))
               (calls ++ [ZoneCall k GoForeground])
         end.
Proof.
  intros fg ks faults calls started. unfold startAll.
  rewrite bind_getWorld. unfold bind at 1.
  rewrite startAllLoop_run by auto.
  cbv zeta. fold fg ks faults calls.
  destruct (existsb (eventFails faults) calls) eqn:Ef;
    cbn [outcome final trace orb]; [reflexivity |].
  rewrite (upToFailure_no_fault _ _ Ef). fold started.
  destruct (existsb (fun id => String.eqb id fg) ks).
  - simpl. rewrite app_nil_r. reflexivity.
  - cbn [negb]. rewrite !bind_getWorld. autorewrite with world.
    destruct (min_element started) as [[k c] |] eqn:Emin.
    + assert (Hk : In k (keys started)).
      { destruct started as [| x m'] eqn:Est; [discriminate |].
        simpl in Emin. injection Emin as Emin.
        destruct (min_element_from_spec m' x) as (pre & post & Eq & _).
        rewrite Emin in Eq. unfold keys. rewrite Eq, map_app. simpl.
        apply in_elt. }
      unfold bind. cbn [putWorld outcome final trace].
      rewrite zoneCall_run by (simpl; assumption).
      simpl. fold faults. destruct (faults k GoForeground); reflexivity.
    + simpl. rewrite app_nil_r. reflexivity.
Qed.

(** What [startAll] leaves, however it ends: the zones are those of the
    calls that have succeeded, and the calls are starts and
    [goForeground]s. *)
Lemma startAll_final (w : World) :
  let r := startAll w in
  mContainers (final r) = replay (runtimeFaults w) (trace r) (mContainers w)
  /\ runtimeFaults (final r) = runtimeFaults w
  /\ filter isStopCall (trace r) = [].
Proof.
  assert (Hev : forall fg ids,
            filter isStopCall (startEvents fg ids) = []).
  { intros fg ids. induction ids as [| id ids IH]; simpl; auto.
    destruct (String.eqb id fg); simpl; assumption. }
  assert (Hup : forall faults t,
            filter isStopCall t = [] ->
            filter isStopCall (upToFailure faults t) = []).
  { intros faults t. induction t as [| e t IH]; simpl; auto.
    destruct (isStopCall e) eqn:Ee; [discriminate |]. intros H.
    destruct (eventFails faults e); simpl; rewrite Ee; auto. }
  intros r. subst r. rewrite (startAll_run w). cbv zeta.
  destruct (existsb (eventFails _) _) eqn:Ef.
  - simpl. repeat split. apply Hup, Hev.
  - destruct (existsb _ (keys (mContainers w))).
    + simpl. repeat split. apply Hev.
    + destruct (min_element _) as [[k c] |].
      * cbn [outcome final trace]. autorewrite with world.
        split; [rewrite replay_app; reflexivity |].
        split; [reflexivity |].
        rewrite filter_app, Hev. reflexivity.
      * simpl. repeat split. apply Hev.
Qed.


Lemma StronglySorted_after {A : Type} (R : A -> A -> Prop)
  (l1 l2 : list A) (a : A) :
  StronglySorted R (l1 ++ a :: l2) -> forall b, In b l2 -> R a b.
Proof.
  induction l1 as [| x l1 IH]; simpl; intros H b Hb.
  - apply StronglySorted_inv in H as [_ H].
    rewrite Forall_forall in H. auto.
  - apply StronglySorted_inv in H as [H _]. auto.
Qed.

(** The entry [min_element] returns: least privilege, and among the
    entries of least privilege the one with the least key. *)
Lemma min_element_least (m : ContainerMap) (k : string) (c : Container) :
  min_element m = Some (k, c) ->
  In (k, c) m
  /\ (forall k' c', In (k', c') m -> getPrivilege c <= getPrivilege c')
  /\ (StronglySorted keyLt (keys m) ->
      forall k' c', In (k', c') m -> getPrivilege c' = getPrivilege c ->
                    k' = k \/ keyLt k k').
Proof.
  destruct m as [| x m]; [discriminate |].
  intros E. simpl in E. injection E as E.
  destruct (min_element_from_spec m x) as (pre & post & Eq & Hpre & Hpost).
  rewrite E in Eq, Hpre, Hpost. simpl in Hpre, Hpost.
  rewrite Eq.
  split; [apply in_elt |]. split.
  - intros k' c' Hin. apply in_app_or in Hin as [Hin | [Hin | Hin]].
    + specialize (Hpre _ Hin). simpl in Hpre. lia.
    + inversion Hin. lia.
    + specialize (Hpost _ Hin). simpl in Hpost. lia.
  - intros Hsorted k' c' Hin Hp.
    apply in_app_or in Hin as [Hin | [Hin | Hin]].
    + specialize (Hpre _ Hin). simpl in Hpre. lia.
    + inversion Hin. left; reflexivity.
    + right. unfold keys in Hsorted. rewrite map_app in Hsorted.
      simpl in Hsorted.
      apply (StronglySorted_after keyLt _ _ _ Hsorted).
      change k' with (fst (k', c')). apply in_map. assumption.
Qed.

Lemma startEvents_goForeground_only (fg id : string) (ids : list string) :
  In (ZoneCall id GoForeground) (startEvents fg ids) -> id = fg.
Proof.
  induction ids as [| k ids IH]; simpl; [intros [] |].
  intros [H | H]; [discriminate |].
  destruct (String.eqb k fg) eqn:E; simpl in H; [| auto].
  destruct H as [H | H]; [| auto].
  injection H as <-. apply String.eqb_eq. assumption.
Qed.

(** C6 as stated does not hold.  [z2] is the configured foreground zone and
    its start fails: [startAll] throws after the calls on [z1] and [z2], it
    never starts [z3], and it does not fall back to the zone of smallest
    privilege, [z1]: no zone is sent to the foreground, and the foreground
    id is still [z2]. *)
Lemma C6_failed_start_has_no_fallback :
  let w := Samples.world (Samples.config "z2")
             [("z1", Samples.zone "z1" 1 STOPPED false);
              ("z2", Samples.zone "z2" 2 STOPPED false);
              ("z3", Samples.zone "z3" 3 STOPPED false)]
             false [] (Samples.faultAt "z2" Samples.isStartOp) in
  let r := startAll w in
  outcome r = Throw failure
  /\ trace r = [ZoneCall "z1" Start; ZoneCall "z2" Start]
  /\ option_map state (mapFind "z2" (mContainers (final r))) = Some STOPPED
  /\ option_map state (mapFind "z3" (mContainers (final r))) = Some STOPPED
  /\ option_map fst (min_element (mContainers w)) = Some "z1"
  /\ option_map foreground (mapFind "z1" (mContainers (final r)))
     = Some false
  /\ filter isGoForeground (trace r) = []
  /\ foregroundId (mConfig (final r)) = "z2".
Proof. repeat split. Qed.

(** C6, amended.  For a map that is not empty.  [startAll] is to call
    [start] on every zone, in map order, and [goForeground] on the zone
    under the configured foreground id right after that zone's own start.
    If one of these calls fails, [startAll] throws that failure: it has made
    the calls up to the failing one and none after it, it has sent no zone
    but the configured one to the foreground (there is no fall-back), and
    the configuration is as it was.  If none of them fails, every zone has
    been started; when the configured foreground id is the key of a zone,
    [startAll] returns, that zone and no other has been sent
    [goForeground], and the foreground id stays; otherwise the zone of
    numerically smallest privilege, and among zones of that privilege the
    one with the least key, is sent [goForeground] after all the starts,
    its id having been recorded as [mConfig.foregroundId] before the call:
    [startAll] returns with that zone in the foreground, or throws if this
    last call fails.  In every case the zones are as the calls that have
    succeeded leave them.  In particular, with an empty foreground id and
    the zones zA (privilege 5), zB (privilege 1) and zC (privilege 3),
    [GetActiveZoneId] after [startAll] answers ["zB"]. *)
Theorem C6_startAll_foreground
  (w : World) (Hnonempty : mContainers w <> []) :
  let r := startAll w in
  let fg := foregroundId (mConfig w) in
  let ks := keys (mContainers w) in
  let faults := runtimeFaults w in
  let calls := startEvents fg ks in
  mContainers (final r) = replay faults (trace r) (mContainers w)
  /\ (existsb (eventFails faults) calls = true ->
      outcome r = Throw failure
      /\ trace r = upToFailure faults calls
      /\ (exists pre e rest,
            trace r = (pre ++ [e])%list
            /\ calls = (pre ++ e :: rest)%list
            /\ eventFails faults e = true
            /\ existsb (eventFails faults) pre = false)
      /\ (forall id, In (ZoneCall id GoForeground) (trace r) -> id = fg)
      /\ mConfig (final r) = mConfig w)
  /\ (existsb (eventFails faults) calls = false ->
      filter isStart (trace r) = map (fun id => ZoneCall id Start) ks
      /\ (In fg ks ->
          outcome r = Ret tt
          /\ trace r = calls
          /\ (exists pre post,
                trace r = (pre ++ ZoneCall fg Start
                               :: ZoneCall fg GoForeground :: post)%list)
          /\ foregroundId (mConfig (final r)) = fg
          /\ (NoDup ks ->
              filter isGoForeground (trace r) = [ZoneCall fg GoForeground]))
      /\ (~ In fg ks ->
          exists k c,
            min_element (mContainers w) = Some (k, c)
            /\ trace r = (map (fun id => ZoneCall id Start) ks
                          ++ [ZoneCall k GoForeground])%list
            /\ foregroundId (mConfig (final r)) = getId c
            /\ outcome r
               = (if faults k GoForeground then Throw failure else Ret tt)
            /\ (faults k GoForeground = false ->
                option_map foreground (mapFind k (mContainers (final r)))
                = Some true)
            /\ (forall k' c', In (k', c') (mContainers w) ->
                              getPrivilege c <= getPrivilege c')
            /\ (StronglySorted keyLt ks ->
                forall k' c', In (k', c') (mContainers w) ->
                              getPrivilege c' = getPrivilege c ->
                              k' = k \/ keyLt k k')))
  /\ replies (trace ((startAll ;; handleGetActiveContainerIdCall)
                       Samples.threeZones))
     = [ResultSet (g_variant_new_s "zB")].
Proof.
  intros r fg ks faults calls.
  split; [apply startAll_final |].
  freeze r as Er.
  rewrite (startAll_run w) in Er. cbv zeta in Er.
  fold fg ks faults calls in Er.
  set (started := replay faults calls (mContainers w)) in *.
  assert (Hsum : map summary started = map summary (mContainers w))
    by apply summary_replay.
  pose proof (min_element_summary _ _ Hsum) as Hmin.
  split; [| split; [| reflexivity]].
  - (* one of the calls fails *)
    intros Hf. rewrite Hf in Er. subst r. cbn [outcome final trace].
    split; [reflexivity |]. split; [reflexivity |]. split.
    { destruct (upToFailure_split faults calls Hf)
        as (pre & e & rest & E1 & E2 & E3 & E4).
      exists pre, e, rest. auto. }
    split; [| reflexivity].
    intros id Hin. apply upToFailure_incl in Hin.
    apply (startEvents_goForeground_only fg id ks). assumption.
  - (* none of them fails *)
    intros Hf. rewrite Hf in Er.
    destruct (existsb (fun id => String.eqb id fg) ks) eqn:Ex.
    + apply existsb_eqb_In in Ex. subst r; simpl.
      split; [apply startEvents_starts |]. split; [| tauto].
      intros _. split; [reflexivity |]. split; [reflexivity |].
      split; [apply startEvents_split; assumption |].
      split; [reflexivity |]. intros Hnd.
      apply startEvents_goForeground; assumption.
    + assert (Hnot : ~ In fg ks).
      { intros Hin. apply existsb_eqb_In in Hin. congruence. }
      destruct (min_element (mContainers w)) as [[k c] |] eqn:Em.
      2: { destruct (mContainers w); [congruence | discriminate]. }
      destruct (min_element started) as [[k1 c1] |] eqn:Em1;
        [| discriminate].
      simpl in Hmin. unfold summary in Hmin. simpl in Hmin.
      injection Hmin as Hk Hi Hp. subst k1.
      destruct (min_element_least _ _ _ Em) as (Hin & Hleast & Htie).
      subst r; cbn [outcome final trace]. unfold calls.
      split.
      { rewrite filter_app, startEvents_starts. simpl. apply app_nil_r. }
      split; [tauto |].
      intros _. exists k, c. split; [reflexivity |].
      rewrite (startEvents_not_configured fg ks Hnot).
      split; [reflexivity |]. split; [assumption |].
      split; [reflexivity |].
      split; [| split; assumption].
      intros Hg. simpl. rewrite Hg.
      rewrite mapFind_mapModify_same.
      destruct (mapFind k started) eqn:F; [reflexivity |].
      apply mapFind_None_not_In in F. exfalso. apply F.
      unfold started. rewrite keys_replay.
      apply in_map_iff. exists (k, c). auto.
Qed.

(** The scenario of the specification: its map is not empty, none of the
    calls fails and the empty foreground id is no key, and [zB] is recorded
    as the foreground zone. *)
Lemma C6_startAll_foreground_witness :
  foregroundId (mConfig (final (startAll Samples.threeZones))) = "zB".
Proof.
  pose proof (C6_startAll_foreground Samples.threeZones) as H.
  destruct H as (_ & _ & H & _); [discriminate |].
  destruct (H eq_refl) as (_ & _ & H').
  destruct H' as (k & c & Hmin & _ & Hfg & _).
  - simpl. intuition discriminate.
  - simpl in Hmin. injection Hmin as <- <-. exact Hfg.
Defined.

(* ===================================================================== *)
(** ** Notifications to the active container *)
(* ===================================================================== *)

Lemma findRunningForeground_found (m : ContainerMap) (fg : string) :
  (exists c, In (fg, c) m /\ isRunning c = true) ->
  findRunningForeground m fg = fg.
Proof.
  induction m as [| [k c] m IH]; simpl; intros [c' [Hin Hr]];
    [contradiction |].
  destruct (String.eqb k fg && isRunning c) eqn:E.
  - apply andb_true_iff in E as [E _]. apply String.eqb_eq in E. assumption.
  - destruct Hin as [Hin | Hin].
    + injection Hin as -> ->. rewrite String.eqb_refl, Hr in E. discriminate.
    + apply IH. exists c'. auto.
Qed.

Lemma findRunningForeground_none (m : ContainerMap) (fg : string) :
  ~ (exists c, In (fg, c) m /\ isRunning c = true) ->
  findRunningForeground m fg = "".
Proof.
  induction m as [| [k c] m IH]; simpl; intros H; [reflexivity |].
  destruct (String.eqb k fg && isRunning c) eqn:E.
  - apply andb_true_iff in E as [E1 E2]. apply String.eqb_eq in E1. subst.
    exfalso. apply H. exists c. auto.
  - apply IH. intros [c' [Hin Hr]]. apply H. exists c'. auto.
Qed.

Lemma mapModify_unchanged (id : string) (f : Container -> Container)
  (m : ContainerMap) :
  (forall c, f c = c) -> mapModify id f m = m.
Proof.
  intros Hf. induction m as [| [k c] m IH]; simpl; auto.
  destruct (String.eqb id k); [rewrite Hf | rewrite IH]; reflexivity.
Qed.

Lemma isEmpty_false (s : string) : s <> "" -> isEmpty s = false.
Proof. destruct s; [congruence | reflexivity]. Qed.

Lemma findRunningForeground_nonempty (m : ContainerMap) (fg : string) :
  findRunningForeground m fg <> "" ->
  exists c, In (fg, c) m /\ isRunning c = true.
Proof.
  induction m as [| [k c] m IH]; simpl; intros H; [congruence |].
  destruct (String.eqb k fg && isRunning c) eqn:E.
  - apply andb_true_iff in E as [E1 E2]. apply String.eqb_eq in E1. subst.
    exists c. auto.
  - destruct (IH H) as [c' [Hin Hr]]. exists c'. auto.
Qed.

Lemma getRunningForegroundContainerId_run (w : World) :
  getRunningForegroundContainerId w
  = mkRun (Ret (findRunningForeground (mContainers w)
                  (foregroundId (mConfig w)))) w [].
Proof. reflexivity. Qed.

(** C7.  [NotifyActiveContainer(app, msg)] from the zone [caller] always
    returns normally, whatever the runtime does, and leaves the manager as
    it was.  If a running zone is under the foreground id (zone ids are not
    empty) and it is not the caller, [sendNotification(caller, app, msg)] is
    called on that zone and on no other; if the delivery fails, the failure
    is logged as an error and goes no further.  If there is no running zone
    under the foreground id, or that zone is the caller, nothing is sent. *)
Theorem C7_notify_active_container
  (w : World) (caller application message : string) :
  let r := notifyActiveContainerHandler caller application message w in
  let fg := foregroundId (mConfig w) in
  let send := ZoneCall fg (SendNotification caller application message) in
  outcome r = Ret tt
  /\ final r = w
  /\ (runningForegroundExists w -> fg <> "" -> caller <> fg ->
      filter isZoneCall (trace r) = [send]
      /\ (runtimeFaults w fg (SendNotification caller application message)
          = false -> trace r = [send])
      /\ (runtimeFaults w fg (SendNotification caller application message)
          = true ->
          trace r = [send;
                     Log LogError ("Notification from " ++ caller
                                   ++ " hasn't been sent")]))
  /\ (~ runningForegroundExists w \/ caller = fg -> trace r = []).
Proof.
  intros r fg send.
  assert (Er : r = notifyActiveContainerHandler caller application message w)
    by reflexivity.
  assert (Efg : fg = foregroundId (mConfig w)) by reflexivity.
  assert (Esend : send
            = ZoneCall fg (SendNotification caller application message))
    by reflexivity.
  clearbody r send fg.
  unfold notifyActiveContainerHandler, tryCatch, bind in Er.
  rewrite getRunningForegroundContainerId_run in Er.
  cbn [outcome final trace] in Er.
  unfold runningForegroundExists. rewrite <- Efg in *.
  assert (Hnone : forall active,
            findRunningForeground (mContainers w) fg = active ->
            isEmpty active = true \/ caller = active ->
            r = mkRun (Ret tt) w []).
  { intros active Ea Hcase. rewrite Ea in Er.
    assert (Hif : negb (isEmpty active) && negb (String.eqb caller active)
                  = false).
    { destruct Hcase as [-> | ->]; [reflexivity |].
      rewrite String.eqb_refl. apply andb_false_iff. right; reflexivity. }
    rewrite Hif in Er. simpl in Er. assumption. }
  destruct (findRunningForeground (mContainers w) fg) as [| a s] eqn:Ea.
  - (* nothing is running under the foreground id *)
    rewrite (Hnone "" eq_refl (or_introl eq_refl)). simpl.
    split; [reflexivity |]. split; [reflexivity |].
    split; [| reflexivity].
    intros Hex Hfg _. rewrite (findRunningForeground_found _ _ Hex) in Ea.
    congruence.
  - assert (Hex : exists c, In (fg, c) (mContainers w)
                            /\ isRunning c = true).
    { apply findRunningForeground_nonempty. rewrite Ea. discriminate. }
    pose proof (findRunningForeground_found _ _ Hex) as Efound.
    rewrite Ea in Efound.
    destruct (String.eqb caller fg) eqn:Ec.
    + apply String.eqb_eq in Ec.
      rewrite (Hnone (String a s) eq_refl
                 (or_intror (eq_trans Ec (eq_sym Efound)))).
      simpl. split; [reflexivity |]. split; [reflexivity |].
      split; [| reflexivity].
      intros _ _ N. congruence.
    + rewrite Efound in Er. rewrite (isEmpty_false fg) in Er by congruence.
      rewrite Ec in Er. cbn [negb andb] in Er.
      rewrite zoneCall_run in Er.
      2: { destruct Hex as [c [Hin _]]. apply in_map_iff.
           exists (fg, c). auto. }
      rewrite mapModify_unchanged, withContainers_same in Er
        by reflexivity.
      rewrite <- Esend in Er. apply String.eqb_neq in Ec.
      assert (Hcaught : isSecurityContainersException
                          (zoneFailure w fg
                             (SendNotification caller application message))
                        = true)
        by (simpl; destruct (outsideServerException w fg); reflexivity).
      destruct (runtimeFaults w fg
                  (SendNotification caller application message)) eqn:Ef;
        cbn [outcome final trace] in Er; rewrite ?Hcaught in Er;
        subst r send; simpl.
      * split; [reflexivity |]. split; [reflexivity |]. split.
        -- intros _ _ _. split; [reflexivity |].
           split; [discriminate | reflexivity].
        -- intros [N | N]; [contradiction | congruence].
      * split; [reflexivity |]. split; [reflexivity |]. split.
        -- intros _ _ _. split; [reflexivity |].
           split; [reflexivity | discriminate].
        -- intros [N | N]; [contradiction | congruence].
Qed.

(** The scenario of the specification: [z1] is in the foreground, [z1] and
    [z2] are running, and [z2] notifies the active container. *)
Lemma C7_notify_active_container_witness :
  trace (notifyActiveContainerHandler "z2" "app" "hello"
           (Samples.twoZones RUNNING Samples.noFaults))
  = [ZoneCall "z1" (SendNotification "z2" "app" "hello")].
Proof.
  pose proof (C7_notify_active_container
                (Samples.twoZones RUNNING Samples.noFaults)
                "z2" "app" "hello") as (_ & _ & H & _).
  destruct H as (_ & H & _).
  - exists (Samples.zone "z1" 1 RUNNING true).
    split; [left; reflexivity | reflexivity].
  - discriminate.
  - discriminate.
  - apply H. reflexivity.
Defined.

(* ===================================================================== *)
(** ** [stopAll] and the destructor *)
(* ===================================================================== *)

Lemma stopAll_run (w : World) :
  stopAll w
  = mkRun (if anyFault (runtimeFaults w) Stop (keys (mContainers w))
           then Throw failure else Ret tt)
      (withContainers
         (modifyAll (completed (runtimeFaults w) Stop (keys (mContainers w)))
            (applyOp Stop) (mContainers w)) w)
      (map stopEvent (attempted (runtimeFaults w) Stop (keys (mContainers w)))).
Proof.
  unfold stopAll. rewrite bind_getWorld.
  apply forEach_zoneCall; [reflexivity | auto].
Qed.

Lemma destroyContainersManager_run (w : World) :
  mDetachOnExit w = false ->
  destroyContainersManager w
  = if anyFault (runtimeFaults w) Stop (keys (mContainers w))
    then mkRun (Ret tt) (final (stopAll w))
           (trace (stopAll w)
            ++ [Log LogError "Failed to stop all of the containers"])
    else stopAll w.
Proof.
  intros Hd. unfold destroyContainersManager. rewrite bind_getWorld, Hd.
  cbn [negb]. unfold tryCatch. rewrite stopAll_run.
  destruct (anyFault _ _ _); reflexivity.
Qed.

(** C8 as stated does not hold.  [z1] and [z2] are running and the stop
    of [z1] fails: [stopAll] throws after the call on [z1], [stop] is never
    called on [z2], and [z2] is still running, also when it is the
    destructor that has called [stopAll] and has logged the failure. *)
Lemma C8_failed_stop_strands_the_rest :
  let w := Samples.twoZones RUNNING (Samples.faultAt "z1" Samples.isStop) in
  trace (stopAll w) = [ZoneCall "z1" Stop]
  /\ outcome (stopAll w) = Throw failure
  /\ ~ In (ZoneCall "z2" Stop) (trace (stopAll w))
  /\ trace (destroyContainersManager w)
     = [ZoneCall "z1" Stop;
        Log LogError "Failed to stop all of the containers"]
  /\ ~ In (ZoneCall "z2" Stop) (trace (destroyContainersManager w))
  /\ option_map state
       (mapFind "z2" (mContainers (final (destroyContainersManager w))))
     = Some RUNNING.
Proof.
  repeat split.
  - intros [H | []]. discriminate.
  - intros [H | [H | []]]; discriminate.
Qed.

Lemma applyOp_settled (op : ZoneOp) (c : Container) :
  settled c -> settled (applyOp op c).
Proof.
  unfold settled. destruct op; simpl; auto;
    intros [H | H]; rewrite H; simpl; auto.
Qed.

Lemma mapModify_settled (id : string) (op : ZoneOp) (m : ContainerMap) :
  (forall k c, In (k, c) m -> settled c) ->
  forall k c, In (k, c) (mapModify id (applyOp op) m) -> settled c.
Proof.
  induction m as [| [k0 c0] m IH]; simpl; intros H k c Hin; [contradiction |].
  destruct (String.eqb id k0).
  - destruct Hin as [Hin | Hin].
    + injection Hin as <- <-. apply applyOp_settled. apply (H k0). auto.
    + apply (H k). auto.
  - destruct Hin as [Hin | Hin].
    + apply (H k). auto.
    + apply IH with (k := k); auto. intros k' c' Hin'. apply (H k'). auto.
Qed.

Lemma replay_settled faults (t : list Event) :
  forall m,
    (forall k c, In (k, c) m -> settled c) ->
    forall k c, In (k, c) (replay faults t m) -> settled c.
Proof.
  induction t as [| e t IH]; simpl; intros m H; [assumption |].
  apply IH. destruct e; simpl; auto.
  destruct (faults id op); [assumption |].
  apply mapModify_settled. assumption.
Qed.

Lemma allStopped_after_all (m : ContainerMap) :
  NoDup (keys m) ->
  (forall k c, In (k, c) m -> settled c) ->
  allStopped (modifyAll (keys m) (applyOp Stop) m).
Proof.
  intros Hnd Hs. rewrite modifyAll_keys by assumption.
  intros k c Hin. apply in_map_iff in Hin as [[k' c'] [E Hin]].
  injection E as <- <-. simpl.
  destruct (Hs _ _ Hin) as [H | H]; rewrite H; simpl; auto.
Qed.

(** A zone at rest is at rest after any calls, under the same key. *)
Lemma mapFind_replay_settled faults (t : list Event) :
  forall (m : ContainerMap) (k : string) (c0 : Container),
    mapFind k m = Some c0 -> settled c0 ->
    exists c1, mapFind k (replay faults t m) = Some c1 /\ settled c1.
Proof.
  induction t as [| e t IH]; intros m k c0 F Hs; simpl; [eauto |].
  destruct e as [id op | | | | |]; simpl; try (apply (IH m k c0); assumption).
  destruct (faults id op); [apply (IH m k c0); assumption |].
  destruct (string_dec id k) as [-> | N].
  - apply (IH _ k (applyOp op c0)).
    + rewrite mapFind_mapModify_same, F. reflexivity.
    + apply applyOp_settled. assumption.
  - apply (IH _ k c0); [| assumption].
    rewrite mapFind_mapModify_other by assumption. assumption.
Qed.

(** A zone at rest whose key is among those stopped is [STOPPED]
    afterwards. *)
Lemma mapFind_stopped (ids : list string) :
  forall (m : ContainerMap) (k : string) (c1 : Container),
    mapFind k m = Some c1 -> settled c1 ->
    exists c', mapFind k (modifyAll ids (applyOp Stop) m) = Some c'
               /\ (In k ids \/ state c1 = STOPPED -> state c' = STOPPED).
Proof.
  induction ids as [| id ids IH]; intros m k c1 F Hs; simpl.
  - exists c1. split; [assumption |]. intros [[] | H]; assumption.
  - destruct (string_dec id k) as [-> | N].
    + assert (Hstop : state (applyOp Stop c1) = STOPPED)
        by (destruct Hs as [E | E]; unfold applyOp; rewrite E;
            [exact E | reflexivity]).
      destruct (IH (mapModify k (applyOp Stop) m) k (applyOp Stop c1))
        as (c' & F' & H').
      * rewrite mapFind_mapModify_same, F. reflexivity.
      * apply applyOp_settled. assumption.
      * exists c'. split; [assumption |]. intros _. apply H'. right.
        assumption.
    + destruct (IH (mapModify id (applyOp Stop) m) k c1) as (c' & F' & H').
      * rewrite mapFind_mapModify_other by assumption. assumption.
      * assumption.
      * exists c'. split; [assumption |].
        intros [[E | Hin] | E]; [congruence | apply H'; left; assumption
                                | apply H'; right; assumption].
Qed.

(** C8, amended.  [stopAll] calls [stop] on the zones in map order up to
    and including the first zone whose stop fails; that failure leaves
    [stopAll] as an exception, so the zones after it are not stopped, and it
    is the destructor that catches and logs it (unless the manager is
    detached, when the destructor stops nothing).  When no stop fails,
    [stop] is called on every zone of the map; and if [startAll] has
    returned before, every zone that was [STOPPED] or [RUNNING] before
    [startAll] is [STOPPED] after [stopAll], so every zone is when all of
    them were.  (For a zone in another state the transitions of the
    specification give [start] and [stop] no row, and nothing is stated.) *)
Theorem C8_stopAll_until_first_failure (w : World) :
  let faults := runtimeFaults w in
  let ks := keys (mContainers w) in
  trace (stopAll w) = map stopEvent (attempted faults Stop ks)
  /\ (anyFault faults Stop ks = false ->
      outcome (stopAll w) = Ret tt /\ trace (stopAll w) = map stopEvent ks)
  /\ (anyFault faults Stop ks = true ->
      outcome (stopAll w) = Throw failure
      /\ (mDetachOnExit w = false ->
          outcome (destroyContainersManager w) = Ret tt
          /\ trace (destroyContainersManager w)
             = (trace (stopAll w)
                ++ [Log LogError "Failed to stop all of the containers"])%list))
  /\ (mDetachOnExit w = true ->
      destroyContainersManager w = mkRun (Ret tt) w [])
  /\ (outcome (startAll w) = Ret tt ->
      anyFault faults Stop ks = false ->
      let r := (startAll ;; stopAll) w in
      outcome r = Ret tt
      /\ filter isStopCall (trace r) = map stopEvent ks
      /\ (forall k c,
            mapFind k (mContainers w) = Some c -> settled c ->
            option_map state (mapFind k (mContainers (final r)))
            = Some STOPPED)
      /\ (NoDup ks ->
          (forall k c, In (k, c) (mContainers w) -> settled c) ->
          allStopped (mContainers (final r)))).
Proof.
  intros faults ks.
  split; [rewrite stopAll_run; reflexivity |].
  split.
  { intros Hf. rewrite stopAll_run. fold faults ks. rewrite Hf.
    rewrite (attempted_no_fault _ _ _ Hf). auto. }
  split.
  { intros Hf. split; [rewrite stopAll_run; fold faults ks; rewrite Hf; auto |].
    intros Hd. rewrite (destroyContainersManager_run w Hd).
    fold faults ks. rewrite Hf. auto. }
  split.
  { intros Hd. unfold destroyContainersManager.
    rewrite bind_getWorld, Hd. reflexivity. }
  intros Ho Hnf r.
  destruct (startAll_final w) as (Hm & Hfaults & Hstops).
  assert (Hkeys : keys (mContainers (final (startAll w))) = ks)
    by (rewrite Hm; apply keys_replay).
  assert (Hno : anyFault (runtimeFaults (final (startAll w))) Stop ks = false)
    by (rewrite Hfaults; assumption).
  subst r. unfold bind. rewrite Ho. cbn [outcome final trace].
  rewrite stopAll_run. rewrite Hkeys, Hno. cbn [outcome final trace].
  rewrite (attempted_no_fault _ _ _ Hno), (completed_no_fault _ _ _ Hno).
  split; [reflexivity |]. split; [| split].
  - rewrite filter_app, Hstops. cbn [app].
    clear. induction ks; simpl; [reflexivity | f_equal; assumption].
  - intros k c F Hs. rewrite mContainers_withContainers.
    destruct (mapFind_replay_settled (runtimeFaults w) (trace (startAll w))
                (mContainers w) k c F Hs) as (c1 & F1 & Hs1).
    rewrite <- Hm in F1.
    destruct (mapFind_stopped ks _ k c1 F1 Hs1) as (c' & F' & H').
    rewrite F'. simpl. f_equal. apply H'. left.
    apply (mapFind_Some_In_keys _ _ _ F).
  - intros Hnd Hsettled. rewrite mContainers_withContainers.
    rewrite <- Hkeys. apply allStopped_after_all.
    + rewrite Hkeys. assumption.
    + rewrite Hm. apply replay_settled. assumption.
Qed.

(** [z1] is running and [z2] is stopped, no call fails: the hypotheses of
    [C8_stopAll_until_first_failure] hold, and both are stopped after
    [startAll] and [stopAll]. *)
Lemma C8_stopAll_until_first_failure_witness :
  allStopped (mContainers (final ((startAll ;; stopAll)
                (Samples.twoZones STOPPED Samples.noFaults)))).
Proof.
  pose proof (C8_stopAll_until_first_failure
                (Samples.twoZones STOPPED Samples.noFaults))
    as (_ & _ & _ & _ & H).
  destruct (H eq_refl eq_refl) as (_ & _ & _ & H').
  apply H'.
  - simpl. repeat constructor; simpl; intuition discriminate.
  - simpl. intros k c [E | [E | []]]; injection E as <- <-;
      [right | left]; reflexivity.
Defined.

(* ===================================================================== *)
(** ** [GetActiveContainerId] *)
(* ===================================================================== *)

(** C9.  [GetActiveZoneId] completes only when [mConfig.foregroundId] is a
    key of the map: the handler indexes the map with [operator[]] and calls
    through the pointer it gets, so for a foreground id that is not a key
    (the empty id before [startAll] has chosen a zone, for one) it
    dereferences the null pointer [operator[]] has just put there, and
    replies nothing.  When the foreground id is a key, the handler returns,
    leaves the manager as it was, and replies the foreground id if that zone
    is running and the empty string if it is not. *)
Theorem C9_get_active_container_id (w : World) :
  let r := handleGetActiveContainerIdCall w in
  let fg := foregroundId (mConfig w) in
  (outcome r = Crash <-> ~ In fg (keys (mContainers w)))
  /\ (~ In fg (keys (mContainers w)) -> trace r = [])
  /\ (forall c,
        mapFind fg (mContainers w) = Some c ->
        outcome r = Ret tt /\ final r = w
        /\ trace r = [Reply (ResultSet
                               (g_variant_new_s
                                  (if isRunning c then fg else "")))])
  /\ outcome (handleGetActiveContainerIdCall Samples.threeZones) = Crash.
Proof.
  intros r fg.
  freeze r as Er.
  unfold handleGetActiveContainerIdCall in Er.
  rewrite bind_getWorld in Er. unfold bind, zoneGet in Er. fold fg in Er.
  rewrite <- mapFind_None_not_In.
  destruct (mapFind fg (mContainers w)) as [c |] eqn:F.
  - cbn [outcome final trace] in Er.
    assert (Er' : r = mkRun (Ret tt) w
                        [Reply (ResultSet
                                  (g_variant_new_s
                                     (if isRunning c then fg else "")))])
      by (rewrite Er; destruct (isRunning c); reflexivity).
    rewrite Er'. simpl.
    split; [split; discriminate |].
    split; [discriminate |].
    split; [| reflexivity].
    intros c' E. injection E as <-. auto.
  - rewrite Er. simpl.
    split; [split; reflexivity |].
    split; [reflexivity |].
    split; [discriminate | reflexivity].
Qed.

(** After [SetActiveZone("z2")] on two running zones the foreground id is a
    key of the map, and [GetActiveZoneId] answers ["z2"]. *)
Lemma C9_get_active_container_id_witness :
  trace (handleGetActiveContainerIdCall
           (final (handleSetActiveContainerCall "z2"
                     (Samples.twoZones RUNNING Samples.noFaults))))
  = [Reply (ResultSet (g_variant_new_s "z2"))].
Proof.
  pose proof (C9_get_active_container_id
                (final (handleSetActiveContainerCall "z2"
                          (Samples.twoZones RUNNING Samples.noFaults))))
    as (_ & _ & H & _).
  destruct (H _ eq_refl) as (_ & _ & Ht). exact Ht.
Defined.

(* ===================================================================== *)
(** ** What the constructor establishes *)
(* ===================================================================== *)

Lemma keyLt_lt (a b : string) : keyLt a b <-> String_as_OT.lt a b.
Proof.
  unfold keyLt, String.ltb. rewrite <- String_as_OT.cmp_lt.
  unfold String_as_OT.cmp. destruct (String.compare a b);
    split; congruence.
Qed.

Lemma keyLt_trans (a b c : string) : keyLt a b -> keyLt b c -> keyLt a c.
Proof.
  rewrite !keyLt_lt. apply String_as_OT.lt_trans.
Qed.

Lemma keyLt_irrefl (a : string) : ~ keyLt a a.
Proof.
  rewrite keyLt_lt. intros H.
  apply (String_as_OT.lt_not_eq a a H). reflexivity.
Qed.

Lemma keyLt_total (a b : string) :
  String.eqb a b = false -> String.ltb a b = false -> keyLt b a.
Proof.
  intros Hne Hlt. apply keyLt_lt. apply String_as_OT.cmp_lt.
  unfold String_as_OT.cmp. rewrite String.compare_antisym.
  unfold String.ltb in Hlt. apply String.eqb_neq in Hne.
  destruct (String.compare a b) eqn:E; simpl; try reflexivity.
  - apply String.compare_eq_iff in E. contradiction.
  - discriminate.
Qed.

Lemma ordered_NoDup (ks : list string) : StronglySorted keyLt ks -> NoDup ks.
Proof.
  induction 1 as [| k ks Hs IH Hall]; constructor; [| assumption].
  intros Hin. rewrite Forall_forall in Hall.
  apply (keyLt_irrefl k). auto.
Qed.

Lemma keys_mapInsert (id : string) (c : Container) (m : ContainerMap) :
  forall k, In k (keys (mapInsert id c m)) <-> k = id \/ In k (keys m).
Proof.
  induction m as [| [k0 c0] m IH]; simpl; intros k.
  - intuition.
  - destruct (String.eqb id k0) eqn:E.
    + apply String.eqb_eq in E. subst. simpl. intuition.
    + destruct (String.ltb id k0); simpl; [intuition |].
      rewrite IH. intuition.
Qed.

Lemma mapInsert_ordered (id : string) (c : Container) (m : ContainerMap) :
  StronglySorted keyLt (keys m) ->
  StronglySorted keyLt (keys (mapInsert id c m)).
Proof.
  induction m as [| [k0 c0] m IH]; simpl; intros Hs.
  - repeat constructor.
  - apply StronglySorted_inv in Hs as [Hs Hall].
    destruct (String.eqb id k0) eqn:E; [constructor; assumption |].
    destruct (String.ltb id k0) eqn:L; simpl.
    + constructor; [constructor; assumption |].
      constructor; [assumption |].
      eapply Forall_impl; [| eassumption].
      intros k Hk. eapply keyLt_trans; eassumption.
    + constructor; [auto |].
      apply Forall_forall. intros k Hk.
      apply keys_mapInsert in Hk as [-> | Hk].
      * apply keyLt_total; assumption.
      * rewrite Forall_forall in Hall. auto.
Qed.

Lemma mapInsert_In (id : string) (c : Container) (m : ContainerMap) :
  forall k c', In (k, c') (mapInsert id c m) ->
               (k, c') = (id, c) \/ In (k, c') m.
Proof.
  induction m as [| [k0 c0] m IH]; simpl; intros k c' Hin.
  - intuition.
  - destruct (String.eqb id k0); [simpl in Hin; intuition |].
    destruct (String.ltb id k0); simpl in Hin; [intuition |].
    destruct Hin as [Hin | Hin]; [intuition |].
    destruct (IH _ _ Hin); intuition.
Qed.

Lemma insertContainers_invariants (created : list Container) :
  forall m m',
    insertContainers created m = inr m' ->
    StronglySorted keyLt (keys m) ->
    (forall k c, In (k, c) m -> getId c = k) ->
    ~ In HOST_ID (keys m) ->
    StronglySorted keyLt (keys m')
    /\ (forall k c, In (k, c) m' -> getId c = k)
    /\ ~ In HOST_ID (keys m').
Proof.
  induction created as [| c created IH]; simpl; intros m m' E Hs Hid Hh.
  - injection E as <-. auto.
  - destruct (String.eqb (getId c) HOST_ID) eqn:Eh; [discriminate |].
    apply (IH _ _ E).
    + apply mapInsert_ordered. assumption.
    + intros k c' Hin. apply mapInsert_In in Hin as [Hin | Hin].
      * injection Hin as -> ->. reflexivity.
      * auto.
    + intros Hin. apply keys_mapInsert in Hin as [Hin | Hin]; [| auto].
      apply String.eqb_neq in Eh. congruence.
Qed.

(** X22.  A manager the constructor has built is well formed (the map is
    in key order, every zone is under its own id, ["host"] is no key and
    the default zone is there), its map is not empty and has no key twice,
    its configuration is the one given and its detach flag is off. *)
Theorem ContainersManager_wellFormed
  (config : ContainersManagerConfig) (created : list Container)
  (files : list string) (faults : string -> ZoneOp -> bool)
  (outside : string -> bool) (absolute : string -> string -> string)
  (w : World) :
  ContainersManager config created files faults outside absolute = inr w ->
  wellFormed w
  /\ NoDup (keys (mContainers w))
  /\ mContainers w <> []
  /\ mConfig w = config /\ mDetachOnExit w = false.
Proof.
  unfold ContainersManager.
  destruct (insertContainers created []) as [e | m] eqn:E; [discriminate |].
  destruct (mapFind (defaultId config) m) as [c |] eqn:F; [| discriminate].
  intros H. injection H as <-.
  destruct (insertContainers_invariants created [] m E) as (Hs & Hid & Hh).
  - constructor.
  - intros k c' [].
  - intros [].
  - simpl. split; [| split; [| split]].
    + constructor; simpl; auto. eapply mapFind_Some_In_keys; eassumption.
    + apply ordered_NoDup. assumption.
    + intros ->. discriminate.
    + auto.
Qed.

(* ===================================================================== *)
(** ** Every method keeps a manager well formed *)
(* ===================================================================== *)

Lemma mapFind_Some_In (id : string) (m : ContainerMap) (c : Container) :
  mapFind id m = Some c -> In (id, c) m.
Proof.
  induction m as [| [k c'] m IH]; simpl; [discriminate |].
  destruct (String.eqb id k) eqn:E; [| intros H; right; auto].
  apply String.eqb_eq in E. subst.
  intros H. injection H as ->. left; reflexivity.
Qed.

(** In a well-formed manager the zone found under an id has that id. *)
Lemma wellFormed_getId (w : World) (id : string) (c : Container) :
  wellFormed w -> mapFind id (mContainers w) = Some c -> getId c = id.
Proof.
  intros Hwf Hfind. apply (wfIds w Hwf). apply mapFind_Some_In. assumption.
Qed.

Lemma wellFormed_shape (w w' : World) :
  shape w' = shape w -> wellFormed w -> wellFormed w'.
Proof.
  unfold shape. intros E [Ho Hi Hh Hd]. injection E as Em Ed.
  assert (Ek : keys (mContainers w') = keys (mContainers w))
    by (rewrite !keys_summary, Em; reflexivity).
  constructor; rewrite ?Ek, ?Ed; try assumption.
  intros k c Hin.
  assert (Hs : In (summary (k, c)) (map summary (mContainers w)))
    by (rewrite <- Em; apply in_map; assumption).
  apply in_map_iff in Hs as [[k0 c0] [Es Hin0]].
  unfold summary in Es. simpl in Es. injection Es as -> Eid _.
  rewrite <- Eid. apply (Hi _ _ Hin0).
Qed.

Section KeepsShape.

Context {A B : Type}.

Lemma keepsShape_ret (a : A) : keepsShape (ret a).
Proof. intros w. reflexivity. Qed.

Lemma keepsShape_bind (m : M A) (f : A -> M B) :
  keepsShape m -> (forall a, keepsShape (f a)) -> keepsShape (bind m f).
Proof.
  intros Hm Hf w. unfold bind. specialize (Hm w).
  destruct (outcome (m w)); simpl; [rewrite Hf | |]; assumption.
Qed.

Lemma keepsShape_getWorld_bind (f : World -> M A) :
  (forall w, shape (final (f w w)) = shape w) ->
  keepsShape (w <- getWorld ;; f w).
Proof.
  intros H w. rewrite bind_getWorld. apply H.
Qed.

Lemma keepsShape_update (g : World -> World) (k : M A) :
  (forall w, shape (g w) = shape w) -> keepsShape k ->
  keepsShape (w <- getWorld ;; putWorld (g w) ;; k).
Proof.
  intros Hg Hk. apply keepsShape_getWorld_bind. intros w.
  unfold bind. simpl. rewrite Hk. apply Hg.
Qed.

Lemma keepsShape_tryCatch (body : M A) (caught : Exn -> bool)
  (handler : Exn -> M A) :
  keepsShape body -> (forall e, keepsShape (handler e)) ->
  keepsShape (tryCatch body caught handler).
Proof.
  intros Hb Hh w. unfold tryCatch. specialize (Hb w).
  destruct (outcome (body w)) as [a | e |]; try assumption.
  destruct (caught e); simpl; [rewrite Hh |]; assumption.
Qed.

End KeepsShape.

Lemma keepsShape_emit (e : Event) : keepsShape (emit e).
Proof. intros w. reflexivity. Qed.

Lemma keepsShape_zoneCall (id : string) (op : ZoneOp) :
  keepsShape (zoneCall id op).
Proof.
  intros w. unfold zoneCall.
  destruct (mapFind id (mContainers w)); [| reflexivity].
  destruct (runtimeFaults w id op); [reflexivity |].
  unfold shape. simpl. rewrite summary_mapModify. reflexivity.
Qed.

Lemma keepsShape_forEach (ids : list string) (body : string -> M unit) :
  (forall id, keepsShape (body id)) -> keepsShape (forEach ids body).
Proof.
  intros Hb. induction ids as [| id ids IH]; simpl.
  - apply keepsShape_ret.
  - apply keepsShape_bind; auto.
Qed.

Lemma keepsShape_focus (id : string) : keepsShape (focus id).
Proof.
  unfold focus. apply keepsShape_bind.
  { intros w. unfold mapAt. destruct (mapFind id (mContainers w));
      reflexivity. }
  intros target. apply keepsShape_getWorld_bind. intros w.
  apply keepsShape_bind.
  { apply keepsShape_forEach. intros k. apply keepsShape_zoneCall. }
  intros _. apply keepsShape_bind.
  { intros w1. unfold zoneGet. destruct (mapFind target (mContainers w1));
      reflexivity. }
  intros recorded.
  apply (keepsShape_update (withForegroundId recorded)).
  - reflexivity.
  - apply keepsShape_zoneCall.
Qed.

Lemma keepsShape_startAllLoop (ids : list string) :
  forall found, keepsShape (startAllLoop ids found).
Proof.
  induction ids as [| id ids IH]; intros found; simpl.
  - apply keepsShape_ret.
  - apply keepsShape_bind; [apply keepsShape_zoneCall |].
    intros _. intros w. rewrite bind_getWorld.
    destruct (String.eqb id (foregroundId (mConfig w))); [| apply IH].
    apply keepsShape_bind; [apply keepsShape_zoneCall | intros _; apply IH].
Qed.

Lemma keepsShape_startAll : keepsShape startAll.
Proof.
  unfold startAll. apply keepsShape_getWorld_bind. intros w.
  apply keepsShape_bind; [apply keepsShape_startAllLoop |].
  intros found. destruct (negb found); [| apply keepsShape_ret].
  intros w1. rewrite bind_getWorld.
  destruct (min_element (mContainers w1)) as [[k c] |]; [| reflexivity].
  unfold bind. simpl. rewrite keepsShape_zoneCall. reflexivity.
Qed.

Lemma keepsShape_stopAll : keepsShape stopAll.
Proof.
  unfold stopAll. apply keepsShape_getWorld_bind. intros w.
  apply keepsShape_forEach. intros k. apply keepsShape_zoneCall.
Qed.

(** X23.  The invariants the constructor establishes hold after every
    method of the manager that changes the zones or the foreground id,
    whatever the runtime does. *)
Theorem methods_keep_wellFormed (w : World) :
  wellFormed w ->
  (forall id, wellFormed (final (focus id w)))
  /\ wellFormed (final (startAll w))
  /\ wellFormed (final (stopAll w))
  /\ (forall id, wellFormed (final (handleSetActiveContainerCall id w)))
  /\ (forall caller, wellFormed (final (displayOffHandler caller w))).
Proof.
  intros Hwf.
  assert (Hkeep : forall (m : M unit), keepsShape m -> wellFormed (final (m w)))
    by (intros m Hm; apply (wellFormed_shape w); [apply Hm | assumption]).
  split; [intros id; apply Hkeep, keepsShape_focus |].
  split; [apply Hkeep, keepsShape_startAll |].
  split; [apply Hkeep, keepsShape_stopAll |].
  split.
  - intros id. apply Hkeep. unfold handleSetActiveContainerCall.
    apply keepsShape_getWorld_bind. intros w0.
    destruct (mapFind id (mContainers w0)) as [c |]; [| reflexivity].
    destruct (isStopped c); [reflexivity |].
    apply keepsShape_bind; [apply keepsShape_focus |].
    intros _. apply keepsShape_emit.
  - intros caller. apply Hkeep. unfold displayOffHandler.
    apply keepsShape_bind; [intros w0; reflexivity |].
    intros active. apply keepsShape_getWorld_bind. intros w0.
    destruct (mapFind active (mContainers w0)) as [c |]; [| reflexivity].
    destruct (isSwitchToDefaultAfterTimeoutAllowed c); [| reflexivity].
    apply keepsShape_focus.
Qed.

(* ===================================================================== *)
(** ** The scenarios of the specification *)
(* ===================================================================== *)

(** Proxy-call policy: [z1] may call the host, [z2] may not. *)
Example scenario_proxy_call_policy :
  let w := Samples.twoZones RUNNING Samples.noFaults in
  trace (handleProxyCall "z1" "host" "org.foo" "/" "org.foo" "Ping"
           (GTuple []) w)
  = [HostProxyCallAsync "org.foo" "/" "org.foo" "Ping" (GTuple [])]
  /\ replies (trace (handleProxyCall "z2" "host" "org.foo" "/" "org.foo"
                       "Ping" (GTuple []) w))
     = [ResultSetError ERROR_FORBIDDEN "Proxy call forbidden"].
Proof. split; reflexivity. Qed.

(** File move: the file of [z1] ends up under [z2], the reply is
    [FILE_MOVE_SUCCEEDED] and [z2] is notified. *)
Example scenario_file_move :
  let r := handleContainerMoveFileRequest "z1" "z2" "/tmp/a"
             (Samples.twoZones RUNNING Samples.noFaults) in
  trace r
  = [MoveFile "/var/zones/z1/tmp/a" "/var/zones/z2/tmp/a";
     Reply (fileMoveReply FILE_MOVE_SUCCEEDED);
     ZoneCall "z2" (SendNotification "z1" "/tmp/a" FILE_MOVE_SUCCEEDED)]
  /\ hostFiles (final r) = ["/var/zones/z2/tmp/a"].
Proof. split; reflexivity. Qed.

(** A path outside [/tmp/] is refused before any file is touched. *)
Example scenario_file_move_refused :
  let r := handleContainerMoveFileRequest "z1" "z2" "/etc/passwd"
             (Samples.twoZones RUNNING Samples.noFaults) in
  replies (trace r) = [fileMoveReply FILE_MOVE_NO_PERMISSIONS_SEND]
  /\ hostFiles (final r) = ["/var/zones/z1/tmp/a"].
Proof. split; reflexivity. Qed.

(** Default-zone validation: a default id that no configured zone has makes
    the constructor throw; a zone with the reserved id does so too. *)
Example scenario_default_zone_validation :
  ContainersManager (mkConfig "ghost" "" "/var/zones" [])
    [Samples.zone "z1" 1 STOPPED false] [] Samples.noFaults
    Samples.serverFaults Samples.posixAbsolute
  = inl (ServerException "Provided default container ID ghost is invalid.")
  /\ ContainersManager (mkConfig "z1" "" "/var/zones" [])
       [Samples.zone "z1" 1 STOPPED false;
        Samples.zone "host" 2 STOPPED false] [] Samples.noFaults
       Samples.serverFaults Samples.posixAbsolute
     = inl (ServerException "Cannot use reserved container ID").
Proof. split; reflexivity. Qed.

(** The constructor puts the zones of the foreground scenario in key
    order, whatever the order of their configuration files. *)
Example scenario_constructor_orders_zones :
  ContainersManager (mkConfig "zA" "" "/var/zones" [])
    [Samples.zone "zC" 3 STOPPED false; Samples.zone "zA" 5 STOPPED false;
     Samples.zone "zB" 1 STOPPED false] [] Samples.noFaults
    Samples.serverFaults Samples.posixAbsolute
  = inr Samples.threeZones.
Proof. reflexivity. Qed.

(** [displayOffHandler] goes back to the default zone when the zone in the
    foreground allows it. *)
Example scenario_display_off :
  let w := Samples.world (Samples.config "z2")
             [("z1", Samples.zone "z1" 1 RUNNING false);
              ("z2", mkContainer "z2" 2 [] [] true "" RUNNING true false)]
             false [] Samples.noFaults in
  trace (displayOffHandler "z2" w)
  = [ZoneCall "z1" GoBackground; ZoneCall "z2" GoBackground;
     ZoneCall "z1" GoForeground]
  /\ foregroundId (mConfig (final (displayOffHandler "z2" w))) = "z1".
Proof. split; reflexivity. Qed.

(** A notification that cannot be delivered is logged, and the handler
    returns all the same. *)
Example scenario_notification_failure :
  let r := notifyActiveContainerHandler "z2" "app" "hello"
             (Samples.twoZones RUNNING
                (Samples.faultAt "z1" Samples.isSendNotification)) in
  outcome r = Ret tt
  /\ trace r = [ZoneCall "z1" (SendNotification "z2" "app" "hello");
                Log LogError "Notification from z2 hasn't been sent"].
Proof. split; reflexivity. Qed.

(* ===================================================================== *)
(** ** The constructor: which configurations it accepts *)
(* ===================================================================== *)

Lemma ordered_head_absent (k k0 : string) (c0 : Container) (m : ContainerMap) :
  StronglySorted keyLt (keys ((k0, c0) :: m)) -> keyLt k k0 ->
  mapFind k ((k0, c0) :: m) = None.
Proof.
  intros Hs Hlt. apply mapFind_None_not_In. simpl.
  apply StronglySorted_inv in Hs as [_ Hall]. rewrite Forall_forall in Hall.
  intros [E | Hin].
  - subst. apply (keyLt_irrefl k). assumption.
  - apply (keyLt_irrefl k). eapply keyLt_trans; [eassumption | auto].
Qed.

(** [insert] into an ordered map: an entry that is there stays, a new key
    gets the new entry. *)
Lemma mapFind_mapInsert (id k : string) (c : Container) (m : ContainerMap) :
  StronglySorted keyLt (keys m) ->
  mapFind id (mapInsert k c m)
  = match mapFind id m with
    | Some x => Some x
    | None => if String.eqb id k then Some c else None
    end.
Proof.
  induction m as [| [k0 c0] m IH]; intros Hs.
  - simpl. destruct (String.eqb id k); reflexivity.
  - simpl mapInsert. destruct (String.eqb k k0) eqn:E.
    + apply String.eqb_eq in E. subst k0.
      destruct (mapFind id ((k, c0) :: m)) eqn:F; [reflexivity |].
      simpl in F. destruct (String.eqb id k); [discriminate | reflexivity].
    + destruct (String.ltb k k0) eqn:L.
      * destruct (String.eqb id k) eqn:Eid.
        -- apply String.eqb_eq in Eid. subst id.
           rewrite (ordered_head_absent k k0 c0 m Hs L).
           simpl. rewrite String.eqb_refl. reflexivity.
        -- change (mapFind id ((k, c) :: (k0, c0) :: m))
             with (if String.eqb id k then Some c
                   else mapFind id ((k0, c0) :: m)).
           rewrite Eid. destruct (mapFind id ((k0, c0) :: m)); reflexivity.
      * simpl. destruct (String.eqb id k0); [reflexivity |].
        apply IH. simpl in Hs. apply StronglySorted_inv in Hs as [Hs _].
        assumption.
Qed.

Lemma insertContainers_reserved (created : list Container) :
  forall m,
    (exists c, In c created /\ getId c = HOST_ID) ->
    insertContainers created m
    = inl (ServerException "Cannot use reserved container ID").
Proof.
  induction created as [| c created IH]; intros m [x [Hin Hx]];
    [contradiction |].
  simpl. destruct (String.eqb (getId c) HOST_ID) eqn:E; [reflexivity |].
  apply IH. destruct Hin as [-> | Hin].
  - apply String.eqb_neq in E. contradiction.
  - exists x. auto.
Qed.

Lemma insertContainers_accepts (created : list Container) :
  forall m,
    (forall c, In c created -> getId c <> HOST_ID) ->
    exists m', insertContainers created m = inr m'.
Proof.
  induction created as [| c created IH]; intros m Hno; simpl.
  - exists m. reflexivity.
  - rewrite (proj2 (String.eqb_neq _ _) (Hno c (or_introl eq_refl))).
    apply IH. intros x Hx. apply Hno. right; assumption.
Qed.

Lemma insertContainers_lookup (created : list Container) :
  forall m m',
    StronglySorted keyLt (keys m) ->
    insertContainers created m = inr m' ->
    forall id,
      mapFind id m'
      = match mapFind id m with
        | Some x => Some x
        | None => firstWithId id created
        end.
Proof.
  induction created as [| c created IH]; simpl; intros m m' Hs E id.
  - injection E as <-. destruct (mapFind id m); reflexivity.
  - destruct (String.eqb (getId c) HOST_ID); [discriminate |].
    rewrite (IH _ _ (mapInsert_ordered _ _ _ Hs) E id).
    rewrite (mapFind_mapInsert id (getId c) c m Hs).
    destruct (mapFind id m); [reflexivity |].
    unfold firstWithId. simpl.
    destruct (String.eqb id (getId c)); reflexivity.
Qed.

Lemma firstWithId_In (id : string) (created : list Container) :
  firstWithId id created <> None <-> In id (map getId created).
Proof.
  unfold firstWithId. induction created as [| c created IH]; simpl.
  - split; [congruence | tauto].
  - destruct (String.eqb id (getId c)) eqn:E.
    + apply String.eqb_eq in E. split; [auto | discriminate].
    + apply String.eqb_neq in E. rewrite IH.
      split; [auto | intros [H | H]; [congruence | assumption]].
Qed.

(** X1.  The constructor throws when one of the containers it has created
    has the reserved id ["host"], whatever the default id is; with no such
    container it throws when the default id is the id of none of them; in
    every other case, and in no other, it builds a manager. *)
Theorem X1_constructor_accepts_iff
  (config : ContainersManagerConfig) (created : list Container)
  (files : list string) (faults : string -> ZoneOp -> bool)
  (outside : string -> bool) (absolute : string -> string -> string) :
  let built :=
    ContainersManager config created files faults outside absolute in
  ((exists c, In c created /\ getId c = HOST_ID) ->
   built = inl (ServerException "Cannot use reserved container ID"))
  /\ ((forall c, In c created -> getId c <> HOST_ID) ->
      ~ In (defaultId config) (map getId created) ->
      built = inl (ServerException ("Provided default container ID "
                                    ++ defaultId config ++ " is invalid.")))
  /\ ((exists w, built = inr w)
      <-> (forall c, In c created -> getId c <> HOST_ID)
          /\ In (defaultId config) (map getId created)).
Proof.
  intros built. subst built. unfold ContainersManager.
  assert (Hhost : (exists c, In c created /\ getId c = HOST_ID)
                  \/ (forall c, In c created -> getId c <> HOST_ID)).
  { clear. induction created as [| c created IH].
    - right. intros c [].
    - destruct (String.eqb (getId c) HOST_ID) eqn:E.
      + apply String.eqb_eq in E. left. exists c. split; [left |]; auto.
      + apply String.eqb_neq in E. destruct IH as [[x [Hin Hx]] | IH].
        * left. exists x. split; [right |]; auto.
        * right. intros x [<- | Hx]; auto. }
  assert (Hgood : forall m,
            insertContainers created [] = inr m ->
            mapFind (defaultId config) m = firstWithId (defaultId config) created).
  { intros m E.
    rewrite (insertContainers_lookup created [] m (SSorted_nil _) E).
    reflexivity. }
  split; [| split].
  - intros Hex. rewrite (insertContainers_reserved created [] Hex).
    reflexivity.
  - intros Hno Hdef.
    destruct (insertContainers_accepts created [] Hno) as [m E].
    rewrite E, (Hgood m E).
    destruct (firstWithId (defaultId config) created) eqn:F; [| reflexivity].
    exfalso. apply Hdef. apply firstWithId_In. congruence.
  - split.
    + intros [w E]. destruct Hhost as [Hex | Hno].
      * rewrite (insertContainers_reserved created [] Hex) in E. discriminate.
      * split; [assumption |].
        destruct (insertContainers_accepts created [] Hno) as [m Em].
        rewrite Em, (Hgood m Em) in E. apply firstWithId_In.
        destruct (firstWithId (defaultId config) created);
          [discriminate | discriminate].
    + intros [Hno Hdef].
      destruct (insertContainers_accepts created [] Hno) as [m Em].
      rewrite Em, (Hgood m Em). apply firstWithId_In in Hdef.
      destruct (firstWithId (defaultId config) created);
        [eexists; reflexivity | congruence].
Qed.

(** A default id no zone has: the second hypothesis chain of
    [X1_constructor_accepts_iff] holds and the constructor throws. *)
Lemma X1_constructor_accepts_iff_witness :
  ContainersManager (mkConfig "ghost" "" "/var/zones" [])
    [Samples.zone "z1" 1 STOPPED false] [] Samples.noFaults
    Samples.serverFaults Samples.posixAbsolute
  = inl (ServerException "Provided default container ID ghost is invalid.").
Proof.
  apply (X1_constructor_accepts_iff (mkConfig "ghost" "" "/var/zones" [])
           [Samples.zone "z1" 1 STOPPED false] [] Samples.noFaults
           Samples.serverFaults Samples.posixAbsolute).
  - intros c [<- | []]. discriminate.
  - simpl. intros [H | []]. discriminate.
Defined.

(** X2.  In a manager the constructor has built, the zone under an id is the
    first of the created containers with that id: when two configuration
    files give the same id, the second container is dropped without an
    error, and an id no container has is not in the map. *)
Theorem X2_constructor_first_config_wins
  (config : ContainersManagerConfig) (created : list Container)
  (files : list string) (faults : string -> ZoneOp -> bool)
  (outside : string -> bool) (absolute : string -> string -> string)
  (w : World)
  (Hbuilt : ContainersManager config created files faults outside absolute
            = inr w) :
  (forall id, mapFind id (mContainers w) = firstWithId id created)
  /\ (forall id, In id (keys (mContainers w)) <-> In id (map getId created))
  /\ mConfig w = config /\ hostFiles w = files /\ runtimeFaults w = faults.
Proof.
  unfold ContainersManager in Hbuilt.
  destruct (insertContainers created []) as [e | m] eqn:E; [discriminate |].
  destruct (mapFind (defaultId config) m); [| discriminate].
  injection Hbuilt as <-. simpl.
  assert (Hlook : forall id, mapFind id m = firstWithId id created).
  { intros id.
    rewrite (insertContainers_lookup created [] m (SSorted_nil _) E).
    reflexivity. }
  split; [assumption |]. split; [| auto].
  intros id. rewrite <- mapFind_In_keys, Hlook. apply firstWithId_In.
Qed.

(** Two configurations with the id [z1]: the hypothesis of
    [X2_constructor_first_config_wins] holds, and the zone in the map is the
    one of privilege 1. *)
Lemma X2_constructor_first_config_wins_witness :
  option_map getPrivilege
    (mapFind "z1"
       (mContainers
          (Samples.world (mkConfig "z1" "" "/var/zones" [])
             [("z1", Samples.zone "z1" 1 STOPPED false)]
             false [] Samples.noFaults)))
  = Some 1.
Proof.
  pose proof (X2_constructor_first_config_wins
                (mkConfig "z1" "" "/var/zones" [])
                [Samples.zone "z1" 1 STOPPED false;
                 Samples.zone "z1" 7 RUNNING true]
                [] Samples.noFaults Samples.serverFaults Samples.posixAbsolute
                (Samples.world (mkConfig "z1" "" "/var/zones" [])
                   [("z1", Samples.zone "z1" 1 STOPPED false)]
                   false [] Samples.noFaults)
                eq_refl) as [H _].
  rewrite (H "z1"). reflexivity.
Defined.

(** The zones of the foreground scenario, given out of order: the
    hypothesis of [ContainersManager_wellFormed] holds, and no key of the
    map is there twice. *)
Lemma ContainersManager_wellFormed_witness :
  NoDup (keys (mContainers Samples.threeZones)).
Proof.
  apply (ContainersManager_wellFormed (mkConfig "zA" "" "/var/zones" [])
           [Samples.zone "zC" 3 STOPPED false;
            Samples.zone "zA" 5 STOPPED false;
            Samples.zone "zB" 1 STOPPED false] [] Samples.noFaults
           Samples.serverFaults Samples.posixAbsolute
           Samples.threeZones eq_refl).
Defined.

(* ===================================================================== *)
(** ** What the methods leave alone *)
(* ===================================================================== *)

Section Preserves.

Context {T : Type} (proj : World -> T).

Lemma preserves_ret {A : Type} (a : A) : preserves proj (ret a).
Proof. intros w. reflexivity. Qed.

Lemma preserves_emit (e : Event) : preserves proj (emit e).
Proof. intros w. reflexivity. Qed.

Lemma preserves_bind {A B : Type} (m : M A) (f : A -> M B) :
  preserves proj m -> (forall a, preserves proj (f a)) ->
  preserves proj (bind m f).
Proof.
  intros Hm Hf w. unfold bind. specialize (Hm w).
  destruct (outcome (m w)); simpl; [rewrite Hf | |]; assumption.
Qed.

Lemma preserves_getWorld_bind {A : Type} (f : World -> M A) :
  (forall w, proj (final (f w w)) = proj w) ->
  preserves proj (w <- getWorld ;; f w).
Proof.
  intros H w. rewrite bind_getWorld. apply H.
Qed.

Lemma preserves_tryCatch {A : Type} (body : M A) (caught : Exn -> bool)
  (handler : Exn -> M A) :
  preserves proj body -> (forall e, preserves proj (handler e)) ->
  preserves proj (tryCatch body caught handler).
Proof.
  intros Hb Hh w. unfold tryCatch. specialize (Hb w).
  destruct (outcome (body w)) as [a | e |]; try assumption.
  destruct (caught e); simpl; [rewrite Hh |]; assumption.
Qed.

Lemma preserves_forEach (ids : list string) (body : string -> M unit) :
  (forall id, preserves proj (body id)) -> preserves proj (forEach ids body).
Proof.
  intros Hb. induction ids as [| id ids IH]; simpl.
  - apply preserves_ret.
  - apply preserves_bind; auto.
Qed.

(** A call on a zone changes the map of containers and nothing else. *)
Lemma preserves_zoneCall (id : string) (op : ZoneOp) :
  (forall m w, proj (withContainers m w) = proj w) ->
  preserves proj (zoneCall id op).
Proof.
  intros Hp w. unfold zoneCall.
  destruct (mapFind id (mContainers w)); [| reflexivity].
  destruct (runtimeFaults w id op); [reflexivity | apply Hp].
Qed.

Lemma preserves_zoneGet {A : Type} (id : string) (getter : Container -> A) :
  preserves proj (zoneGet id getter).
Proof.
  intros w. unfold zoneGet. destruct (mapFind id (mContainers w)); reflexivity.
Qed.

Lemma preserves_mapAt (id : string) : preserves proj (mapAt id).
Proof.
  intros w. unfold mapAt. destruct (mapFind id (mContainers w)); reflexivity.
Qed.

End Preserves.

Lemma keepsShape_preserves {A : Type} (m : M A) :
  keepsShape m <-> preserves shape m.
Proof. split; intros H w; apply H. Qed.

Lemma preserves_shape_zoneCall (id : string) (op : ZoneOp) :
  preserves shape (zoneCall id op).
Proof. apply keepsShape_preserves, keepsShape_zoneCall. Qed.

Lemma preserves_shape_focus (id : string) : preserves shape (focus id).
Proof. apply keepsShape_preserves, keepsShape_focus. Qed.

Lemma preserves_shape_stopAll : preserves shape stopAll.
Proof. apply keepsShape_preserves, keepsShape_stopAll. Qed.

Lemma preserves_shape_moveFile (src dst : string) :
  preserves shape (moveFile src dst).
Proof.
  intros w. unfold moveFile.
  destruct (existsb (String.eqb src) (hostFiles w)); reflexivity.
Qed.

Lemma preserves_shape_destroy : preserves shape destroyContainersManager.
Proof.
  unfold destroyContainersManager. apply preserves_getWorld_bind. intros w.
  destruct (negb (mDetachOnExit w)); [| reflexivity].
  apply preserves_tryCatch; [apply preserves_shape_stopAll |].
  intros e. apply preserves_emit.
Qed.

Lemma preserves_shape_setDetach : preserves shape setContainersDetachOnExit.
Proof.
  unfold setContainersDetachOnExit. apply preserves_getWorld_bind. intros w.
  unfold bind. simpl.
  rewrite (preserves_forEach shape (keys (mContainers w))
             (fun id => zoneCall id SetDetachOnExit)
             (fun id => preserves_shape_zoneCall id SetDetachOnExit)).
  reflexivity.
Qed.

Lemma preserves_shape_notify (caller application message : string) :
  preserves shape (notifyActiveContainerHandler caller application message).
Proof.
  unfold notifyActiveContainerHandler.
  apply preserves_tryCatch; [| intros e; apply preserves_emit].
  apply preserves_bind; [intros w; reflexivity |].
  intros active. destruct (negb (isEmpty active) && _).
  - apply preserves_shape_zoneCall.
  - apply preserves_ret.
Qed.

Lemma preserves_shape_displayOff (caller : string) :
  preserves shape (displayOffHandler caller).
Proof.
  unfold displayOffHandler. apply preserves_bind; [intros w; reflexivity |].
  intros active. apply preserves_getWorld_bind. intros w.
  destruct (mapFind active (mContainers w)) as [c |]; [| reflexivity].
  destruct (isSwitchToDefaultAfterTimeoutAllowed c); [| reflexivity].
  apply preserves_shape_focus.
Qed.

Lemma preserves_shape_moveRequest (src dst path : string) :
  preserves shape (handleContainerMoveFileRequest src dst path).
Proof.
  unfold handleContainerMoveFileRequest.
  apply preserves_getWorld_bind. intros w.
  destruct (mapFind src (mContainers w)) as [sc |]; [| reflexivity].
  destruct (mapFind dst (mContainers w)) as [dc |]; [| reflexivity].
  destruct (String.eqb src dst); [reflexivity |].
  destruct (negb (regexMatchVector path (getPermittedToSend sc)));
    [reflexivity |].
  destruct (negb (regexMatchVector path (getPermittedToRecv dc)));
    [reflexivity |].
  apply preserves_bind; [apply preserves_shape_moveFile |].
  intros moved. destruct (negb moved); [intros w'; reflexivity |].
  apply preserves_bind; [apply preserves_emit |]. intros _.
  apply preserves_tryCatch; [apply preserves_shape_zoneCall |].
  intros e. apply preserves_emit.
Qed.

Lemma preserves_shape_proxyCall
  (caller target bus path iface method : string) (parameters : GVariant) :
  preserves shape
    (handleProxyCall caller target bus path iface method parameters).
Proof.
  unfold handleProxyCall. apply preserves_getWorld_bind. intros w.
  destruct (negb (isProxyCallAllowed _ _ _ _ _ _ _)); [reflexivity |].
  destruct (String.eqb target HOST_ID); [reflexivity |].
  destruct (mapFind target (mContainers w)); [| reflexivity].
  apply preserves_shape_zoneCall.
Qed.

Lemma preserves_shape_setActive (id : string) :
  preserves shape (handleSetActiveContainerCall id).
Proof.
  unfold handleSetActiveContainerCall. apply preserves_getWorld_bind.
  intros w.
  destruct (mapFind id (mContainers w)) as [c |]; [| reflexivity].
  destruct (isStopped c); [reflexivity |].
  apply preserves_bind; [apply preserves_shape_focus |].
  intros _. apply preserves_emit.
Qed.

Lemma preserves_shape_getActive :
  preserves shape handleGetActiveContainerIdCall.
Proof.
  unfold handleGetActiveContainerIdCall. apply preserves_getWorld_bind.
  intros w. apply preserves_bind; [apply preserves_zoneGet |].
  intros running. destruct running; apply preserves_emit.
Qed.

(** X3.  No method of the manager inserts or erases a zone, moves a zone
    to another key, changes the id or the privilege of a zone or changes the
    default id, however the container runtime behaves and however the method
    ends. *)
Theorem X3_methods_keep_the_zones :
  (forall id, preserves shape (focus id))
  /\ preserves shape startAll
  /\ preserves shape stopAll
  /\ preserves shape destroyContainersManager
  /\ preserves shape setContainersDetachOnExit
  /\ preserves shape switchingSequenceMonitorNotify
  /\ (forall caller application message,
        preserves shape
          (notifyActiveContainerHandler caller application message))
  /\ (forall caller, preserves shape (displayOffHandler caller))
  /\ (forall src dst path,
        preserves shape (handleContainerMoveFileRequest src dst path))
  /\ (forall caller target bus path iface method parameters,
        preserves shape
          (handleProxyCall caller target bus path iface method parameters))
  /\ preserves shape handleGetContainerDbuses
  /\ (forall id address, preserves shape (handleDbusStateChanged id address))
  /\ preserves shape handleGetContainerIdsCall
  /\ preserves shape handleGetActiveContainerIdCall
  /\ (forall id, preserves shape (handleSetActiveContainerCall id)).
Proof.
  repeat split; intros;
    first [ apply preserves_shape_focus
          | apply keepsShape_preserves, keepsShape_startAll
          | apply preserves_shape_stopAll
          | apply preserves_shape_destroy
          | apply preserves_shape_setDetach
          | apply preserves_shape_notify
          | apply preserves_shape_displayOff
          | apply preserves_shape_moveRequest
          | apply preserves_shape_proxyCall
          | apply preserves_shape_getActive
          | apply preserves_shape_setActive
          | (intros w; reflexivity) ].
Qed.

Section Frames.

Context {T : Type} (proj : World -> T).
Hypothesis ignoresContainers : forall m w, proj (withContainers m w) = proj w.

Lemma frame_stopAll : preserves proj stopAll.
Proof.
  unfold stopAll. apply preserves_getWorld_bind. intros w.
  apply preserves_forEach. intros id. apply preserves_zoneCall. assumption.
Qed.

Lemma frame_destroy : preserves proj destroyContainersManager.
Proof.
  unfold destroyContainersManager. apply preserves_getWorld_bind. intros w.
  destruct (negb (mDetachOnExit w)); [| reflexivity].
  apply preserves_tryCatch; [apply frame_stopAll |].
  intros e. apply preserves_emit.
Qed.

Lemma frame_notify (caller application message : string) :
  preserves proj (notifyActiveContainerHandler caller application message).
Proof.
  unfold notifyActiveContainerHandler.
  apply preserves_tryCatch; [| intros e; apply preserves_emit].
  apply preserves_bind; [intros w; reflexivity |].
  intros active. destruct (negb (isEmpty active) && _).
  - apply preserves_zoneCall. assumption.
  - apply preserves_ret.
Qed.

Lemma frame_proxyCall
  (caller target bus path iface method : string) (parameters : GVariant) :
  preserves proj
    (handleProxyCall caller target bus path iface method parameters).
Proof.
  unfold handleProxyCall. apply preserves_getWorld_bind. intros w.
  destruct (negb (isProxyCallAllowed _ _ _ _ _ _ _)); [reflexivity |].
  destruct (String.eqb target HOST_ID); [reflexivity |].
  destruct (mapFind target (mContainers w)); [| reflexivity].
  apply preserves_zoneCall. assumption.
Qed.

Lemma frame_getActive : preserves proj handleGetActiveContainerIdCall.
Proof.
  unfold handleGetActiveContainerIdCall. apply preserves_getWorld_bind.
  intros w. apply preserves_bind; [apply preserves_zoneGet |].
  intros running. destruct running; apply preserves_emit.
Qed.

Hypothesis ignoresForegroundId :
  forall id w, proj (withForegroundId id w) = proj w.

Lemma frame_focus (id : string) : preserves proj (focus id).
Proof.
  unfold focus. apply preserves_bind; [apply preserves_mapAt |].
  intros target. apply preserves_getWorld_bind. intros w.
  apply preserves_bind.
  { apply preserves_forEach. intros k. apply preserves_zoneCall. assumption. }
  intros _. apply preserves_bind; [apply preserves_zoneGet |].
  intros recorded. apply preserves_getWorld_bind. intros w1.
  unfold bind. simpl.
  rewrite (preserves_zoneCall proj target GoForeground ignoresContainers).
  apply ignoresForegroundId.
Qed.

Lemma frame_startAllLoop (ids : list string) :
  forall found, preserves proj (startAllLoop ids found).
Proof.
  induction ids as [| id ids IH]; intros found; simpl.
  - apply preserves_ret.
  - apply preserves_bind; [apply preserves_zoneCall; assumption |].
    intros _. intros w. rewrite bind_getWorld.
    destruct (String.eqb id (foregroundId (mConfig w))); [| apply IH].
    apply preserves_bind;
      [apply preserves_zoneCall; assumption | intros _; apply IH].
Qed.

Lemma frame_startAll : preserves proj startAll.
Proof.
  unfold startAll. apply preserves_getWorld_bind. intros w.
  apply preserves_bind; [apply frame_startAllLoop |].
  intros found. destruct (negb found); [| apply preserves_ret].
  intros w1. rewrite bind_getWorld.
  destruct (min_element (mContainers w1)) as [[k c] |]; [| reflexivity].
  unfold bind. simpl.
  rewrite (preserves_zoneCall proj k GoForeground ignoresContainers).
  apply ignoresForegroundId.
Qed.

Lemma frame_setActive (id : string) :
  preserves proj (handleSetActiveContainerCall id).
Proof.
  unfold handleSetActiveContainerCall. apply preserves_getWorld_bind.
  intros w.
  destruct (mapFind id (mContainers w)) as [c |]; [| reflexivity].
  destruct (isStopped c); [reflexivity |].
  apply preserves_bind; [apply frame_focus |].
  intros _. apply preserves_emit.
Qed.

Lemma frame_displayOff (caller : string) :
  preserves proj (displayOffHandler caller).
Proof.
  unfold displayOffHandler. apply preserves_bind; [intros w; reflexivity |].
  intros active. apply preserves_getWorld_bind. intros w.
  destruct (mapFind active (mContainers w)) as [c |]; [| reflexivity].
  destruct (isSwitchToDefaultAfterTimeoutAllowed c); [| reflexivity].
  apply frame_focus.
Qed.

End Frames.

Lemma frame_moveRequest {T : Type} (proj : World -> T)
  (src dst path : string) :
  (forall m w, proj (withContainers m w) = proj w) ->
  (forall files w, proj (withHostFiles files w) = proj w) ->
  preserves proj (handleContainerMoveFileRequest src dst path).
Proof.
  intros Hc Hf. unfold handleContainerMoveFileRequest.
  apply preserves_getWorld_bind. intros w.
  destruct (mapFind src (mContainers w)) as [sc |]; [| reflexivity].
  destruct (mapFind dst (mContainers w)) as [dc |]; [| reflexivity].
  destruct (String.eqb src dst); [reflexivity |].
  destruct (negb (regexMatchVector path (getPermittedToSend sc)));
    [reflexivity |].
  destruct (negb (regexMatchVector path (getPermittedToRecv dc)));
    [reflexivity |].
  apply preserves_bind.
  { intros w'. unfold moveFile.
    destruct (existsb _ (hostFiles w')); [apply Hf | reflexivity]. }
  intros moved. destruct (negb moved); [intros w'; reflexivity |].
  apply preserves_bind; [apply preserves_emit |]. intros _.
  apply preserves_tryCatch; [apply preserves_zoneCall; assumption |].
  intros e. apply preserves_emit.
Qed.

Lemma frame_setDetach {T : Type} (proj : World -> T) :
  (forall m w, proj (withContainers m w) = proj w) ->
  (forall b w, proj (withDetachOnExit b w) = proj w) ->
  preserves proj setContainersDetachOnExit.
Proof.
  intros Hc Hd. unfold setContainersDetachOnExit.
  apply preserves_getWorld_bind. intros w. unfold bind. simpl.
  rewrite (preserves_forEach proj (keys (mContainers w))
             (fun id => zoneCall id SetDetachOnExit)
             (fun id => preserves_zoneCall proj id SetDetachOnExit Hc)).
  apply Hd.
Qed.

(** X4.  What each method leaves alone, however it ends.  Stopping the
    zones, the destructor, a notification, a proxy call and the three
    queries never change the configuration (the foreground id with it), the
    files of the host or the detach flag.  [focus], [startAll],
    [SetActiveContainer] and the display-off handler may change the
    foreground id, but never the default id, the containers path, the
    proxy-call rules, the files of the host or the detach flag.  The file
    move changes neither the configuration nor the detach flag, and
    [setContainersDetachOnExit] neither the configuration nor the files. *)
Theorem X4_methods_frame :
  (preserves managerFrame stopAll
   /\ preserves managerFrame destroyContainersManager
   /\ (forall caller application message,
         preserves managerFrame
           (notifyActiveContainerHandler caller application message))
   /\ (forall caller target bus path iface method parameters,
         preserves managerFrame
           (handleProxyCall caller target bus path iface method parameters))
   /\ preserves managerFrame handleGetContainerDbuses
   /\ preserves managerFrame handleGetContainerIdsCall
   /\ preserves managerFrame handleGetActiveContainerIdCall)
  /\ ((forall id, preserves settingsFrame (focus id))
      /\ preserves settingsFrame startAll
      /\ (forall id, preserves settingsFrame (handleSetActiveContainerCall id))
      /\ (forall caller, preserves settingsFrame (displayOffHandler caller)))
  /\ (forall src dst path,
        preserves (fun w => (mConfig w, mDetachOnExit w))
          (handleContainerMoveFileRequest src dst path))
  /\ preserves (fun w => (mConfig w, hostFiles w)) setContainersDetachOnExit.
Proof.
  split; [| split; [| split]].
  - split; [apply frame_stopAll; reflexivity |].
    split; [apply frame_destroy; reflexivity |].
    split; [intros; apply frame_notify; reflexivity |].
    split; [intros; apply frame_proxyCall; reflexivity |].
    split; [intros w; reflexivity |].
    split; [intros w; reflexivity |].
    apply frame_getActive; reflexivity.
  - split; [intros; apply frame_focus; reflexivity |].
    split; [apply frame_startAll; reflexivity |].
    split; [intros; apply frame_setActive; reflexivity |].
    intros; apply frame_displayOff; reflexivity.
  - intros. apply frame_moveRequest; reflexivity.
  - apply frame_setDetach; reflexivity.
Qed.

(* ===================================================================== *)
(** ** The foreground id stays the key of a zone *)
(* ===================================================================== *)

Lemma bind_Ret_inv {A B : Type} (m : M A) (f : A -> M B) (w : World) (b : B) :
  outcome (bind m f w) = Ret b ->
  exists a, outcome (m w) = Ret a /\ outcome (f a (final (m w))) = Ret b.
Proof.
  unfold bind. destruct (outcome (m w)) as [a | e |]; simpl; intros H;
    [exists a; auto | discriminate | discriminate].
Qed.

Lemma mConfig_zoneCall (id : string) (op : ZoneOp) :
  preserves mConfig (zoneCall id op).
Proof. apply preserves_zoneCall. reflexivity. Qed.

Lemma keys_of_shape (w w' : World) :
  shape w' = shape w -> keys (mContainers w') = keys (mContainers w).
Proof.
  unfold shape. intros E. injection E as Em _.
  rewrite !keys_summary, Em. reflexivity.
Qed.

(** The loop of [startAll] answers whether the configured foreground id is
    one of the keys it has gone through. *)
Lemma startAllLoop_found (ids : list string) :
  forall found w b,
    outcome (startAllLoop ids found w) = Ret b ->
    b = found
        || existsb (fun id => String.eqb id (foregroundId (mConfig w))) ids.
Proof.
  induction ids as [| id ids IH]; intros found w b H.
  - simpl in H. injection H as <-. simpl. rewrite orb_false_r. reflexivity.
  - simpl in H. apply bind_Ret_inv in H as [u [_ H]].
    rewrite bind_getWorld in H.
    rewrite (mConfig_zoneCall id Start w) in H.
    simpl existsb.
    destruct (String.eqb id (foregroundId (mConfig w))) eqn:E.
    + apply bind_Ret_inv in H as [u' [_ H]].
      apply IH in H. rewrite H. simpl. rewrite orb_true_r. reflexivity.
    + apply IH in H. rewrite H.
      rewrite (mConfig_zoneCall id Start w). reflexivity.
Qed.

Lemma fgValid_transfer (w w' : World) :
  shape w' = shape w ->
  foregroundId (mConfig w') = foregroundId (mConfig w) ->
  fgValid w -> fgValid w'.
Proof.
  unfold fgValid. intros Hs Hf H. rewrite Hf, (keys_of_shape _ _ Hs).
  assumption.
Qed.

Lemma focus_fgValid (w : World) (id : string) :
  wellFormed w ->
  (fgValid w -> fgValid (final (focus id w)))
  /\ (outcome (focus id w) = Ret tt ->
      foregroundId (mConfig (final (focus id w))) = id
      /\ fgValid (final (focus id w))).
Proof.
  intros Hwf.
  assert (Hkeys : keys (mContainers (final (focus id w)))
                  = keys (mContainers w))
    by (apply keys_of_shape, preserves_shape_focus).
  destruct (mapFind id (mContainers w)) as [c |] eqn:F.
  - pose proof (wellFormed_getId w id c Hwf F) as Hc.
    pose proof (mapFind_Some_In_keys _ _ _ F) as Hin.
    unfold fgValid. rewrite Hkeys.
    rewrite (focus_run w id c F), Hc.
    destruct (anyFault _ GoBackground _); simpl.
    + split; [auto | discriminate].
    + destruct (runtimeFaults w id GoForeground); simpl;
        (split; [auto | first [discriminate | auto]]).
  - rewrite (focus_unknown w id F). simpl.
    split; [auto | discriminate].
Qed.

Lemma startAll_fgValid (w : World) :
  wellFormed w ->
  (fgValid w -> fgValid (final (startAll w)))
  /\ (outcome (startAll w) = Ret tt -> fgValid (final (startAll w))).
Proof.
  intros Hwf.
  assert (Hkeys : keys (mContainers (final (startAll w)))
                  = keys (mContainers w))
    by (apply keys_of_shape, keepsShape_preserves, keepsShape_startAll).
  unfold fgValid. rewrite Hkeys. clear Hkeys.
  remember (startAll w) as r eqn:Er.
  unfold startAll in Er. rewrite bind_getWorld in Er. unfold bind at 1 in Er.
  set (loop := startAllLoop (keys (mContainers w)) false w) in Er.
  assert (Hcfg : mConfig (final loop) = mConfig w)
    by (apply (frame_startAllLoop mConfig); reflexivity).
  assert (Hshape : shape (final loop) = shape w)
    by apply keepsShape_startAllLoop.
  destruct (outcome loop) as [b | e |] eqn:Eo.
  2: { rewrite Er. simpl. rewrite Hcfg. split; [auto | discriminate]. }
  2: { rewrite Er. simpl. rewrite Hcfg. split; [auto | discriminate]. }
  apply startAllLoop_found in Eo. simpl in Eo.
  destruct b; cbn [negb] in Er.
  - rewrite Er. simpl. rewrite Hcfg.
    symmetry in Eo. apply existsb_eqb_In in Eo. auto.
  - rewrite bind_getWorld in Er.
    destruct (min_element (mContainers (final loop))) as [[k c] |] eqn:Em.
    + unfold bind in Er. cbn [putWorld outcome final trace] in Er.
      assert (Hfg : foregroundId (mConfig (final r)) = getId c).
      { rewrite Er. cbn [final].
        rewrite (mConfig_zoneCall k GoForeground). reflexivity. }
      assert (Hin : In (getId c) (keys (mContainers w))).
      { destruct (min_element_least _ _ _ Em) as (Hin & _).
        pose proof (wellFormed_shape w (final loop) Hshape Hwf) as Hwf'.
        rewrite (wfIds _ Hwf' _ _ Hin).
        rewrite <- (keys_of_shape _ _ Hshape).
        apply in_map_iff. exists (k, c). auto. }
      rewrite Hfg. auto.
    + rewrite Er. simpl. rewrite Hcfg. split; [auto | discriminate].
Qed.

Lemma getActive_returns (w : World) :
  fgValid w -> outcome (handleGetActiveContainerIdCall w) = Ret tt.
Proof.
  intros Hv. apply mapFind_In_keys in Hv.
  unfold handleGetActiveContainerIdCall. rewrite bind_getWorld.
  unfold bind, zoneGet.
  destruct (mapFind (foregroundId (mConfig w)) (mContainers w)) as [c |];
    [| congruence].
  simpl. destruct (isRunning c); reflexivity.
Qed.

(** X5.  In a well-formed manager: when [startAll] returns, the foreground
    id is the key of a zone, and when [focus(id)] returns, the foreground id
    is [id]; once the foreground id is the key of a zone it stays one
    through [startAll], [focus], [SetActiveContainer] and the display-off
    handler, also when they throw.  So [GetActiveContainerId] returns
    normally from the first completed [startAll] on. *)
Theorem X5_foreground_id_is_a_key (w : World) (Hwf : wellFormed w) :
  (outcome (startAll w) = Ret tt ->
     fgValid (final (startAll w))
     /\ outcome (handleGetActiveContainerIdCall (final (startAll w))) = Ret tt)
  /\ (forall id, outcome (focus id w) = Ret tt ->
        foregroundId (mConfig (final (focus id w))) = id
        /\ fgValid (final (focus id w)))
  /\ (fgValid w ->
      fgValid (final (startAll w))
      /\ (forall id, fgValid (final (focus id w)))
      /\ (forall id, fgValid (final (handleSetActiveContainerCall id w)))
      /\ (forall caller, fgValid (final (displayOffHandler caller w)))).
Proof.
  split; [| split].
  - intros Hok. pose proof (proj2 (startAll_fgValid w Hwf) Hok) as Hv.
    split; [assumption | apply getActive_returns; assumption].
  - intros id. apply (proj2 (focus_fgValid w id Hwf)).
  - intros Hv.
    split; [apply (proj1 (startAll_fgValid w Hwf)); assumption |].
    split; [intros id; apply (proj1 (focus_fgValid w id Hwf)); assumption |].
    split.
    + intros id. unfold handleSetActiveContainerCall. rewrite bind_getWorld.
      destruct (mapFind id (mContainers w)) as [c |]; [| assumption].
      destruct (isStopped c); [assumption |].
      pose proof (proj1 (focus_fgValid w id Hwf) Hv) as Hf.
      unfold bind. destruct (outcome (focus id w)); simpl; assumption.
    + intros caller. unfold displayOffHandler, bind.
      rewrite getRunningForegroundContainerId_run.
      cbn [outcome final trace getWorld].
      destruct (mapFind _ (mContainers w)) as [c |]; [| assumption].
      destruct (isSwitchToDefaultAfterTimeoutAllowed c); [| assumption].
      cbn [final]. apply (proj1 (focus_fgValid w _ Hwf)). assumption.
Qed.

(** The foreground scenario is well formed: the hypothesis of
    [X5_foreground_id_is_a_key] holds, and [GetActiveContainerId] returns
    after [startAll]. *)
Lemma X5_foreground_id_is_a_key_witness :
  outcome (handleGetActiveContainerIdCall (final (startAll Samples.threeZones)))
  = Ret tt.
Proof.
  assert (Hwf : wellFormed Samples.threeZones).
  { constructor; simpl.
    - repeat constructor.
    - intros k c [E | [E | [E | []]]]; injection E as <- <-; reflexivity.
    - intuition discriminate.
    - left; reflexivity. }
  apply (X5_foreground_id_is_a_key Samples.threeZones Hwf). reflexivity.
Defined.

(* ===================================================================== *)
(** ** [focus]: unknown ids, and the state it leaves *)
(* ===================================================================== *)

Lemma focus_outcome (w : World) (id : string) :
  In id (keys (mContainers w)) ->
  outcome (focus id w) = Ret tt \/ outcome (focus id w) = Throw failure.
Proof.
  intros Hin. apply mapFind_In_keys in Hin.
  destruct (mapFind id (mContainers w)) as [c |] eqn:F; [| congruence].
  rewrite (focus_run w id c F).
  destruct (anyFault _ _ _); [right; reflexivity |].
  destruct (runtimeFaults w id GoForeground); [right | left]; reflexivity.
Qed.

(** X6.  [focus] on an id that is not in the map throws [std::out_of_range]
    at once: no zone is called and nothing changes; and that is the only way
    [focus] throws it.  The exception cannot leave [SetActiveContainer],
    which looks the id up first, nor, in a well-formed manager, the
    display-off handler, whose target is the default zone. *)
Theorem X6_out_of_range (w : World) :
  (forall id, ~ In id (keys (mContainers w)) ->
              focus id w = mkRun (Throw OutOfRange) w [])
  /\ (forall id, outcome (focus id w) = Throw OutOfRange
                 <-> ~ In id (keys (mContainers w)))
  /\ (forall id,
        outcome (handleSetActiveContainerCall id w) <> Throw OutOfRange)
  /\ (wellFormed w ->
      forall caller, outcome (displayOffHandler caller w) <> Throw OutOfRange).
Proof.
  assert (Hunknown : forall id, ~ In id (keys (mContainers w)) ->
                                focus id w = mkRun (Throw OutOfRange) w []).
  { intros id Hnot. apply mapFind_None_not_In in Hnot.
    unfold focus, bind, mapAt. rewrite Hnot. reflexivity. }
  assert (Hknown : forall id, In id (keys (mContainers w)) ->
                              outcome (focus id w) <> Throw OutOfRange).
  { intros id Hin. destruct (focus_outcome w id Hin) as [E | E]; rewrite E;
      discriminate. }
  split; [assumption |]. split; [| split].
  - intros id. split.
    + intros E Hin. apply (Hknown id Hin E).
    + intros Hnot. rewrite (Hunknown id Hnot). reflexivity.
  - intros id. unfold handleSetActiveContainerCall. rewrite bind_getWorld.
    destruct (mapFind id (mContainers w)) as [c |] eqn:F; [| discriminate].
    destruct (isStopped c); [discriminate |].
    pose proof (focus_outcome w id (mapFind_Some_In_keys _ _ _ F)) as Ho.
    unfold bind. destruct Ho as [E | E]; rewrite E; simpl; discriminate.
  - intros Hwf caller. unfold displayOffHandler, bind.
    rewrite getRunningForegroundContainerId_run.
    cbn [outcome final trace getWorld].
    destruct (mapFind _ (mContainers w)) as [c |]; [| discriminate].
    destruct (isSwitchToDefaultAfterTimeoutAllowed c); [| discriminate].
    cbn [outcome]. apply Hknown. apply (wfDefault w Hwf).
Qed.

Lemma mapModify_map (id : string) (f g : Container -> Container)
  (m : ContainerMap) :
  NoDup (keys m) ->
  mapModify id f (map (fun kc => (fst kc, g (snd kc))) m)
  = map (fun kc => (fst kc, if String.eqb (fst kc) id
                            then f (g (snd kc)) else g (snd kc))) m.
Proof.
  induction m as [| [k c] m IH]; simpl; intros Hnd; [reflexivity |].
  inversion Hnd as [| ? ? Hnot Hnd']; subst.
  destruct (String.eqb id k) eqn:E.
  - apply String.eqb_eq in E. subst k. rewrite String.eqb_refl.
    f_equal. apply map_ext_in. intros [k' c'] Hin. simpl.
    destruct (String.eqb k' id) eqn:E'; [| reflexivity].
    apply String.eqb_eq in E'. subst k'. exfalso. apply Hnot.
    apply in_map_iff. exists (id, c'). auto.
  - rewrite String.eqb_sym, E. f_equal. apply IH. assumption.
Qed.

(** The world [focus(id)] leaves when the runtime reports no failure. *)
Lemma focus_final (w : World) (id : string) (c : Container) :
  mapFind id (mContainers w) = Some c ->
  NoDup (keys (mContainers w)) ->
  (forall k, runtimeFaults w k GoBackground = false) ->
  runtimeFaults w id GoForeground = false ->
  focus id w
  = mkRun (Ret tt)
      (withContainers (focused id (mContainers w))
         (withForegroundId (getId c) w))
      (map goBackgroundEvent (keys (mContainers w))
       ++ [ZoneCall id GoForeground]).
Proof.
  intros F Hnd Hbg Hfg. rewrite (focus_run w id c F).
  assert (Hno : anyFault (runtimeFaults w) GoBackground
                  (keys (mContainers w)) = false)
    by (apply anyFault_false; intros; apply Hbg).
  rewrite Hno, Hfg.
  rewrite (attempted_no_fault _ _ _ Hno), (completed_no_fault _ _ _ Hno).
  rewrite (modifyAll_keys _ _ Hnd), (mapModify_map _ _ _ _ Hnd).
  unfold focused. f_equal. unfold withContainers, withForegroundId. simpl.
  f_equal. apply map_ext. intros [k k']. simpl.
  destruct (String.eqb k id); reflexivity.
Qed.

Lemma keys_focused (id : string) (m : ContainerMap) :
  keys (focused id m) = keys m.
Proof.
  unfold focused, keys. rewrite map_map. reflexivity.
Qed.

Lemma mapFind_focused (id k : string) (m : ContainerMap) :
  mapFind k (focused id m)
  = option_map (setForeground (String.eqb k id)) (mapFind k m).
Proof.
  induction m as [| [k0 c0] m IH]; simpl; [reflexivity |].
  destruct (String.eqb k k0) eqn:E; [| assumption].
  apply String.eqb_eq in E. subst. reflexivity.
Qed.

Lemma focused_twice (id : string) (m : ContainerMap) :
  focused id (focused id m) = focused id m.
Proof.
  unfold focused. rewrite map_map. apply map_ext. intros [k c]. reflexivity.
Qed.

(** X7.  When the runtime reports no failure, [focus(id)] on a zone of the
    map leaves every zone as it was but for the foreground flag, which the
    zone under [id] has and no other zone has. *)
Theorem X7_focus_leaves_one_foreground
  (w : World) (id : string) (c : Container)
  (Hid : mapFind id (mContainers w) = Some c)
  (Hnodup : NoDup (keys (mContainers w)))
  (Hback : forall k, runtimeFaults w k GoBackground = false)
  (Hfore : runtimeFaults w id GoForeground = false) :
  let r := focus id w in
  outcome r = Ret tt
  /\ mContainers (final r) = focused id (mContainers w)
  /\ onlyForeground id (mContainers (final r))
  /\ (forall k, option_map state (mapFind k (mContainers (final r)))
                = option_map state (mapFind k (mContainers w))).
Proof.
  intros r. subst r. rewrite (focus_final w id c Hid Hnodup Hback Hfore).
  simpl. split; [reflexivity |]. split; [reflexivity |]. split.
  - intros k c' Hin. unfold focused in Hin.
    apply in_map_iff in Hin as [[k0 c0] [E _]]. simpl in E.
    injection E as <- <-. reflexivity.
  - intros k. rewrite mapFind_focused.
    destruct (mapFind k (mContainers w)); reflexivity.
Qed.

(** [focus("z2")] on two running zones with [z1] in the foreground: the
    hypotheses of [X7_focus_leaves_one_foreground] hold, and afterwards [z1]
    is in the background. *)
Lemma X7_focus_leaves_one_foreground_witness :
  option_map foreground
    (mapFind "z1"
       (mContainers (final (focus "z2"
                              (Samples.twoZones RUNNING Samples.noFaults)))))
  = Some false.
Proof.
  pose proof (X7_focus_leaves_one_foreground
                (Samples.twoZones RUNNING Samples.noFaults) "z2"
                (Samples.zone "z2" 2 RUNNING false) eq_refl) as H.
  destruct H as (_ & Hm & _).
  - simpl. repeat constructor; simpl; intuition discriminate.
  - reflexivity.
  - reflexivity.
  - rewrite Hm. reflexivity.
Defined.

(** X8.  [focus] is idempotent on the state: when the runtime reports no
    failure, [focus(id)] twice leaves the manager as [focus(id)] once. *)
Theorem X8_focus_idempotent
  (w : World) (id : string) (c : Container)
  (Hid : mapFind id (mContainers w) = Some c)
  (Hnodup : NoDup (keys (mContainers w)))
  (Hback : forall k, runtimeFaults w k GoBackground = false)
  (Hfore : runtimeFaults w id GoForeground = false) :
  outcome ((focus id ;; focus id) w) = Ret tt
  /\ final ((focus id ;; focus id) w) = final (focus id w).
Proof.
  unfold bind. rewrite (focus_final w id c Hid Hnodup Hback Hfore).
  cbn [outcome final trace].
  set (w1 := withContainers (focused id (mContainers w))
               (withForegroundId (getId c) w)).
  assert (F1 : mapFind id (mContainers w1)
               = Some (setForeground (String.eqb id id) c))
    by (simpl; rewrite mapFind_focused, Hid; reflexivity).
  rewrite (focus_final w1 id _ F1).
  - cbn [outcome final]. split; [reflexivity |].
    unfold w1. simpl. rewrite focused_twice. reflexivity.
  - simpl. rewrite keys_focused. assumption.
  - assumption.
  - assumption.
Qed.

(** The same zones: the hypotheses of [X8_focus_idempotent] hold. *)
Lemma X8_focus_idempotent_witness :
  final ((focus "z2" ;; focus "z2")
           (Samples.twoZones RUNNING Samples.noFaults))
  = final (focus "z2" (Samples.twoZones RUNNING Samples.noFaults)).
Proof.
  apply (X8_focus_idempotent
           (Samples.twoZones RUNNING Samples.noFaults) "z2"
           (Samples.zone "z2" 2 RUNNING false) eq_refl).
  - simpl. repeat constructor; simpl; intuition discriminate.
  - reflexivity.
  - reflexivity.
Defined.

(* ===================================================================== *)
(** ** [SetActiveContainer] and [GetActiveContainerId] together *)
(* ===================================================================== *)

Lemma isRunning_not_stopped (c : Container) :
  isRunning c = true -> isStopped c = false.
Proof.
  unfold isRunning, isStopped. destruct (state c); simpl; congruence.
Qed.

Lemma NoDup_keys_unique (m : ContainerMap) (k : string) (c c' : Container) :
  NoDup (keys m) -> mapFind k m = Some c -> In (k, c') m -> c' = c.
Proof.
  induction m as [| [k0 c0] m IH]; simpl; intros Hnd F Hin; [contradiction |].
  inversion Hnd as [| ? ? Hnot Hnd']; subst.
  destruct (String.eqb k k0) eqn:E.
  - apply String.eqb_eq in E. subst k0. injection F as <-.
    destruct Hin as [Hin | Hin]; [congruence |].
    exfalso. apply Hnot. apply in_map_iff. exists (k, c'). auto.
  - apply String.eqb_neq in E. destruct Hin as [Hin | Hin]; [congruence |].
    auto.
Qed.

(** X9.  With a runtime that reports no failure, [SetActiveContainer(id)]
    on a running zone that is in the map under its own id, followed by
    [GetActiveContainerId], answers success and then [id]. *)
Theorem X9_set_then_get_active
  (w : World) (id : string) (c : Container)
  (Hid : mapFind id (mContainers w) = Some c)
  (Hown : getId c = id)
  (Hrunning : isRunning c = true)
  (Hnodup : NoDup (keys (mContainers w)))
  (Hback : forall k, runtimeFaults w k GoBackground = false)
  (Hfore : runtimeFaults w id GoForeground = false) :
  let r := (handleSetActiveContainerCall id ;;
            handleGetActiveContainerIdCall) w in
  outcome r = Ret tt
  /\ replies (trace r) = [ResultSetVoid; ResultSet (g_variant_new_s id)].
Proof.
  intros r. subst r.
  assert (Eset : handleSetActiveContainerCall id w
                 = mkRun (Ret tt)
                     (withContainers (focused id (mContainers w))
                        (withForegroundId id w))
                     ((map goBackgroundEvent (keys (mContainers w))
                       ++ [ZoneCall id GoForeground])
                      ++ [Reply ResultSetVoid])).
  { unfold handleSetActiveContainerCall. rewrite bind_getWorld, Hid.
    rewrite (isRunning_not_stopped c Hrunning).
    unfold bind. rewrite (focus_final w id c Hid Hnodup Hback Hfore).
    rewrite Hown. reflexivity. }
  set (w1 := withContainers (focused id (mContainers w))
               (withForegroundId id w)) in *.
  assert (Eget : handleGetActiveContainerIdCall w1
                 = mkRun (Ret tt) w1
                     [Reply (ResultSet (g_variant_new_s id))]).
  { unfold handleGetActiveContainerIdCall. rewrite bind_getWorld.
    unfold bind, zoneGet. simpl.
    rewrite mapFind_focused, Hid, String.eqb_refl. simpl.
    assert (Hr : isRunning (setForeground true c) = true) by exact Hrunning.
    rewrite Hr. reflexivity. }
  unfold bind. rewrite Eset. cbn [outcome final trace]. rewrite Eget.
  cbn [outcome final trace]. split; [reflexivity |].
  rewrite !replies_app.
  assert (Hnone : forall ks, replies (map goBackgroundEvent ks) = [])
    by (induction ks; simpl; auto).
  rewrite Hnone. reflexivity.
Qed.

(** [z1] and [z2] are running: the hypotheses of [X9_set_then_get_active]
    hold for [z2]. *)
Lemma X9_set_then_get_active_witness :
  replies (trace ((handleSetActiveContainerCall "z2" ;;
                   handleGetActiveContainerIdCall)
                    (Samples.twoZones RUNNING Samples.noFaults)))
  = [ResultSetVoid; ResultSet (g_variant_new_s "z2")].
Proof.
  apply (X9_set_then_get_active
           (Samples.twoZones RUNNING Samples.noFaults) "z2"
           (Samples.zone "z2" 2 RUNNING false) eq_refl eq_refl eq_refl).
  - simpl. repeat constructor; simpl; intuition discriminate.
  - reflexivity.
  - reflexivity.
Defined.

(** X10.  When the foreground id is the key of a zone (and the keys of the
    map are distinct, as in any [std::map]), [GetActiveContainerId] answers
    exactly what [getRunningForegroundContainerId] returns: the two ways of
    the manager to find the active zone agree. *)
Theorem X10_get_active_agrees
  (w : World)
  (Hvalid : fgValid w)
  (Hnodup : NoDup (keys (mContainers w))) :
  exists active,
    outcome (getRunningForegroundContainerId w) = Ret active
    /\ trace (handleGetActiveContainerIdCall w)
       = [Reply (ResultSet (g_variant_new_s active))]
    /\ (active = "" \/ active = foregroundId (mConfig w)).
Proof.
  exists (findRunningForeground (mContainers w) (foregroundId (mConfig w))).
  split; [reflexivity |].
  apply mapFind_In_keys in Hvalid.
  destruct (mapFind (foregroundId (mConfig w)) (mContainers w))
    as [c |] eqn:F; [| congruence].
  assert (Hfind : findRunningForeground (mContainers w)
                    (foregroundId (mConfig w))
                  = if isRunning c then foregroundId (mConfig w) else "").
  { destruct (isRunning c) eqn:Er.
    - apply findRunningForeground_found. exists c.
      split; [apply mapFind_Some_In |]; assumption.
    - apply findRunningForeground_none. intros [c' [Hin Hr]].
      rewrite (NoDup_keys_unique _ _ _ _ Hnodup F Hin) in Hr. congruence. }
  rewrite Hfind. split.
  - unfold handleGetActiveContainerIdCall. rewrite bind_getWorld.
    unfold bind, zoneGet. rewrite F. simpl.
    destruct (isRunning c); reflexivity.
  - destruct (isRunning c); auto.
Qed.

(** [z1] is in the foreground and running: the hypotheses of
    [X10_get_active_agrees] hold. *)
Lemma X10_get_active_agrees_witness :
  exists active,
    outcome (getRunningForegroundContainerId
               (Samples.twoZones RUNNING Samples.noFaults)) = Ret active
    /\ trace (handleGetActiveContainerIdCall
                (Samples.twoZones RUNNING Samples.noFaults))
       = [Reply (ResultSet (g_variant_new_s active))]
    /\ (active = "" \/ active = "z1").
Proof.
  apply (X10_get_active_agrees (Samples.twoZones RUNNING Samples.noFaults)).
  - left; reflexivity.
  - simpl. repeat constructor; simpl; intuition discriminate.
Defined.

(* ===================================================================== *)
(** ** The display-off handler, the destructor and detaching *)
(* ===================================================================== *)

(** X11.  In a well-formed manager with a running zone under the foreground
    id and a runtime that reports no failure: when that zone allows the
    switch, the display-off handler does [focus(defaultId)], whoever the
    caller is, so the default zone becomes the foreground zone and the only
    zone with the foreground flag; when the zone does not allow it, the
    handler calls no zone and changes nothing. *)
Theorem X11_display_off_switches_to_default
  (w : World) (caller : string) (c : Container)
  (Hwf : wellFormed w)
  (Hfg : mapFind (foregroundId (mConfig w)) (mContainers w) = Some c)
  (Hrunning : isRunning c = true)
  (Hback : forall k, runtimeFaults w k GoBackground = false)
  (Hfore : forall k, runtimeFaults w k GoForeground = false) :
  let r := displayOffHandler caller w in
  (isSwitchToDefaultAfterTimeoutAllowed c = true ->
     r = focus (defaultId (mConfig w)) w
     /\ outcome r = Ret tt
     /\ foregroundId (mConfig (final r)) = defaultId (mConfig w)
     /\ mContainers (final r)
        = focused (defaultId (mConfig w)) (mContainers w))
  /\ (isSwitchToDefaultAfterTimeoutAllowed c = false ->
      r = mkRun (Ret tt) w []).
Proof.
  intros r.
  assert (Hactive : findRunningForeground (mContainers w)
                      (foregroundId (mConfig w)) = foregroundId (mConfig w)).
  { apply findRunningForeground_found. exists c.
    split; [apply mapFind_Some_In |]; assumption. }
  assert (Er : r = if isSwitchToDefaultAfterTimeoutAllowed c
                   then focus (defaultId (mConfig w)) w
                   else mkRun (Ret tt) w []).
  { subst r. unfold displayOffHandler. unfold bind at 1.
    rewrite getRunningForegroundContainerId_run.
    cbn [outcome final trace]. rewrite bind_getWorld, Hactive, Hfg.
    destruct (isSwitchToDefaultAfterTimeoutAllowed c);
      simpl; [apply run_eta | reflexivity]. }
  clearbody r. split; intros Ha; rewrite Ha in Er; [| assumption].
  split; [assumption |]. rewrite Er.
  pose proof (wfDefault w Hwf) as Hdef. apply mapFind_In_keys in Hdef.
  destruct (mapFind (defaultId (mConfig w)) (mContainers w))
    as [d |] eqn:Fd; [| congruence].
  rewrite (focus_final w _ d Fd (ordered_NoDup _ (wfOrdered w Hwf))
             Hback (Hfore _)).
  simpl. rewrite (wellFormed_getId w _ d Hwf Fd). auto.
Qed.

(** [z2] is in the foreground and allows the switch, [z1] is the default
    zone: the hypotheses of [X11_display_off_switches_to_default] hold, and
    [z1] becomes the foreground zone. *)
Lemma X11_display_off_switches_to_default_witness :
  foregroundId
    (mConfig
       (final (displayOffHandler "z2"
                 (Samples.world (Samples.config "z2")
                    [("z1", Samples.zone "z1" 1 RUNNING false);
                     ("z2", mkContainer "z2" 2 [] [] true "" RUNNING true
                              false)]
                    false [] Samples.noFaults))))
  = "z1".
Proof.
  assert (Hwf : wellFormed
                  (Samples.world (Samples.config "z2")
                     [("z1", Samples.zone "z1" 1 RUNNING false);
                      ("z2", mkContainer "z2" 2 [] [] true "" RUNNING true
                               false)]
                     false [] Samples.noFaults)).
  { constructor; simpl.
    - repeat constructor.
    - intros k c [E | [E | []]]; injection E as <- <-; reflexivity.
    - intuition discriminate.
    - left; reflexivity. }
  pose proof (X11_display_off_switches_to_default _ "z2" _ Hwf eq_refl
                eq_refl (fun _ => eq_refl) (fun _ => eq_refl)) as [H _].
  destruct (H eq_refl) as (_ & _ & Hid & _). exact Hid.
Defined.

(** X12.  The destructor never throws and never dereferences a dangling
    pointer, whatever the runtime does: a failure of a [stop] ends the
    stopping of the zones and is logged.  Every event of the destructor is a
    [stop] of a zone of the map or that log line. *)
Theorem X12_destructor_never_throws (w : World) :
  let r := destroyContainersManager w in
  outcome r = Ret tt
  /\ (forall e, In e (trace r) ->
        (exists id, e = ZoneCall id Stop /\ In id (keys (mContainers w)))
        \/ e = Log LogError "Failed to stop all of the containers")
  /\ (mDetachOnExit w = true -> trace r = [] /\ final r = w).
Proof.
  intros r. subst r. unfold destroyContainersManager.
  rewrite bind_getWorld.
  destruct (mDetachOnExit w) eqn:Ed; cbn [negb].
  - simpl. split; [reflexivity |]. split; [intros e [] | auto].
  - unfold tryCatch. rewrite stopAll_run. cbn [outcome final trace].
    assert (Hstops : forall e,
              In e (map stopEvent
                      (attempted (runtimeFaults w) Stop
                         (keys (mContainers w)))) ->
              exists id, e = ZoneCall id Stop
                         /\ In id (keys (mContainers w))).
    { intros e Hin. apply in_map_iff in Hin as [id [<- Hin]].
      exists id. split; [reflexivity |].
      clear - Hin. induction (keys (mContainers w)) as [| k ks IH];
        simpl in *; [contradiction |].
      destruct (runtimeFaults w k Stop); simpl in Hin.
      - destruct Hin as [-> | []]. left; reflexivity.
      - destruct Hin as [-> | Hin]; [left; reflexivity | right; auto]. }
    destruct (anyFault _ Stop _); simpl.
    + split; [reflexivity |]. split; [| discriminate].
      intros e Hin. apply in_app_or in Hin as [Hin | [<- | []]]; auto.
    + split; [reflexivity |]. split; [| discriminate].
      intros e Hin. left. auto.
Qed.

Lemma mDetachOnExit_forEach_zoneCall (ids : list string) (op : ZoneOp) :
  preserves mDetachOnExit (forEach ids (fun id => zoneCall id op)).
Proof.
  apply preserves_forEach. intros id. apply preserves_zoneCall. reflexivity.
Qed.

(** X13.  After [setContainersDetachOnExit], however it has ended, the
    destructor stops no zone: it has no event and changes nothing.  With a
    runtime that reports no failure, [setContainersDetachOnExit] calls
    [setDetachOnExit] on every zone, in map order, and nothing else. *)
Theorem X13_detached_manager_stops_nothing (w : World) :
  let detached := final (setContainersDetachOnExit w) in
  mDetachOnExit detached = true
  /\ destroyContainersManager detached = mkRun (Ret tt) detached []
  /\ ((forall k, runtimeFaults w k SetDetachOnExit = false) ->
      outcome (setContainersDetachOnExit w) = Ret tt
      /\ trace (setContainersDetachOnExit w)
         = map (fun id => ZoneCall id SetDetachOnExit) (keys (mContainers w))).
Proof.
  intros detached.
  assert (Hflag : mDetachOnExit detached = true).
  { subst detached. unfold setContainersDetachOnExit.
    rewrite bind_getWorld. unfold bind. simpl.
    rewrite mDetachOnExit_forEach_zoneCall. reflexivity. }
  split; [assumption |]. split.
  - unfold destroyContainersManager. rewrite bind_getWorld, Hflag.
    reflexivity.
  - intros Hnf. unfold setContainersDetachOnExit. rewrite bind_getWorld.
    unfold bind. cbn [putWorld outcome final trace].
    rewrite forEach_zoneCall by (reflexivity || (simpl; auto)).
    simpl runtimeFaults.
    assert (Hno : anyFault (runtimeFaults w) SetDetachOnExit
                    (keys (mContainers w)) = false)
      by (apply anyFault_false; intros; apply Hnf).
    simpl mContainers. rewrite Hno, (attempted_no_fault _ _ _ Hno).
    split; reflexivity.
Qed.

(* ===================================================================== *)
(** ** Proxy calls and file moves: what a run can look like *)
(* ===================================================================== *)

(** X14.  [handleProxyCall] leaves the whole manager as it is and does
    exactly one of two things: it puts one error into the result
    ([ERROR_FORBIDDEN] or [ERROR_UNKNOWN_ID]), or it hands the call on once,
    with the bus name, object path, interface, method and parameters it was
    given.  It never puts a value into the result itself: a value can only
    come from [asyncResultCallback]. *)
Theorem X14_proxy_call_replies_or_forwards
  (w : World) (caller target targetBusName targetObjectPath targetInterface
   targetMethod : string) (parameters : GVariant) :
  let r := handleProxyCall caller target targetBusName targetObjectPath
             targetInterface targetMethod parameters w in
  final r = w
  /\ (List.length (replies (trace r))
      + List.length (filter isForwarding (trace r)) = 1)%nat
  /\ (forall x, In x (replies (trace r)) ->
        x = ResultSetError ERROR_FORBIDDEN "Proxy call forbidden"
        \/ x = ResultSetError ERROR_UNKNOWN_ID "Unknown proxy call target")
  /\ (forall e, In e (filter isForwarding (trace r)) ->
        e = HostProxyCallAsync targetBusName targetObjectPath targetInterface
              targetMethod parameters
        \/ e = ZoneCall target
                 (ProxyCallAsync targetBusName targetObjectPath
                    targetInterface targetMethod parameters)).
Proof.
  intros r. subst r. unfold handleProxyCall. rewrite bind_getWorld.
  destruct (isProxyCallAllowed _ _ _ _ _ _ _); cbn [negb].
  - destruct (String.eqb target HOST_ID).
    + simpl. repeat split; auto; [intros x [] |].
      intros e [<- | []]. left; reflexivity.
    + destruct (mapFind target (mContainers w)) as [c |] eqn:F.
      * rewrite zoneCall_run
          by (apply mapFind_In_keys; rewrite F; discriminate).
        rewrite mapModify_unchanged by reflexivity.
        rewrite withContainers_same.
        destruct (runtimeFaults w target _); simpl;
          (repeat split; auto; [intros x [] |]);
          intros e [<- | []]; right; reflexivity.
      * simpl. repeat split; auto; [| intros e []].
        intros x [<- | []]. right; reflexivity.
  - simpl. repeat split; auto; [| intros e []].
    intros x [<- | []]. left; reflexivity.
Qed.

(** The runs of the file-move handler: no zone changes, and the run has one
    of four shapes; in the last, the notification is delivered, or fails
    with a [ServerException], which is logged, or fails with another
    exception, which leaves the handler. *)
Lemma moveRequest_cases (w : World) (src dst path : string) :
  let r := handleContainerMoveFileRequest src dst path w in
  let note := SendNotification src path FILE_MOVE_SUCCEEDED in
  mContainers (final r) = mContainers w
  /\ ((mapFind src (mContainers w) = None /\ outcome r = Ret tt
       /\ final r = w /\ exists msg, trace r = [Log LogError msg])
      \/ (mapFind src (mContainers w) <> None /\ outcome r = Ret tt
          /\ final r = w
          /\ exists msg code,
               In code refusalCodes
               /\ trace r = [Log LogError msg; Reply (fileMoveReply code)])
      \/ (mapFind src (mContainers w) <> None /\ outcome r = Ret tt
          /\ final r = w
          /\ exists sp dp msg,
               trace r = [MoveFile sp dp; Log LogError msg;
                          Reply (fileMoveReply FILE_MOVE_FAILED)])
      \/ (mapFind src (mContainers w) <> None
          /\ exists sp dp,
               (runtimeFaults w dst note = false /\ outcome r = Ret tt
                /\ trace r = [MoveFile sp dp;
                              Reply (fileMoveReply FILE_MOVE_SUCCEEDED);
                              ZoneCall dst note])
               \/ (runtimeFaults w dst note = true
                   /\ outsideServerException w dst = false
                   /\ outcome r = Ret tt
                   /\ trace r
                      = [MoveFile sp dp;
                         Reply (fileMoveReply FILE_MOVE_SUCCEEDED);
                         ZoneCall dst note;
                         Log LogError ("Notification to '" ++ dst
                                       ++ "' has not been sent")])
               \/ (runtimeFaults w dst note = true
                   /\ outsideServerException w dst = true
                   /\ outcome r = Throw notificationFailure
                   /\ trace r = [MoveFile sp dp;
                                 Reply (fileMoveReply FILE_MOVE_SUCCEEDED);
                                 ZoneCall dst note]))).
Proof.
  intros r note. subst r note. unfold handleContainerMoveFileRequest.
  rewrite bind_getWorld.
  destruct (mapFind src (mContainers w)) as [cs |] eqn:Fs.
  2:{ simpl. split; [reflexivity |]. left. repeat split; auto. eexists.
      reflexivity. }
  assert (Hs : Some cs <> None) by discriminate.
  destruct (mapFind dst (mContainers w)) as [cd |] eqn:Fd.
  2:{ simpl. split; [reflexivity |]. right; left. repeat split; auto.
      do 2 eexists. split; [| reflexivity]. simpl; auto. }
  destruct (String.eqb src dst).
  { simpl. split; [reflexivity |]. right; left. repeat split; auto.
    do 2 eexists. split; [| reflexivity]. simpl; auto. }
  destruct (regexMatchVector path (getPermittedToSend cs)); cbn [negb].
  2:{ simpl. split; [reflexivity |]. right; left. repeat split; auto.
      do 2 eexists. split; [| reflexivity]. simpl; auto. }
  destruct (regexMatchVector path (getPermittedToRecv cd)); cbn [negb].
  2:{ simpl. split; [reflexivity |]. right; left. repeat split; auto.
      do 2 eexists. split; [| reflexivity]. simpl; auto 6. }
  cbv zeta. unfold bind, moveFile.
  destruct (existsb _ (hostFiles w)); cbn [outcome final trace negb].
  - unfold tryCatch, resultSet, emit. cbn [outcome final trace].
    rewrite zoneCall_run
      by (apply mapFind_In_keys; cbn [mContainers withHostFiles];
          rewrite Fd; discriminate).
    cbn [mContainers withHostFiles runtimeFaults outsideServerException
           zoneFailure].
    rewrite mapModify_unchanged by reflexivity.
    destruct (runtimeFaults w dst _) eqn:Ef;
      [destruct (outsideServerException w dst) eqn:Eo |];
      cbn [outcome final trace isServerException failure
             notificationFailure LOGE emit withContainers withHostFiles
             mContainers app].
    + split; [reflexivity |]. do 3 right. split; [assumption |].
      do 2 eexists. right; right. repeat split; reflexivity.
    + split; [reflexivity |]. do 3 right. split; [assumption |].
      do 2 eexists. right; left. repeat split; reflexivity.
    + split; [reflexivity |]. do 3 right. split; [assumption |].
      do 2 eexists. left. repeat split; reflexivity.
  - simpl. split; [reflexivity |]. right; right; left. repeat split; auto.
    do 3 eexists. reflexivity.
Qed.

(** X15.  The file-move handler changes no zone.  When the requesting zone
    is not in the map the request gets no answer at all: the handler writes
    one error line and does nothing else; when it is, the handler answers
    exactly once.  The handler returns normally but in one case: the file
    has been moved, the notification to the destination zone fails, and the
    failure is no [ServerException].  The clause around this
    [sendNotification] catches [ServerException] only, so the exception then
    leaves the handler, after the answer [FILE_MOVE_SUCCEEDED] has been set
    and with nothing logged; a failure that is a [ServerException] is logged
    and goes no further. *)
Theorem X15_file_move_outcome (w : World) (src dst path : string) :
  let r := handleContainerMoveFileRequest src dst path w in
  let note := SendNotification src path FILE_MOVE_SUCCEEDED in
  mContainers (final r) = mContainers w
  /\ (mapFind src (mContainers w) = None ->
      r = mkRun (Ret tt) w
            [Log LogError ("Source container '" ++ src ++ "' not found")])
  /\ (mapFind src (mContainers w) <> None ->
      List.length (replies (trace r)) = 1%nat)
  /\ (outcome r = Ret tt \/ outcome r = Throw notificationFailure)
  /\ (outcome r = Throw notificationFailure <->
      In (Reply (fileMoveReply FILE_MOVE_SUCCEEDED)) (trace r)
      /\ runtimeFaults w dst note = true
      /\ outsideServerException w dst = true)
  /\ (outcome r = Throw notificationFailure ->
      exists sp dp,
        trace r = [MoveFile sp dp; Reply (fileMoveReply FILE_MOVE_SUCCEEDED);
                   ZoneCall dst note])
  /\ (In (Reply (fileMoveReply FILE_MOVE_SUCCEEDED)) (trace r) ->
      runtimeFaults w dst note = true ->
      outsideServerException w dst = false ->
      outcome r = Ret tt
      /\ In (Log LogError ("Notification to '" ++ dst
                           ++ "' has not been sent")) (trace r)).
Proof.
  intros r note.
  assert (Hcodes : forall code, In code refusalCodes ->
                                code <> FILE_MOVE_SUCCEEDED).
  { intros code Hc. simpl in Hc.
    destruct Hc as [<- | [<- | [<- | [<- | []]]]]; discriminate. }
  destruct (moveRequest_cases w src dst path)
    as (Hm & [(Hs & Ho & _ & msg & Ht)
             | [(Hs & Ho & _ & msg & code & Hc & Ht)
               | [(Hs & Ho & _ & sp & dp & msg & Ht)
                 | (Hs & sp & dp & [(Ef & Ho & Ht)
                                   | [(Ef & Eo & Ho & Ht)
                                     | (Ef & Eo & Ho & Ht)]])]]]);
    fold r note in Hm, Ho, Ht; try fold note in Ef;
    (split; [assumption |]).
  - split.
    { intros _. subst r. unfold handleContainerMoveFileRequest.
      rewrite bind_getWorld, Hs. reflexivity. }
    split; [intros H; congruence |]. split; [left; assumption |].
    rewrite Ho, Ht. split; [split; [discriminate |] |].
    + intros [[H | []] _]. discriminate.
    + split; [discriminate |]. intros [H | []]. discriminate.
  - split; [intros H; congruence |].
    split; [intros _; rewrite Ht; reflexivity |].
    split; [left; assumption |].
    assert (Hno : ~ In (Reply (fileMoveReply FILE_MOVE_SUCCEEDED)) (trace r)).
    { rewrite Ht. intros [H | [H | []]]; [discriminate |].
      injection H as H. apply (Hcodes code Hc). assumption. }
    rewrite Ho. split; [split; [discriminate | intros [H _]; tauto] |].
    split; [discriminate | intros H; tauto].
  - split; [intros H; congruence |].
    split; [intros _; rewrite Ht; reflexivity |].
    split; [left; assumption |].
    assert (Hno : ~ In (Reply (fileMoveReply FILE_MOVE_SUCCEEDED)) (trace r)).
    { rewrite Ht. intros [H | [H | [H | []]]]; discriminate. }
    rewrite Ho. split; [split; [discriminate | intros [H _]; tauto] |].
    split; [discriminate | intros H; tauto].
  - split; [intros H; congruence |].
    split; [intros _; rewrite Ht; reflexivity |].
    split; [left; assumption |].
    rewrite Ho.
    split; [split; [discriminate | intros (_ & H & _); congruence] |].
    split; [discriminate | intros _ H; congruence].
  - split; [intros H; congruence |].
    split; [intros _; rewrite Ht; reflexivity |].
    split; [left; assumption |].
    rewrite Ho.
    split; [split; [discriminate | intros (_ & _ & H); congruence] |].
    split; [discriminate |]. intros _ _ _. split; [reflexivity |].
    rewrite Ht. simpl. auto.
  - split; [intros H; congruence |].
    split; [intros _; rewrite Ht; reflexivity |].
    split; [right; assumption |].
    rewrite Ho, Ht. split; [split; [| reflexivity] |].
    + intros _. split; [simpl; auto | split; assumption].
    + split; [intros _; do 2 eexists; reflexivity |].
      intros _ _ H. congruence.
Qed.

(** The file of [z1] is moved to [z2], and the notification to [z2] fails
    with an exception that is no [ServerException]: the exception leaves
    the file-move handler, while the notification handler, with its wider
    catch clause, logs the same failure and returns. *)
Example scenario_notification_escapes_file_move :
  let w := mkWorld (Samples.config "z2")
             [("z1", Samples.zone "z1" 1 RUNNING false);
              ("z2", Samples.zone "z2" 2 RUNNING true)]
             false ["/var/zones/z1/tmp/a"]
             (Samples.faultAt "z2" Samples.isSendNotification)
             (fun _ => true) Samples.posixAbsolute in
  outcome (handleContainerMoveFileRequest "z1" "z2" "/tmp/a" w)
  = Throw notificationFailure
  /\ replies (trace (handleContainerMoveFileRequest "z1" "z2" "/tmp/a" w))
     = [fileMoveReply FILE_MOVE_SUCCEEDED]
  /\ notifyActiveContainerHandler "z1" "app" "hello" w
     = mkRun (Ret tt) w
         [ZoneCall "z2" (SendNotification "z1" "app" "hello");
          Log LogError "Notification from z1 hasn't been sent"].
Proof. repeat split. Qed.

(** X16.  The destination zone is notified exactly when the answer is
    [FILE_MOVE_SUCCEEDED]: then the handler has moved the file, has put the
    answer into the result, and right after that has sent one notification
    to the destination zone, with the source zone, the path and
    [FILE_MOVE_SUCCEEDED] in it.  With any other outcome no zone is called
    and the files of the host are as before. *)
Theorem X16_file_move_notifies_on_success (w : World) (src dst path : string) :
  let r := handleContainerMoveFileRequest src dst path w in
  let notification :=
    ZoneCall dst (SendNotification src path FILE_MOVE_SUCCEEDED) in
  (In (Reply (fileMoveReply FILE_MOVE_SUCCEEDED)) (trace r) ->
     filter isZoneCall (trace r) = [notification]
     /\ exists sp dp tail,
          trace r
          = (MoveFile sp dp :: Reply (fileMoveReply FILE_MOVE_SUCCEEDED)
             :: notification :: tail))
  /\ (~ In (Reply (fileMoveReply FILE_MOVE_SUCCEEDED)) (trace r) ->
      filter isZoneCall (trace r) = [] /\ final r = w).
Proof.
  intros r notification.
  destruct (moveRequest_cases w src dst path)
    as (_ & [(_ & _ & Hf & msg & Ht)
            | [(_ & _ & Hf & msg & code & Hc & Ht)
              | [(_ & _ & Hf & sp & dp & msg & Ht)
                | (_ & sp & dp & [(_ & _ & Ht)
                                 | [(_ & _ & _ & Ht)
                                   | (_ & _ & _ & Ht)]])]]]);
    fold r in Ht; try fold r in Hf; rewrite Ht.
  - split; [intros [H | []]; discriminate | auto].
  - split; [| auto]. intros [H | [H | []]]; [discriminate |].
    exfalso. injection H as H. simpl in Hc.
    destruct Hc as [<- | [<- | [<- | [<- | []]]]]; discriminate.
  - split; [| auto]. intros [H | [H | [H | []]]]; discriminate.
  - split; [intros _; split; [reflexivity | do 3 eexists; reflexivity] |].
    intros Hn. exfalso. apply Hn. simpl. auto.
  - split; [intros _; split; [reflexivity | do 3 eexists; reflexivity] |].
    intros Hn. exfalso. apply Hn. simpl. auto.
  - split; [intros _; split; [reflexivity | do 3 eexists; reflexivity] |].
    intros Hn. exfalso. apply Hn. simpl. auto.
Qed.

(* ===================================================================== *)
(** ** [startAll] when a zone fails, and what no method dereferences *)
(* ===================================================================== *)

Lemma min_element_In (m : ContainerMap) (k : string) (c : Container) :
  min_element m = Some (k, c) -> In k (keys m).
Proof.
  destruct m as [| x m']; [discriminate |]. simpl. intros E.
  injection E as E.
  destruct (min_element_from_spec m' x) as (pre & post & Eq & _).
  rewrite E in Eq. change (In k (keys (x :: m'))).
  unfold keys. rewrite Eq, map_app. simpl. apply in_elt.
Qed.

(** The loop of [startAll] never goes through a pointer that is not there. *)
Lemma startAllLoop_no_crash (ids : list string) :
  forall (found : bool) (w : World),
    (forall id, In id ids -> In id (keys (mContainers w))) ->
    outcome (startAllLoop ids found w) <> Crash.
Proof.
  induction ids as [| id ids IH]; intros found w Hin; [discriminate |].
  assert (Hid : In id (keys (mContainers w)))
    by (apply Hin; left; reflexivity).
  simpl startAllLoop. unfold bind at 1.
  rewrite zoneCall_run by assumption.
  destruct (runtimeFaults w id Start); cbn [outcome final trace];
    [discriminate |].
  rewrite bind_getWorld. autorewrite with world.
  destruct (String.eqb id (foregroundId (mConfig w))).
  - unfold bind at 1.
    rewrite zoneCall_run
      by (autorewrite with world; rewrite keys_mapModify; assumption).
    autorewrite with world.
    destruct (runtimeFaults w id GoForeground); cbn [outcome final trace];
      [discriminate |].
    apply IH. intros k Hk. autorewrite with world.
    rewrite !keys_mapModify. apply Hin. right; assumption.
  - apply IH. intros k Hk. autorewrite with world.
    rewrite keys_mapModify. apply Hin. right; assumption.
Qed.

(** The loop of [startAll] when the start of one of the zones fails: the
    failure leaves the loop as an exception, and the loop has called no zone
    after the first one whose start fails. *)
Lemma startAllLoop_faulty (ids : list string) :
  forall (found : bool) (w : World),
    (forall id, In id ids -> In id (keys (mContainers w))) ->
    anyFault (runtimeFaults w) Start ids = true ->
    outcome (startAllLoop ids found w) = Throw failure
    /\ forall e, In e (trace (startAllLoop ids found w)) ->
         exists id op,
           e = ZoneCall id op
           /\ In id (attempted (runtimeFaults w) Start ids).
Proof.
  induction ids as [| id ids IH]; intros found w Hin Hany; [discriminate |].
  assert (Hid : In id (keys (mContainers w)))
    by (apply Hin; left; reflexivity).
  remember (startAllLoop (id :: ids) found w) as r eqn:Er.
  simpl startAllLoop in Er. unfold bind at 1 in Er.
  rewrite zoneCall_run in Er by assumption.
  simpl in Hany. simpl attempted.
  destruct (runtimeFaults w id Start) eqn:Es; cbn [outcome final trace] in Er.
  - rewrite Er. split; [reflexivity |]. intros e [<- | []].
    exists id, Start. split; [reflexivity | left; reflexivity].
  - simpl in Hany. rewrite bind_getWorld in Er.
    autorewrite with world in Er.
    destruct (String.eqb id (foregroundId (mConfig w))).
    + unfold bind in Er.
      rewrite zoneCall_run in Er
        by (autorewrite with world; rewrite keys_mapModify; assumption).
      autorewrite with world in Er.
      destruct (runtimeFaults w id GoForeground);
        cbn [outcome final trace] in Er.
      * rewrite Er. split; [reflexivity |]. intros e [<- | [<- | []]];
          do 2 eexists; (split; [reflexivity | left; reflexivity]).
      * match type of Er with
        | context [startAllLoop ids true ?w1] =>
            destruct (IH true w1) as [Ho Ht]
        end.
        { intros k Hk. autorewrite with world.
          rewrite !keys_mapModify. apply Hin. right; assumption. }
        { autorewrite with world. assumption. }
        rewrite Er. cbn [outcome final trace].
        split; [rewrite Ho; reflexivity |].
        intros e [<- | [<- | He]];
          [do 2 eexists; (split; [reflexivity | left; reflexivity]) ..|].
        apply Ht in He as (k & op & -> & Hk).
        autorewrite with world in Hk.
        exists k, op. split; [reflexivity | right; assumption].
    + match type of Er with
      | context [startAllLoop ids found ?w1] =>
          destruct (IH found w1) as [Ho Ht]
      end.
      { intros k Hk. autorewrite with world.
        rewrite keys_mapModify. apply Hin. right; assumption. }
      { autorewrite with world. assumption. }
      rewrite Er. cbn [outcome final trace].
      split; [rewrite Ho; reflexivity |].
      intros e [<- | He];
        [do 2 eexists; (split; [reflexivity | left; reflexivity]) |].
      apply Ht in He as (k & op & -> & Hk).
      autorewrite with world in Hk.
      exists k, op. split; [reflexivity | right; assumption].
Qed.

(** X17.  When the start of one of the zones fails, [startAll] throws that
    failure.  It has then called no zone that comes after the failing one in
    the map, it has not fallen back to the zone of least privilege or to any
    other foreground zone, and the configuration, with its foreground id, is
    as it was. *)
Theorem X17_startAll_failure_propagates (w : World)
  (Hfault : anyFault (runtimeFaults w) Start (keys (mContainers w)) = true) :
  let r := startAll w in
  outcome r = Throw failure
  /\ mConfig (final r) = mConfig w
  /\ forall e, In e (trace r) ->
       exists id op,
         e = ZoneCall id op
         /\ In id (attempted (runtimeFaults w) Start (keys (mContainers w))).
Proof.
  intros r.
  destruct (startAllLoop_faulty (keys (mContainers w)) false w
              (fun _ H => H) Hfault) as [Ho Ht].
  pose proof (frame_startAllLoop mConfig (fun _ _ => eq_refl)
                (keys (mContainers w)) false w) as Hc.
  subst r. unfold startAll. rewrite bind_getWorld. unfold bind.
  rewrite Ho. cbn [outcome final trace].
  split; [reflexivity |]. split; assumption.
Qed.

(** The start of [z2] fails: [z1] has been started, [z3] has not been
    called, and [startAll] throws. *)
Lemma X17_startAll_failure_propagates_witness :
  outcome (startAll (Samples.world (Samples.config "")
                       [("z1", Samples.zone "z1" 1 STOPPED false);
                        ("z2", Samples.zone "z2" 2 STOPPED false);
                        ("z3", Samples.zone "z3" 3 STOPPED false)]
                       false []
                       (Samples.faultAt "z2"
                          (fun op => match op with Start => true | _ => false end))))
  = Throw failure.
Proof.
  apply (X17_startAll_failure_propagates
           (Samples.world (Samples.config "")
              [("z1", Samples.zone "z1" 1 STOPPED false);
               ("z2", Samples.zone "z2" 2 STOPPED false);
               ("z3", Samples.zone "z3" 3 STOPPED false)]
              false []
              (Samples.faultAt "z2"
                 (fun op => match op with Start => true | _ => false end)))).
  reflexivity.
Defined.

Lemma focus_no_crash (w : World) (id : string) :
  outcome (focus id w) <> Crash.
Proof.
  destruct (mapFind id (mContainers w)) as [c |] eqn:F.
  - destruct (focus_outcome w id (mapFind_Some_In_keys _ _ _ F)) as [E | E];
      rewrite E; discriminate.
  - unfold focus, bind, mapAt. rewrite F. discriminate.
Qed.

(** X18.  [startAll] goes through the past-the-end iterator of
    [std::min_element] exactly when the map of zones is empty; a manager
    built by the constructor has the default zone in its map, so there it
    never does.  [focus], [stopAll], [setContainersDetachOnExit], the
    display-off handler, [SetActiveContainer] and [ProxyCall] never go
    through a pointer that is not there, whatever the state of the manager
    and whatever the runtime does: they return or throw. *)
Theorem X18_no_dangling_dereference (w : World) :
  (outcome (startAll w) = Crash <-> mContainers w = [])
  /\ (wellFormed w -> outcome (startAll w) <> Crash)
  /\ (forall id, outcome (focus id w) <> Crash)
  /\ outcome (stopAll w) <> Crash
  /\ outcome (setContainersDetachOnExit w) <> Crash
  /\ (forall caller, outcome (displayOffHandler caller w) <> Crash)
  /\ (forall id, outcome (handleSetActiveContainerCall id w) <> Crash)
  /\ (forall caller target targetBusName targetObjectPath targetInterface
        targetMethod parameters,
        outcome (handleProxyCall caller target targetBusName targetObjectPath
                   targetInterface targetMethod parameters w) <> Crash).
Proof.
  assert (Hstart : outcome (startAll w) = Crash <-> mContainers w = []).
  { split.
    - intros Hc. destruct (mContainers w) as [| x m'] eqn:Em; [reflexivity |].
      exfalso. revert Hc. unfold startAll. rewrite bind_getWorld.
      unfold bind at 1.
      pose proof (startAllLoop_no_crash (keys (mContainers w)) false w
                    (fun _ H => H)) as Hnc.
      pose proof (keys_of_shape _ _
                    (keepsShape_startAllLoop (keys (mContainers w)) false w))
        as Hkeys.
      rewrite Em in Hnc, Hkeys |- *.
      destruct (startAllLoop (keys (x :: m')) false w) as [o f t].
      cbn [outcome final trace] in *.
      destruct o as [b | e |]; [| discriminate | congruence].
      destruct b; cbn [negb outcome]; [discriminate |].
      rewrite bind_getWorld.
      destruct (min_element (mContainers f)) as [[k c] |] eqn:Emin.
      + apply min_element_In in Emin. unfold bind.
        cbn [putWorld outcome final trace].
        rewrite zoneCall_run by (simpl; assumption).
        destruct (runtimeFaults _ k GoForeground); discriminate.
      + destruct (mContainers f); [discriminate Hkeys | discriminate Emin].
    - intros Em. unfold startAll. rewrite bind_getWorld, Em.
      simpl. rewrite Em. reflexivity. }
  split; [assumption |]. split; [| split; [| split; [| split;
    [| split; [| split]]]]].
  - intros Hwf Hc. apply Hstart in Hc.
    pose proof (wfDefault w Hwf) as Hd. rewrite Hc in Hd. destruct Hd.
  - apply focus_no_crash.
  - rewrite stopAll_run. destruct (anyFault _ _ _); discriminate.
  - unfold setContainersDetachOnExit. rewrite bind_getWorld. unfold bind.
    cbn [putWorld outcome final trace].
    rewrite forEach_zoneCall by (reflexivity || (simpl; auto)).
    cbn [outcome]. destruct (anyFault _ _ _); discriminate.
  - intros caller. unfold displayOffHandler, bind.
    rewrite getRunningForegroundContainerId_run.
    cbn [outcome final trace getWorld].
    destruct (mapFind _ (mContainers w)) as [c |]; [| discriminate].
    destruct (isSwitchToDefaultAfterTimeoutAllowed c); [| discriminate].
    cbn [outcome]. apply focus_no_crash.
  - intros id. unfold handleSetActiveContainerCall. rewrite bind_getWorld.
    destruct (mapFind id (mContainers w)) as [c |] eqn:F; [| discriminate].
    destruct (isStopped c); [discriminate |].
    pose proof (focus_outcome w id (mapFind_Some_In_keys _ _ _ F)) as Ho.
    unfold bind. destruct Ho as [E | E]; rewrite E; simpl; discriminate.
  - intros caller target bus path iface method params.
    unfold handleProxyCall. rewrite bind_getWorld.
    destruct (isProxyCallAllowed _ _ _ _ _ _ _); cbn [negb];
      [| discriminate].
    destruct (String.eqb target HOST_ID); [discriminate |].
    destruct (mapFind target (mContainers w)) as [c |] eqn:F;
      [| discriminate].
    rewrite zoneCall_run
      by (apply mapFind_In_keys; rewrite F; discriminate).
    destruct (runtimeFaults w target _); discriminate.
Qed.

(** The manager of the foreground scenario is well formed: [startAll] does
    not go through a past-the-end iterator there. *)
Lemma X18_no_dangling_dereference_witness :
  outcome (startAll Samples.threeZones) <> Crash.
Proof.
  apply (proj1 (proj2 (X18_no_dangling_dereference Samples.threeZones))).
  constructor; simpl.
  - repeat constructor.
  - intros k c [E | [E | [E | []]]]; injection E as <- <-; reflexivity.
  - intuition discriminate.
  - left; reflexivity.
Defined.

(* ===================================================================== *)
(** ** The foreground flag follows the foreground id *)
(* ===================================================================== *)

Section Keeps.

Variable I : World -> Prop.

Lemma keeps_ret {A : Type} (a : A) : keeps I (ret a).
Proof. intros w H. exact H. Qed.

Lemma keeps_emit (e : Event) : keeps I (emit e).
Proof. intros w H. exact H. Qed.

Lemma keeps_bind {A B : Type} (m : M A) (f : A -> M B) :
  keeps I m -> (forall a, keeps I (f a)) -> keeps I (bind m f).
Proof.
  intros Hm Hf w Hw. unfold bind. specialize (Hm w Hw).
  destruct (outcome (m w)); simpl; [apply Hf | |]; assumption.
Qed.

Lemma keeps_getWorld_bind {A : Type} (f : World -> M A) :
  (forall w, I w -> I (final (f w w))) -> keeps I (w <- getWorld ;; f w).
Proof. intros H w Hw. rewrite bind_getWorld. apply H, Hw. Qed.

Lemma keeps_tryCatch {A : Type} (body : M A) (caught : Exn -> bool)
  (handler : Exn -> M A) :
  keeps I body -> (forall e, keeps I (handler e)) ->
  keeps I (tryCatch body caught handler).
Proof.
  intros Hb Hh w Hw. unfold tryCatch. specialize (Hb w Hw).
  destruct (outcome (body w)) as [a | e |]; try assumption.
  destruct (caught e); simpl; [apply Hh |]; assumption.
Qed.

Lemma keeps_forEach (ids : list string) (body : string -> M unit) :
  (forall id, keeps I (body id)) -> keeps I (forEach ids body).
Proof.
  intros Hb. induction ids as [| id ids IH]; simpl.
  - apply keeps_ret.
  - apply keeps_bind; auto.
Qed.

End Keeps.

Lemma In_mapModify (id k : string) (f : Container -> Container)
  (c' : Container) (m : ContainerMap) :
  In (k, c') (mapModify id f m) ->
  exists c, In (k, c) m /\ (c' = c \/ (k = id /\ c' = f c)).
Proof.
  induction m as [| [k0 c0] m IH]; simpl; [intros [] |].
  destruct (String.eqb id k0) eqn:E.
  - intros [H | H].
    + injection H as <- <-. apply String.eqb_eq in E. subst k0.
      exists c0. split; [left; reflexivity | right; auto].
    + exists c'. split; [right; assumption | left; reflexivity].
  - intros [H | H].
    + injection H as <- <-. exists c0.
      split; [left; reflexivity | left; reflexivity].
    + destruct (IH H) as (c & Hin & Hc). exists c. split; [right |]; auto.
Qed.

(** Only [goForeground] gives a zone the foreground flag. *)
Lemma applyOp_foreground (op : ZoneOp) (c : Container) :
  op <> GoForeground -> foreground (applyOp op c) = true ->
  foreground c = true.
Proof.
  destruct op; simpl; try congruence; intros _.
  - destruct (state c); auto.
  - destruct (state c); auto.
Qed.

Lemma flags_zoneCall_other (id : string) (op : ZoneOp) :
  op <> GoForeground -> keeps flagsFollowId (zoneCall id op).
Proof.
  intros Hop w Hw. unfold zoneCall.
  destruct (mapFind id (mContainers w)) as [c0 |]; [| exact Hw].
  destruct (runtimeFaults w id op); [exact Hw |].
  intros k c' Hin Hfg. simpl in *.
  apply In_mapModify in Hin as (c & Hin & [-> | [_ ->]]).
  - apply (Hw k c Hin Hfg).
  - apply (Hw k c Hin). apply (applyOp_foreground op); assumption.
Qed.

Lemma flags_zoneCall_foreground (w : World) (id : string) :
  id = foregroundId (mConfig w) -> flagsFollowId w ->
  flagsFollowId (final (zoneCall id GoForeground w)).
Proof.
  intros Hid Hw. unfold zoneCall.
  destruct (mapFind id (mContainers w)) as [c0 |]; [| exact Hw].
  destruct (runtimeFaults w id GoForeground); [exact Hw |].
  intros k c' Hin Hfg. simpl in *.
  apply In_mapModify in Hin as (c & Hin & [-> | [-> _]]).
  - apply (Hw k c Hin Hfg).
  - assumption.
Qed.

Lemma flags_modifyAll_background (ids : list string) :
  forall (m : ContainerMap) (k : string) (c' : Container),
    In (k, c') (modifyAll ids (applyOp GoBackground) m) ->
    foreground c' = true ->
    exists c, In (k, c) m /\ foreground c = true.
Proof.
  induction ids as [| id ids IH]; simpl; intros m k c' Hin Hfg.
  - exists c'. auto.
  - destruct (IH _ _ _ Hin Hfg) as (c1 & Hin1 & Hfg1).
    apply In_mapModify in Hin1 as (c & Hin0 & [-> | [_ ->]]).
    + exists c. auto.
    + discriminate Hfg1.
Qed.

Lemma focus_flags (w : World) (id : string) :
  wellFormed w -> flagsFollowId w -> flagsFollowId (final (focus id w)).
Proof.
  intros Hwf Hw.
  destruct (mapFind id (mContainers w)) as [c |] eqn:F.
  2:{ rewrite (focus_unknown w id F). exact Hw. }
  rewrite (focus_run w id c F).
  pose proof (wellFormed_getId w id c Hwf F) as Hid.
  destruct (anyFault (runtimeFaults w) GoBackground (keys (mContainers w)))
    eqn:Eany.
  - intros k c' Hin Hfg. simpl in *.
    destruct (flags_modifyAll_background _ _ _ _ Hin Hfg) as (c0 & H0 & Hf0).
    apply (Hw k c0 H0 Hf0).
  - rewrite (completed_no_fault _ _ _ Eany).
    pose proof (allBackground_after_all (mContainers w)
                  (ordered_NoDup _ (wfOrdered w Hwf))) as Hback.
    destruct (runtimeFaults w id GoForeground).
    + intros k c' Hin Hfg. simpl in Hin.
      rewrite (Hback k c' Hin) in Hfg. discriminate.
    + intros k c' Hin Hfg. simpl in Hin |- *.
      apply In_mapModify in Hin as (c0 & Hin & [-> | [-> _]]).
      * rewrite (Hback k c0 Hin) in Hfg. discriminate.
      * symmetry. assumption.
Qed.

Lemma startAllLoop_flags (ids : list string) :
  forall found, keeps flagsFollowId (startAllLoop ids found).
Proof.
  induction ids as [| id ids IH]; intros found; simpl.
  - apply keeps_ret.
  - apply keeps_bind;
      [apply flags_zoneCall_other; discriminate |].
    intros _. apply keeps_getWorld_bind. intros w Hw.
    destruct (String.eqb id (foregroundId (mConfig w))) eqn:E; [| apply IH, Hw].
    apply String.eqb_eq in E. unfold bind.
    pose proof (flags_zoneCall_foreground w id E Hw) as H1.
    destruct (outcome (zoneCall id GoForeground w)); simpl;
      [apply IH |  |]; exact H1.
Qed.

Lemma min_element_In_pair (m : ContainerMap) (kc : string * Container) :
  min_element m = Some kc -> In kc m.
Proof.
  destruct m as [| x m']; [discriminate |]. simpl. intros E.
  injection E as E.
  destruct (min_element_from_spec m' x) as (pre & post & Eq & _).
  rewrite E in Eq. change (In kc (x :: m')). rewrite Eq. apply in_elt.
Qed.

Lemma startAll_flags (w : World) :
  wellFormed w -> flagsFollowId w -> flagsFollowId (final (startAll w)).
Proof.
  intros Hwf Hw. unfold startAll. rewrite bind_getWorld. unfold bind at 1.
  pose proof (startAllLoop_flags (keys (mContainers w)) false w Hw) as H1.
  pose proof (startAllLoop_found (keys (mContainers w)) false w) as Hfound.
  pose proof (frame_startAllLoop mConfig (fun _ _ => eq_refl)
                (keys (mContainers w)) false w) as Hc.
  pose proof (keepsShape_startAllLoop (keys (mContainers w)) false w) as Hs.
  destruct (startAllLoop (keys (mContainers w)) false w) as [o f t].
  cbn [outcome final trace] in *.
  destruct o as [b | e |]; [| exact H1 | exact H1].
  specialize (Hfound b eq_refl). simpl in Hfound.
  destruct b; cbn [negb]; [exact H1 |].
  rewrite bind_getWorld.
  assert (Hwf1 : wellFormed f) by (apply (wellFormed_shape w); assumption).
  assert (Hnone : forall k c, In (k, c) (mContainers f) ->
                              foreground c = false).
  { intros k c Hin. destruct (foreground c) eqn:Ef; [| reflexivity].
    exfalso. pose proof (H1 k c Hin Ef) as Hk. rewrite Hc in Hk.
    assert (Hkey : In k (keys (mContainers w))).
    { rewrite <- (keys_of_shape _ _ Hs).
      apply (in_map fst) in Hin. exact Hin. }
    assert (Hex : existsb (fun id => String.eqb id (foregroundId (mConfig w)))
                    (keys (mContainers w)) = true).
    { apply existsb_exists. exists k. split; [assumption |].
      rewrite Hk. apply String.eqb_refl. }
    congruence. }
  destruct (min_element (mContainers f)) as [[k c] |] eqn:Emin;
    [| exact H1].
  unfold bind. cbn [putWorld outcome final trace].
  apply flags_zoneCall_foreground.
  - simpl. symmetry. apply (wfIds f Hwf1).
    apply min_element_In_pair. assumption.
  - intros k' c' Hin Hfg. simpl in Hin.
    rewrite (Hnone _ _ Hin) in Hfg. discriminate.
Qed.

Lemma flags_atMostOne (m : ContainerMap) (fg : string) :
  NoDup (keys m) ->
  (forall k c, In (k, c) m -> foreground c = true -> k = fg) ->
  atMostOneForeground m.
Proof.
  unfold atMostOneForeground.
  induction m as [| [k c] m IH]; intros Hnd H;
    [unfold foregroundCount; simpl; lia |].
  inversion Hnd as [| ? ? Hnot Hnd']; subst.
  rewrite foregroundCount_cons.
  destruct (holdsForeground c) eqn:E.
  - unfold holdsForeground in E. apply andb_prop in E as [Ef _].
    pose proof (H k c (or_introl eq_refl) Ef) as Hk.
    rewrite foregroundCount_allBackground; [simpl; lia |].
    intros k' c' Hin. destruct (foreground c') eqn:Ef'; [| reflexivity].
    exfalso. apply Hnot.
    rewrite Hk, <- (H k' c' (or_intror Hin) Ef').
    apply (in_map fst) in Hin. exact Hin.
  - simpl. apply IH; [assumption |].
    intros k' c' Hin. apply H. right; assumption.
Qed.

(** X21.  In a well-formed manager where only the zone under the foreground
    id can hold the foreground flag, this stays so after [focus],
    [startAll], [stopAll], [setContainersDetachOnExit], the destructor,
    [SetActiveContainer] and the display-off handler, whatever the runtime
    does and however the method ends, a failure half-way included; so at
    most one running zone holds the foreground after each of them. *)
Theorem X21_flag_follows_foreground_id
  (w : World) (Hwf : wellFormed w) (Hflags : flagsFollowId w) :
  let good w' :=
    flagsFollowId w' /\ atMostOneForeground (mContainers w') in
  good w
  /\ (forall id, good (final (focus id w)))
  /\ good (final (startAll w))
  /\ good (final (stopAll w))
  /\ good (final (setContainersDetachOnExit w))
  /\ good (final (destroyContainersManager w))
  /\ (forall id, good (final (handleSetActiveContainerCall id w)))
  /\ (forall caller, good (final (displayOffHandler caller w))).
Proof.
  intros good.
  assert (Hgood : forall w', shape w' = shape w -> flagsFollowId w' ->
                             good w').
  { intros w' Hs Hf. split; [assumption |].
    apply (flags_atMostOne _ (foregroundId (mConfig w'))); [| exact Hf].
    apply ordered_NoDup, wfOrdered, (wellFormed_shape w); assumption. }
  assert (Hstop : keeps flagsFollowId stopAll).
  { unfold stopAll. apply keeps_getWorld_bind. intros w0 H0.
    apply keeps_forEach; [| exact H0].
    intros id. apply flags_zoneCall_other. discriminate. }
  split; [apply Hgood; [reflexivity | assumption] |].
  split; [| split; [| split; [| split; [| split; [| split]]]]].
  - intros id. apply Hgood; [apply keepsShape_focus |].
    apply focus_flags; assumption.
  - apply Hgood; [apply keepsShape_startAll |].
    apply startAll_flags; assumption.
  - apply Hgood; [apply keepsShape_stopAll | apply Hstop, Hflags].
  - apply Hgood; [apply preserves_shape_setDetach |].
    unfold setContainersDetachOnExit. rewrite bind_getWorld. unfold bind.
    cbn [putWorld outcome final trace].
    apply keeps_forEach; [| exact Hflags].
    intros id. apply flags_zoneCall_other. discriminate.
  - apply Hgood; [apply preserves_shape_destroy |].
    unfold destroyContainersManager. rewrite bind_getWorld.
    destruct (negb (mDetachOnExit w)); [| exact Hflags].
    apply keeps_tryCatch; [exact Hstop | | exact Hflags].
    intros e. apply keeps_emit.
  - intros id. apply Hgood; [apply preserves_shape_setActive |].
    unfold handleSetActiveContainerCall. rewrite bind_getWorld.
    destruct (mapFind id (mContainers w)) as [c |]; [| exact Hflags].
    destruct (isStopped c); [exact Hflags |].
    unfold bind. pose proof (focus_flags w id Hwf Hflags) as Hf.
    destruct (outcome (focus id w)); exact Hf.
  - intros caller. apply Hgood; [apply preserves_shape_displayOff |].
    unfold displayOffHandler, bind.
    rewrite getRunningForegroundContainerId_run.
    cbn [outcome final trace getWorld].
    destruct (mapFind _ (mContainers w)) as [c |]; [| exact Hflags].
    destruct (isSwitchToDefaultAfterTimeoutAllowed c); [| exact Hflags].
    cbn [final]. apply focus_flags; assumption.
Qed.

(** [z1] is in the foreground and is the foreground id; the stop of [z1]
    fails.  After [focus("z2")], [startAll] and the destructor the flag
    still follows the foreground id. *)
Lemma X21_flag_follows_foreground_id_witness :
  flagsFollowId
    (final (focus "z2"
              (Samples.twoZones RUNNING
                 (Samples.faultAt "z1" Samples.isStop)))).
Proof.
  assert (Hwf : wellFormed (Samples.twoZones RUNNING
                              (Samples.faultAt "z1" Samples.isStop))).
  { constructor; simpl.
    - repeat constructor.
    - intros k c [E | [E | []]]; injection E as <- <-; reflexivity.
    - intuition discriminate.
    - left; reflexivity. }
  assert (Hflags : flagsFollowId (Samples.twoZones RUNNING
                                    (Samples.faultAt "z1" Samples.isStop))).
  { intros k c [E | [E | []]]; injection E as <- <-;
      [reflexivity | discriminate]. }
  pose proof (X21_flag_follows_foreground_id _ Hwf Hflags) as H.
  cbv zeta in H. apply (proj1 (proj2 H) "z2").
Defined.

(* ===================================================================== *)
(** ** Listings, and what a moved file has passed *)
(* ===================================================================== *)

(** X19.  [GetContainerIds] and [GetContainerDbuses] return, change nothing
    and answer once, and both name the keys of the map of zones in map
    order.  In a well-formed manager the ids they name are therefore in
    strictly increasing order, none of them twice, ["host"] is not among
    them and the default zone is. *)
Theorem X19_listings_name_every_zone (w : World) (Hwf : wellFormed w) :
  exists ids dbuses,
    handleGetContainerIdsCall w = mkRun (Ret tt) w [Reply (ResultSet ids)]
    /\ handleGetContainerDbuses w
       = mkRun (Ret tt) w [Reply (ResultSet dbuses)]
    /\ listedIds ids = keys (mContainers w)
    /\ listedIds dbuses = listedIds ids
    /\ StronglySorted keyLt (listedIds ids)
    /\ NoDup (listedIds ids)
    /\ ~ In HOST_ID (listedIds ids)
    /\ In (defaultId (mConfig w)) (listedIds ids).
Proof.
  assert (E1 : forall m : ContainerMap,
            flat_map (fun item =>
                        match item with
                        | GString id => [id]
                        | GDictEntry (GString id) _ => [id]
                        | _ => []
                        end)
              (map (fun kc => GString (fst kc)) m) = keys m).
  { induction m as [| [k c] m IH]; simpl; [| rewrite IH]; reflexivity. }
  assert (E2 : forall m : ContainerMap,
            flat_map (fun item =>
                        match item with
                        | GString id => [id]
                        | GDictEntry (GString id) _ => [id]
                        | _ => []
                        end)
              (map (fun kc => GDictEntry (GString (fst kc))
                                (GString (getDbusAddress (snd kc)))) m)
            = keys m).
  { induction m as [| [k c] m IH]; simpl; [| rewrite IH]; reflexivity. }
  do 2 eexists. split; [reflexivity |]. split; [reflexivity |].
  unfold listedIds. rewrite E1, E2.
  destruct Hwf as [Ho Hi Hh Hd].
  repeat split; try assumption. apply ordered_NoDup. assumption.
Qed.

(** The three zones of the foreground scenario are listed as [zA], [zB],
    [zC]. *)
Lemma X19_listings_name_every_zone_witness :
  exists ids,
    handleGetContainerIdsCall Samples.threeZones
    = mkRun (Ret tt) Samples.threeZones [Reply (ResultSet ids)]
    /\ listedIds ids = ["zA"; "zB"; "zC"].
Proof.
  assert (Hwf : wellFormed Samples.threeZones).
  { constructor; simpl.
    - repeat constructor.
    - intros k c [E | [E | [E | []]]]; injection E as <- <-; reflexivity.
    - intuition discriminate.
    - left; reflexivity. }
  destruct (X19_listings_name_every_zone Samples.threeZones Hwf)
    as (ids & dbuses & E1 & _ & E2 & _).
  exists ids. split; assumption.
Defined.

(** X20.  A file is moved only after every check has passed: if the handler
    has moved a file, then the source and the destination zone are both in
    the map and are not the same zone, an expression of the source zone's
    [permittedToSend] matches the whole path, an expression of the
    destination zone's [permittedToRecv] matches the whole path, and the
    file has gone from the path under the source zone's directory to the
    same path under the destination zone's directory. *)
Theorem X20_moved_file_was_permitted
  (w : World) (src dst path srcPath dstPath : string)
  (Hmoved : In (MoveFile srcPath dstPath)
              (trace (handleContainerMoveFileRequest src dst path w))) :
  exists srcContainer dstContainer,
    mapFind src (mContainers w) = Some srcContainer
    /\ mapFind dst (mContainers w) = Some dstContainer
    /\ src <> dst
    /\ (exists toMatch, In toMatch (getPermittedToSend srcContainer)
                        /\ matches toMatch path)
    /\ (exists toMatch, In toMatch (getPermittedToRecv dstContainer)
                        /\ matches toMatch path)
    /\ srcPath = fsAbsolute w src (containersPath (mConfig w)) ++ path
    /\ dstPath = fsAbsolute w dst (containersPath (mConfig w)) ++ path.
Proof.
  unfold handleContainerMoveFileRequest in Hmoved.
  rewrite bind_getWorld in Hmoved.
  destruct (mapFind src (mContainers w)) as [cs |] eqn:Fs;
    [| simpl in Hmoved; destruct Hmoved as [H | []]; discriminate].
  destruct (mapFind dst (mContainers w)) as [cd |] eqn:Fd;
    [| simpl in Hmoved; destruct Hmoved as [H | [H | []]]; discriminate].
  destruct (String.eqb src dst) eqn:E;
    [simpl in Hmoved; destruct Hmoved as [H | [H | []]]; discriminate |].
  destruct (regexMatchVector path (getPermittedToSend cs)) eqn:Rs;
    cbn [negb] in Hmoved;
    [| simpl in Hmoved; destruct Hmoved as [H | [H | []]]; discriminate].
  destruct (regexMatchVector path (getPermittedToRecv cd)) eqn:Rr;
    cbn [negb] in Hmoved;
    [| simpl in Hmoved; destruct Hmoved as [H | [H | []]]; discriminate].
  exists cs, cd. split; [reflexivity |]. split; [reflexivity |].
  split; [apply String.eqb_neq; assumption |].
  split; [apply regexMatchVector_matches; assumption |].
  split; [apply regexMatchVector_matches; assumption |].
  cbv zeta in Hmoved. unfold bind, moveFile, resultSet, emit in Hmoved.
  destruct (existsb _ (hostFiles w));
    cbn [outcome final trace negb app In] in Hmoved.
  - destruct Hmoved as [H | [H | H]]; [| discriminate |].
    + injection H as <- <-. split; reflexivity.
    + apply notification_no_reply in H. discriminate.
  - simpl in Hmoved. destruct Hmoved as [H | [H | [H | []]]];
      try discriminate.
    injection H as <- <-. split; reflexivity.
Qed.

(** [z1] moves [/tmp/a] to [z2]: the file is moved, and the hypothesis of
    [X20_moved_file_was_permitted] holds. *)
Lemma X20_moved_file_was_permitted_witness :
  exists srcContainer dstContainer,
    mapFind "z1" (mContainers (Samples.twoZones RUNNING Samples.noFaults))
    = Some srcContainer
    /\ mapFind "z2" (mContainers (Samples.twoZones RUNNING Samples.noFaults))
       = Some dstContainer
    /\ "z1" <> "z2"
    /\ (exists toMatch, In toMatch (getPermittedToSend srcContainer)
                        /\ matches toMatch "/tmp/a")
    /\ (exists toMatch, In toMatch (getPermittedToRecv dstContainer)
                        /\ matches toMatch "/tmp/a")
    /\ "/var/zones/z1/tmp/a"
       = fsAbsolute (Samples.twoZones RUNNING Samples.noFaults) "z1"
           (containersPath
              (mConfig (Samples.twoZones RUNNING Samples.noFaults)))
         ++ "/tmp/a"
    /\ "/var/zones/z2/tmp/a"
       = fsAbsolute (Samples.twoZones RUNNING Samples.noFaults) "z2"
           (containersPath
              (mConfig (Samples.twoZones RUNNING Samples.noFaults)))
         ++ "/tmp/a".
Proof.
  apply (X20_moved_file_was_permitted
           (Samples.twoZones RUNNING Samples.noFaults) "z1" "z2" "/tmp/a"
           "/var/zones/z1/tmp/a" "/var/zones/z2/tmp/a").
  simpl. left. reflexivity.
Defined.

(** The manager of the foreground scenario is well formed, and so it is
    after [startAll]. *)
Lemma methods_keep_wellFormed_witness :
  wellFormed (final (startAll Samples.threeZones)).
Proof.
  assert (Hwf : wellFormed Samples.threeZones).
  { constructor; simpl.
    - repeat constructor.
    - intros k c [E | [E | [E | []]]]; injection E as <- <-; reflexivity.
    - intuition discriminate.
    - left; reflexivity. }
  exact (proj1 (proj2 (methods_keep_wellFormed Samples.threeZones Hwf))).
Defined.
